(** * StockSense: the impact inference engine of [src/lib/webScraper.ts]

    A shallow embedding of class [AIAnalysisEngine] and of the reference
    tables it reads, followed by the properties of the engine.

    Conventions of the embedding.
    - A JavaScript [number] that can be fractional is an exact rational
      ([Q], compared with [==]); counters are [nat] or [Z].  Rounding of
      IEEE doubles is not modelled.
    - A text is a [string] of 8-bit characters; [toLowerCase] maps the
      letters [A-Z] and leaves every other character alone.
    - [Math.random()] is the injected sequence [random]: the [n]-th call
      returns [random n].  The engine threads the number of calls made.
    - [new RegExp(src)] can throw; it is the only operation of the engine
      that can: a function that reaches it returns an [option], and
      [None] is the exception. *)

From Stdlib Require Import String Ascii List Bool Arith ZArith QArith Qabs Qround Qminmax.
From Stdlib Require Import Lia Lqa Sorted Permutation DecimalString.
Import ListNotations.
Local Open Scope string_scope.
Local Open Scope list_scope.

(* ================================================================== *)
(** ** The JavaScript primitives the engine uses *)

Module JS.

(** [String.prototype.toLowerCase], on the letters [A-Z]. *)
Definition lower_char (c : ascii) : ascii :=
  let n := nat_of_ascii c in
  if ((65 <=? n) && (n <=? 90))%nat then ascii_of_nat (n + 32) else c.

Fixpoint toLowerCase (s : string) : string :=
  match s with
  | EmptyString => EmptyString
  | String c t => String (lower_char c) (toLowerCase t)
  end.

(** [s.includes(needle)]: [needle] occurs in [s] as a substring. *)
Fixpoint includes (s needle : string) : bool :=
  prefix needle s ||
  match s with
  | EmptyString => false
  | String _ t => includes t needle
  end.

(** [s.split(sep)] for a one-character separator. *)
Fixpoint split (sep : ascii) (s : string) : list string :=
  match s with
  | EmptyString => [EmptyString]
  | String c t =>
      if Ascii.eqb c sep then EmptyString :: split sep t
      else match split sep t with
           | w :: ws => String c w :: ws
           | [] => [String c EmptyString]
           end
  end.

(** [xs.join(sep)]. *)
Definition join (sep : string) (xs : list string) : string := String.concat sep xs.

(** [xs.slice(0, n)]. *)
Definition slice0 {A : Type} (n : nat) (xs : list A) : list A := firstn n xs.

(** A counter read as a [number]. *)
Definition num (n : nat) : Q := inject_Z (Z.of_nat n).

(** Template-literal interpolation of an integer. *)
Definition show_Z (z : Z) : string := NilZero.string_of_int (Z.to_int z).
Definition show_nat (n : nat) : string := show_Z (Z.of_nat n).

Definition Math_min (a b : Q) : Q := if Qle_bool a b then a else b.
Definition Math_max (a b : Q) : Q := if Qle_bool a b then b else a.
Definition Math_abs (a : Q) : Q := Qabs a.
(** [Math.round]: nearest integer, halves upwards. *)
Definition Math_round (a : Q) : Z := Qfloor (a + (1 # 2)).

(** The comparisons [a > b], [a < b] and [a >= b] on numbers. *)
Definition gt (a b : Q) : bool := negb (Qle_bool a b).
Definition lt (a b : Q) : bool := negb (Qle_bool b a).
Definition ge (a b : Q) : bool := Qle_bool b a.

(** [Array.prototype.sort(cmp)].  The language requires a stable sort;
    with a comparator that comes from a numeric key its result is the
    one of a stable insertion sort: [x] goes before [y] when
    [cmp x y <= 0]. *)
Section Sort.
Context {A : Type} (cmp : A -> A -> Q).

Fixpoint insert (x : A) (l : list A) : list A :=
  match l with
  | [] => [x]
  | y :: l' => if Qle_bool (cmp x y) 0 then x :: l else y :: insert x l'
  end.

Definition sort (l : list A) : list A := fold_right insert [] l.
End Sort.

(** *** Regular expressions

    The engine builds its patterns from tickers and from the words of the
    company names.  The fragment modelled is: literal characters, [.],
    [\b] and an escaped punctuation character.  [RegExp] returns [None]
    on a source outside the fragment (where the constructor may throw a
    [SyntaxError], or mean something else); every source inside it is a
    valid pattern. *)
Inductive atom : Type :=
| Lit (c : ascii)
| AnyChar
| WordB.

Definition is_meta (c : ascii) : bool :=
  existsb (Ascii.eqb c)
    (list_ascii_of_string "^$\.*+?()[]{}|/").

Fixpoint RegExp (src : string) : option (list atom) :=
  match src with
  | EmptyString => Some []
  | String c rest =>
      if Ascii.eqb c "\" then
        match rest with
        | EmptyString => None
        | String d rest' =>
            if Ascii.eqb d "b" then option_map (cons WordB) (RegExp rest')
            else if is_meta d then option_map (cons (Lit d)) (RegExp rest')
            else None
        end
      else if Ascii.eqb c "." then option_map (cons AnyChar) (RegExp rest)
      else if is_meta c then None
      else option_map (cons (Lit c)) (RegExp rest)
  end.

(** [\w] *)
Definition is_word (c : ascii) : bool :=
  let n := nat_of_ascii c in
  (((48 <=? n) && (n <=? 57)) || ((65 <=? n) && (n <=? 90)) ||
   ((97 <=? n) && (n <=? 122)) || (n =? 95))%nat.

Definition is_word_opt (o : option ascii) : bool :=
  match o with
  | Some c => is_word c
  | None => false
  end.

(** Line terminators, which [.] does not match. *)
Definition is_line_terminator (c : ascii) : bool :=
  let n := nat_of_ascii c in ((n =? 10) || (n =? 13))%nat.

Definition next_char (s : string) : option ascii :=
  match s with
  | EmptyString => None
  | String c _ => Some c
  end.

(** [match_here p prev s]: the pattern matches at the start of [s], where
    [prev] is the character before it; the result is the length matched.
    No atom of the fragment gives a choice, so the match is unique. *)
Fixpoint match_here (p : list atom) (prev : option ascii) (s : string) : option nat :=
  match p with
  | [] => Some O
  | Lit c :: p' =>
      match s with
      | String d t =>
          if Ascii.eqb c d then option_map S (match_here p' (Some d) t) else None
      | EmptyString => None
      end
  | AnyChar :: p' =>
      match s with
      | String d t =>
          if is_line_terminator d then None
          else option_map S (match_here p' (Some d) t)
      | EmptyString => None
      end
  | WordB :: p' =>
      if xorb (is_word_opt prev) (is_word_opt (next_char s))
      then match_here p' prev s else None
  end.

(** [(s.match(new RegExp(p, 'g')) || []).length]: the matches are taken
    from left to right and do not overlap; after an empty match the
    search moves on by one character.  [skip] is the number of characters
    still covered by the last match. *)
Fixpoint match_count_from (p : list atom) (prev : option ascii) (s : string)
    (skip : nat) {struct s} : nat :=
  match s with
  | EmptyString =>
      match skip, match_here p prev EmptyString with
      | O, Some _ => 1
      | _, _ => 0
      end
  | String c t =>
      match skip with
      | S k => match_count_from p (Some c) t k
      | O =>
          match match_here p prev s with
          | Some len => S (match_count_from p (Some c) t (Nat.pred len))
          | None => match_count_from p (Some c) t 0
          end
      end
  end.

Definition match_count (p : list atom) (s : string) : nat :=
  match_count_from p None s 0.

End JS.

Import JS.

(* ================================================================== *)
(** ** Reference data *)

Record Company : Type := mkCompany {
  c_name : string;
  c_sector : string;
  marketCap : Z
}.

(** An object literal is read in insertion order ([Object.entries]) and
    by key ([obj[key]], [undefined] when absent). *)
Fixpoint assoc {A : Type} (key : string) (obj : list (string * A)) : option A :=
  match obj with
  | [] => None
  | (k, v) :: obj' => if String.eqb key k then Some v else assoc key obj'
  end.

Definition keys {A : Type} (obj : list (string * A)) : list string := map fst obj.

Definition COMPANY_DATABASE : list (string * Company) :=
  [ ("AAPL", mkCompany "Apple Inc." "Technology" 3000000000000);
    ("MSFT", mkCompany "Microsoft Corporation" "Technology" 2800000000000);
    ("GOOGL", mkCompany "Alphabet Inc." "Technology" 1700000000000);
    ("AMZN", mkCompany "Amazon.com Inc." "Consumer Discretionary" 1500000000000);
    ("TSLA", mkCompany "Tesla Inc." "Consumer Discretionary" 800000000000);
    ("META", mkCompany "Meta Platforms Inc." "Technology" 750000000000);
    ("NVDA", mkCompany "NVIDIA Corporation" "Technology" 1800000000000);
    ("JPM", mkCompany "JPMorgan Chase & Co." "Financial Services" 450000000000);
    ("JNJ", mkCompany "Johnson & Johnson" "Healthcare" 400000000000);
    ("V", mkCompany "Visa Inc." "Financial Services" 500000000000);
    ("PG", mkCompany "Procter & Gamble Co." "Consumer Staples" 350000000000);
    ("UNH", mkCompany "UnitedHealth Group Inc." "Healthcare" 480000000000);
    ("HD", mkCompany "The Home Depot Inc." "Consumer Discretionary" 320000000000);
    ("MA", mkCompany "Mastercard Inc." "Financial Services" 380000000000);
    ("BAC", mkCompany "Bank of America Corp." "Financial Services" 280000000000) ].

Definition SECTOR_KEYWORDS : list (string * list string) :=
  [ ("Technology", ["tech"; "software"; "ai"; "artificial intelligence"; "cloud";
                    "digital"; "innovation"; "semiconductor"; "chip"]);
    ("Healthcare", ["health"; "medical"; "pharmaceutical"; "drug"; "biotech";
                    "clinical"; "fda"; "treatment"]);
    ("Financial Services", ["bank"; "financial"; "credit"; "loan"; "interest rate";
                            "fed"; "monetary"; "payment"]);
    ("Consumer Discretionary", ["retail"; "consumer"; "shopping"; "e-commerce";
                                "automotive"; "electric vehicle"]);
    ("Consumer Staples", ["food"; "beverage"; "household"; "essential"; "grocery"]);
    ("Energy", ["oil"; "gas"; "energy"; "renewable"; "solar"; "wind"; "petroleum"]);
    ("Industrials", ["manufacturing"; "industrial"; "aerospace"; "defense";
                     "transportation"]);
    ("Materials", ["mining"; "metals"; "chemicals"; "materials"; "commodities"]);
    ("Real Estate", ["real estate"; "property"; "reit"; "housing"; "construction"]);
    ("Utilities", ["utility"; "electric"; "power"; "water"; "gas utility"]) ].

Record SentimentKeywords : Type := {
  positive : list (string * list string);
  negative : list (string * list string)
}.

Definition SENTIMENT_KEYWORDS : SentimentKeywords := {|
  positive :=
    [ ("strong", ["breakthrough"; "record"; "surge"; "soar"; "rally"; "boom";
                  "exceptional"; "outstanding"]);
      ("moderate", ["growth"; "increase"; "rise"; "gain"; "improve"; "positive";
                    "strong"; "beat"]);
      ("mild", ["stable"; "steady"; "maintain"; "hold"; "continue"]) ];
  negative :=
    [ ("strong", ["crash"; "plunge"; "collapse"; "disaster"; "crisis"; "bankruptcy";
                  "scandal"]);
      ("moderate", ["decline"; "fall"; "drop"; "loss"; "weak"; "concern"; "worry";
                    "miss"]);
      ("mild", ["caution"; "uncertainty"; "challenge"; "pressure"; "slow"]) ]
|}.

(** The table inside [getIndustryKeywords]. *)
Definition keywordMap : list (string * list string) :=
  [ ("Technology", ["innovation"; "software"; "hardware"; "digital"; "cloud"; "AI";
                    "data"; "platform"; "algorithm"]);
    ("Healthcare", ["drug"; "treatment"; "clinical"; "FDA"; "medical";
                    "pharmaceutical"; "biotech"; "vaccine"]);
    ("Financial Services", ["banking"; "lending"; "credit"; "financial"; "payment";
                            "fintech"; "regulation"; "interest"]);
    ("Consumer Discretionary", ["retail"; "brand"; "consumer"; "sales"; "marketing";
                                "e-commerce"; "shopping"; "automotive"]);
    ("Consumer Staples", ["food"; "beverage"; "household"; "grocery"; "brand";
                          "consumer goods"]);
    ("Energy", ["oil"; "gas"; "renewable"; "solar"; "wind"; "battery"; "electric";
                "carbon"; "energy"]);
    ("Industrials", ["manufacturing"; "industrial"; "aerospace"; "defense";
                     "transportation"; "logistics"]) ].

(** The table inside [getCompetitors]. *)
Definition competitorMap : list (string * list string) :=
  [ ("AAPL", ["samsung"; "google"; "microsoft"; "amazon"]);
    ("MSFT", ["apple"; "google"; "amazon"; "oracle"]);
    ("GOOGL", ["apple"; "microsoft"; "amazon"; "meta"]);
    ("AMZN", ["microsoft"; "google"; "walmart"; "alibaba"]);
    ("TSLA", ["ford"; "gm"; "volkswagen"; "toyota"]);
    ("META", ["google"; "apple"; "twitter"; "snapchat"]);
    ("NVDA", ["amd"; "intel"; "qualcomm"; "broadcom"]) ].

(** The table inside [generateAdvancedPriceTarget]. *)
Definition basePrices : list (string * Q) :=
  [ ("AAPL", 175); ("MSFT", 350); ("GOOGL", 140); ("AMZN", 145); ("TSLA", 240);
    ("META", 320); ("NVDA", 450); ("JPM", 150); ("JNJ", 160); ("V", 250);
    ("PG", 155); ("UNH", 520); ("HD", 330); ("MA", 380); ("BAC", 32) ]%Q.

(** The table inside [getSectorVolatility]. *)
Definition volatilityMap : list (string * Q) :=
  [ ("Technology", 1.2); ("Healthcare", 0.9); ("Financial Services", 1.1);
    ("Consumer Discretionary", 1.3); ("Consumer Staples", 0.7); ("Energy", 1.5);
    ("Industrials", 1.0); ("Materials", 1.4); ("Real Estate", 0.8);
    ("Utilities", 0.6) ]%Q.

(** The list inside [identifyConnectedStocks]. *)
Definition broadMarketKeywords : list string :=
  ["market"; "economy"; "fed"; "inflation"; "gdp"; "recession"; "bull"; "bear"].

(** The lists inside [determineDynamicTimeframe]. *)
Definition immediateKeywords : list string :=
  ["immediate"; "today"; "breaking"; "urgent"; "now"; "just announced"].
Definition shortTermKeywords : list string :=
  ["quarter"; "earnings"; "this week"; "next week"; "monthly"].
Definition longTermKeywords : list string :=
  ["year"; "years"; "long-term"; "strategic"; "future"; "roadmap"; "vision"].

(* ================================================================== *)
(** ** Output types *)

Inductive ImpactLevel : Type :=
| VeryNegative | Negative | Neutral | Positive | VeryPositive.

Inductive Timeframe : Type :=
| Immediate | ShortTerm | MediumTerm | LongTerm.

Record PriceTarget : Type := {
  current : Q;
  predicted : Q;
  change : Q;
  changePercent : Q
}.

Record StockImpact : Type := {
  ticker : string;
  companyName : string;
  impactScore : Q;
  impactLevel : ImpactLevel;
  confidence : Q;
  timeframe : Timeframe;
  reasoning : list string;
  priceTarget : option PriceTarget   (* [priceTarget?:] *)
}.

Record MarketSector : Type := {
  ms_name : string;
  ms_impactScore : Q;
  affectedStocks : list string;
  ms_reasoning : string
}.

(** The object [analyzeSentiment] returns, also [MarketSentiment]. *)
Record Sentiment : Type := {
  score : Q;
  label : string;
  s_confidence : Q
}.

Record Timeline : Type := {
  immediate : list string;
  shortTerm : list string;
  longTerm : list string
}.

Record AIAnalysisResult : Type := {
  stockImpacts : list StockImpact;
  sectorImpacts : list MarketSector;
  overallMarketSentiment : Sentiment;
  keyInsights : list string;
  riskFactors : list string;
  opportunities : list string;
  timeline : Timeline
}.

Record ModelFactors : Type := {
  companyMentions : nat;
  sectorRelevance : Q;
  newsRelevance : Q;
  volatilityFactor : Q
}.

(* ================================================================== *)
(** ** Effects *)

(** A computation that can throw: [None] is the exception. *)
Definition bindR {A B : Type} (c : option A) (k : A -> option B) : option B :=
  match c with
  | Some a => k a
  | None => None
  end.

(** A computation that can throw and can call [Math.random()]: the state
    is the number of calls made so far. *)
Definition M (A : Type) : Type := nat -> option (A * nat).

Definition ret {A : Type} (a : A) : M A := fun n => Some (a, n).

Definition bind {A B : Type} (c : M A) (k : A -> M B) : M B :=
  fun n =>
    match c n with
    | Some (a, n') => k a n'
    | None => None
    end.

Definition lift {A : Type} (c : option A) : M A :=
  fun n => option_map (fun a => (a, n)) c.

Declare Scope engine_scope.
Delimit Scope engine_scope with engine.
Notation "x <-? c ;; k" := (bindR c (fun x => k))
  (at level 61, c at next level, right associativity) : engine_scope.
Notation "x <- c ;; k" := (bind c (fun x => k))
  (at level 61, c at next level, right associativity) : engine_scope.

(** The closures [buildAdvancedPredictionModel] returns. *)
Record PredictionModel : Type := {
  calculateImpactScore : option Q;
  calculateConfidence : M Q;
  getModelFactors : option ModelFactors
}.

(* ================================================================== *)
(** ** [class AIAnalysisEngine] *)

Local Open Scope Q_scope.
Local Open Scope engine_scope.

(** [obj[key] || []] and [obj[key] || d] for a number. *)
Definition or_empty {A : Type} (o : option (list A)) : list A :=
  match o with
  | Some l => l
  | None => []
  end.

Definition or_number (o : option Q) (d : Q) : Q :=
  match o with
  | Some v => if Qeq_bool v 0 then d else v
  | None => d
  end.

(** [keywords.filter(k => text.includes(k)).length] *)
Definition count_included (text : string) (keywords : list string) : nat :=
  length (filter (fun keyword => includes text keyword) keywords).

(** [name.toLowerCase().split(' ').filter(word => word.length > 3)] *)
Definition nameWords (companyName : string) : list string :=
  filter (fun word => (3 <? String.length word)%nat)
    (split " " (toLowerCase companyName)).

Definition getIndustryKeywords (sector : string) : list string :=
  or_empty (assoc sector keywordMap).

Definition getCompetitors (ticker : string) : list string :=
  or_empty (assoc ticker competitorMap).

(** [filter(k => text.toLowerCase().includes(k.toLowerCase())).length] *)
Definition count_included_ci (text : string) (keywords : list string) : nat :=
  length (filter (fun keyword => includes (toLowerCase text) (toLowerCase keyword))
            keywords).

(** The body of the loop of [identifyConnectedStocks]: the relevance
    score of one company. *)
Definition relevanceScore (text ticker : string) (company : Company) : Q :=
  let relevanceScore := 0 in
  let relevanceScore :=
    if includes text (toLowerCase ticker)
       || includes text ("$" ++ toLowerCase ticker)%string
    then relevanceScore + 10 else relevanceScore in
  let companyWords := nameWords (c_name company) in
  let nameMatches := count_included text companyWords in
  let relevanceScore := relevanceScore + num nameMatches * 5 in
  let sectorKeywords := or_empty (assoc (c_sector company) SECTOR_KEYWORDS) in
  let sectorMatches := count_included text sectorKeywords in
  let relevanceScore := relevanceScore + num sectorMatches * 2 in
  let industryKeywords := getIndustryKeywords (c_sector company) in
  let industryMatches := count_included_ci text industryKeywords in
  let relevanceScore := relevanceScore + num industryMatches * 1.5 in
  let competitors := getCompetitors ticker in
  let competitorMatches := count_included_ci text competitors in
  relevanceScore + num competitorMatches * 1.

Definition stockRelevanceScores (text : string) : list (string * Q) :=
  flat_map
    (fun entry : string * Company =>
       let (ticker, company) := entry in
       let relevanceScore := relevanceScore text ticker company in
       if gt relevanceScore 0 then [(ticker, relevanceScore)] else [])
    COMPANY_DATABASE.

Definition identifyConnectedStocks (text : string) : list string :=
  let sortedStocks :=
    filter (fun stock => ge (snd stock) 2)
      (sort (fun a b : string * Q => snd b - snd a) (stockRelevanceScores text)) in
  if (0 <? length sortedStocks)%nat then map fst (slice0 6 sortedStocks)
  else
    let hasBroadMarketImpact :=
      existsb (fun keyword => includes text keyword) broadMarketKeywords in
    if hasBroadMarketImpact then ["AAPL"; "MSFT"; "GOOGL"; "AMZN"]
    else [].

Definition identifyAffectedSectors (text : string) : list string :=
  let affectedSectors :=
    flat_map
      (fun entry : string * list string =>
         let (sector, keywords) := entry in
         let hasKeyword := existsb (fun keyword => includes text keyword) keywords in
         if hasKeyword then [sector] else [])
      SECTOR_KEYWORDS in
  let affectedSectors :=
    if (length affectedSectors =? 0)%nat
    then affectedSectors ++ ["Technology"; "Financial Services"; "Healthcare"]
    else affectedSectors in
  slice0 5 affectedSectors.

(** One turn of the two loops of [analyzeSentiment], on the pair
    [(sentimentScore, totalMatches)]; [sign] is [1] in the first loop and
    [-1] in the second. *)
Definition sentiment_step (text : string) (sign : Z) (acc : Z * Z)
    (entry : string * list string) : Z * Z :=
  let (intensity, keywords) := entry in
  let (sentimentScore, totalMatches) := acc in
  let matches := Z.of_nat (count_included text keywords) in
  if (0 <? matches)%Z then
    let weight :=
      if String.eqb intensity "strong" then 3%Z
      else if String.eqb intensity "moderate" then 2%Z else 1%Z in
    ((sentimentScore + sign * (matches * weight))%Z, (totalMatches + matches)%Z)
  else acc.

Definition sentiment_label (normalizedScore : Q) : string :=
  if gt normalizedScore 0.3 then "Very Positive"
  else if gt normalizedScore 0.1 then "Positive"
  else if gt normalizedScore (-0.1) then "Neutral"
  else if gt normalizedScore (-0.3) then "Negative"
  else "Very Negative".

Definition normalizedScore_of (sentimentScore totalMatches : Z) : Q :=
  if (0 <? totalMatches)%Z
  then Math_max (-1) (Math_min 1 (inject_Z sentimentScore / inject_Z (totalMatches * 2)))
  else 0.

Definition analyzeSentiment (text : string) : Sentiment :=
  let acc := fold_left (sentiment_step text 1) (positive SENTIMENT_KEYWORDS) (0%Z, 0%Z) in
  let acc := fold_left (sentiment_step text (-1)) (negative SENTIMENT_KEYWORDS) acc in
  let (sentimentScore, totalMatches) := acc in
  let normalizedScore := normalizedScore_of sentimentScore totalMatches in
  let confidence := Math_min 0.95 (Math_max 0.3 (inject_Z totalMatches * 0.1 + 0.5)) in
  {| score := (normalizedScore + 1) / 2;
     label := sentiment_label normalizedScore;
     s_confidence := confidence |}.

(** [for (const word of words) count += (text.match(new RegExp(word,'g'))||[]).length] *)
Fixpoint count_words (text : string) (words : list string) (count : nat) : option nat :=
  match words with
  | [] => Some count
  | word :: words' =>
      re <-? RegExp word ;;
      count_words text words' (count + match_count re text)
  end.

Definition countCompanyMentions (text ticker companyName : string) : option nat :=
  let count := O in
  re <-? RegExp (toLowerCase ticker) ;;
  let count := (count + match_count re text)%nat in
  re <-? RegExp ("\$" ++ toLowerCase ticker)%string ;;
  let count := (count + match_count re text)%nat in
  count_words text (nameWords companyName) count.

Definition calculateSectorRelevance (text sector : string) : Q :=
  let keywords := or_empty (assoc sector SECTOR_KEYWORDS) in
  let matches := count_included text keywords in
  Math_min 1 (num matches * 0.2).

Definition getImpactLevel (score : Q) : ImpactLevel :=
  if gt score 0.8 then VeryPositive
  else if gt score 0.6 then Positive
  else if gt score 0.4 then Neutral
  else if gt score 0.2 then Negative
  else VeryNegative.

Definition calculateNewsRelevance (ticker : string) (company : Company)
    (text : string) : option Q :=
  let relevance := 1.0 in
  re <-? RegExp ("\b" ++ toLowerCase ticker ++ "\b")%string ;;
  let tickerMentions := match_count re (toLowerCase text) in
  let relevance := if (0 <? tickerMentions)%nat then relevance + 0.3 else relevance in
  let industryKeywords := getIndustryKeywords (c_sector company) in
  let keywordMatches := count_included_ci text industryKeywords in
  let relevance := relevance + Math_min 0.4 (num keywordMatches * 0.08) in
  let competitors := getCompetitors ticker in
  let competitorMentions := count_included_ci text competitors in
  let relevance := if (0 <? competitorMentions)%nat then relevance + 0.15 else relevance in
  Some (Math_min 2.0 relevance).

Definition getSectorVolatility (sector : string) : Q :=
  or_number (assoc sector volatilityMap) 1.0.

Definition determineDynamicTimeframe (text : string) (impactScore confidence : Q)
    : Timeframe :=
  if existsb (fun keyword => includes (toLowerCase text) keyword) immediateKeywords
  then Immediate
  else
    let hasShortTermKeywords :=
      existsb (fun keyword => includes (toLowerCase text) keyword) shortTermKeywords in
    let highImpact := gt (Math_abs (impactScore - 0.5)) 0.25 in
    let highConfidence := gt confidence 0.8 in
    if hasShortTermKeywords || (highImpact && highConfidence) then ShortTerm
    else
      let hasLongTermKeywords :=
        existsb (fun keyword => includes (toLowerCase text) keyword) longTermKeywords in
      let structuralChange :=
        includes (toLowerCase text) "regulation"
        || includes (toLowerCase text) "policy"
        || includes (toLowerCase text) "transformation" in
      if hasLongTermKeywords || structuralChange then LongTerm
      else if gt confidence 0.7 then ShortTerm else MediumTerm.

Definition generateSectorReasoning (sector text : string) (sentiment : Sentiment)
    : string :=
  let keywords := or_empty (assoc sector SECTOR_KEYWORDS) in
  let matchedKeywords := filter (fun keyword => includes text keyword) keywords in
  if (0 <? length matchedKeywords)%nat then
    ("Sector directly mentioned with keywords: "
       ++ join ", " (slice0 3 matchedKeywords) ++ ". " ++ label sentiment
       ++ " sentiment expected to "
       ++ (if gt (score sentiment) 0.5 then "benefit" else "challenge")
       ++ " sector performance.")%string
  else
    ("Indirect sector exposure through market dynamics. Overall "
       ++ toLowerCase (label sentiment)
       ++ " sentiment may influence sector performance.")%string.

Definition generateSectorImpacts (sectors : list string) (text : string)
    (sentiment : Sentiment) : list MarketSector :=
  map
    (fun sector =>
       let relevance := calculateSectorRelevance text sector in
       let impactScore := (score sentiment + relevance) / 2 in
       let affectedStocks :=
         slice0 4
           (map fst
              (filter (fun entry : string * Company =>
                         String.eqb (c_sector (snd entry)) sector)
                 COMPANY_DATABASE)) in
       let reasoning := generateSectorReasoning sector text sentiment in
       {| ms_name := sector;
          ms_impactScore := impactScore;
          affectedStocks := affectedStocks;
          ms_reasoning := reasoning |})
    sectors.

(** [generateKeyInsights] sorts [sectorImpacts] in place, and that array
    is the one [analyzeArticleImpact] returns: the function gives back the
    insights and the array as it leaves it. *)
Definition generateKeyInsights (headline text : string)
    (stockImpacts : list StockImpact) (sectorImpacts : list MarketSector)
    : list string * list MarketSector :=
  let insights := [] in
  let topPositive := slice0 2 (filter (fun s => gt (impactScore s) 0.6) stockImpacts) in
  let topNegative := slice0 2 (filter (fun s => lt (impactScore s) 0.4) stockImpacts) in
  let insights :=
    if (0 <? length topPositive)%nat then
      insights ++ [(join " and " (map ticker topPositive)
        ++ " show strongest positive impact potential with high confidence levels.")%string]
    else insights in
  let insights :=
    if (0 <? length topNegative)%nat then
      insights ++ [(join " and " (map ticker topNegative)
        ++ " may face headwinds based on the analysis.")%string]
    else insights in
  let sectorImpacts :=
    sort (fun a b => Math_abs (ms_impactScore b - 0.5) - Math_abs (ms_impactScore a - 0.5))
      sectorImpacts in
  let insights :=
    match sectorImpacts with
    | topSector :: _ =>
        insights ++ [(ms_name topSector
          ++ " sector shows the most significant exposure to these developments.")%string]
    | [] => insights
    end in
  let immediateImpacts :=
    length (filter (fun s => match timeframe s with Immediate => true | _ => false end)
              stockImpacts) in
  let insights :=
    if (0 <? immediateImpacts)%nat then
      insights ++ [(show_nat immediateImpacts
        ++ " stocks expected to see immediate market reaction within 24 hours.")%string]
    else insights in
  let positiveCount := length (filter (fun s => gt (impactScore s) 0.5) stockImpacts) in
  let totalCount := length stockImpacts in
  let percent :=
    (* 0 / 0 is NaN *)
    if (totalCount =? 0)%nat then "NaN"
    else show_Z (Math_round ((num positiveCount / num totalCount) * 100)) in
  let insights :=
    insights ++ [("Market sentiment analysis suggests " ++ percent
      ++ "% of analyzed stocks may benefit from these developments.")%string] in
  (slice0 5 insights, sectorImpacts).

Definition identifyRiskFactors (text : string) (sentiment : Sentiment) : list string :=
  let risks := [] in
  let risks :=
    if includes text "regulation" || includes text "policy"
    then risks ++ ["Regulatory uncertainty may create additional volatility"]
    else risks in
  let risks :=
    if includes text "inflation" || includes text "interest rate"
    then risks ++ ["Macroeconomic factors could amplify market reactions"]
    else risks in
  let risks :=
    if lt (s_confidence sentiment) 0.7
    then risks ++ ["Analysis confidence is moderate due to limited information"]
    else risks in
  let risks :=
    if includes text "geopolitical" || includes text "trade"
    then risks ++ ["Geopolitical tensions may affect international market exposure"]
    else risks in
  let risks :=
    risks ++ ["Market conditions can change rapidly, affecting prediction accuracy"] in
  slice0 4 risks.

Definition identifyOpportunities (text : string) (sentiment : Sentiment) : list string :=
  let opportunities := [] in
  let opportunities :=
    if gt (score sentiment) 0.6
    then opportunities
           ++ ["Strong positive sentiment creates potential for momentum-driven gains"]
    else opportunities in
  let opportunities :=
    if includes text "innovation" || includes text "technology"
    then opportunities
           ++ ["Technology sector developments may create long-term growth opportunities"]
    else opportunities in
  let opportunities :=
    if includes text "earnings" || includes text "revenue"
    then opportunities
           ++ ["Financial performance improvements could drive sustained price appreciation"]
    else opportunities in
  let opportunities :=
    if includes text "merger" || includes text "acquisition"
    then opportunities ++ ["Corporate activity may create value for shareholders"]
    else opportunities in
  let opportunities :=
    opportunities
      ++ ["Market volatility creates potential entry points for long-term investors"] in
  slice0 4 opportunities.

Definition generateTimeline (headline text : string) (sentiment : Sentiment) : Timeline :=
  {| immediate :=
       ["Initial market reaction and price discovery";
        "Trading volume spike in affected securities";
        "Analyst commentary and rating updates"];
     shortTerm :=
       ["Earnings guidance adjustments from companies";
        "Sector rotation based on new information";
        "Options market activity reflecting sentiment shifts"];
     longTerm :=
       ["Fundamental business impact assessment";
        "Strategic positioning changes by companies";
        "Long-term valuation multiple adjustments"] |}.

Definition generateAdvancedStockReasoning (ticker : string) (company : Company)
    (text : string) (sentiment : Sentiment) (predictionModel : PredictionModel)
    : option (list string) :=
  let reasoning := [] in
  modelFactors <-? getModelFactors predictionModel ;;
  let sectorKeywords := getIndustryKeywords (c_sector company) in
  let matchedKeywords :=
    filter (fun keyword => includes (toLowerCase text) (toLowerCase keyword))
      sectorKeywords in
  let reasoning :=
    if (0 <? length matchedKeywords)%nat then
      reasoning ++ [("Strong " ++ c_sector company ++ " sector relevance with "
        ++ show_nat (length matchedKeywords) ++ " industry keywords identified")%string]
    else
      reasoning ++ [("Indirect " ++ c_sector company
        ++ " sector exposure to market developments")%string] in
  let reasoning :=
    if gt (score sentiment) 0.7 then
      reasoning ++ [("Strong positive sentiment ("
        ++ show_Z (Math_round (score sentiment * 100))
        ++ "%) creates significant upside potential")%string]
    else if gt (score sentiment) 0.6 then
      reasoning ++ ["Moderate positive sentiment likely to support stock performance"]
    else if lt (score sentiment) 0.3 then
      reasoning ++ [("Negative sentiment ("
        ++ show_Z (Math_round (score sentiment * 100))
        ++ "%) may create downward pressure")%string]
    else if lt (score sentiment) 0.4 then
      reasoning ++ ["Cautious sentiment suggests potential volatility ahead"]
    else reasoning in
  let reasoning :=
    if (2 <? companyMentions modelFactors)%nat then
      reasoning ++ [("High news relevance with "
        ++ show_nat (companyMentions modelFactors) ++ " direct company mentions")%string]
    else if (0 <? companyMentions modelFactors)%nat then
      reasoning ++ ["Moderate news relevance with direct company references"]
    else reasoning in
  let reasoning :=
    if (1000000000000 <? marketCap company)%Z then
      reasoning
        ++ ["Large-cap stability may moderate price movements but ensure sustained impact"]
    else if (100000000000 <? marketCap company)%Z then
      reasoning ++ ["Mid-to-large cap positioning allows for meaningful price discovery"]
    else
      reasoning
        ++ ["Smaller market cap may amplify price reactions to news developments"] in
  let businessFactors := [] in
  let businessFactors :=
    if includes text "earnings" || includes text "revenue" || includes text "profit"
    then businessFactors ++ ["financial performance"] else businessFactors in
  let businessFactors :=
    if includes text "regulation" || includes text "policy" || includes text "compliance"
    then businessFactors ++ ["regulatory environment"] else businessFactors in
  let businessFactors :=
    if includes text "competition" || includes text "market share"
    then businessFactors ++ ["competitive dynamics"] else businessFactors in
  let businessFactors :=
    if includes text "innovation" || includes text "product" || includes text "launch"
    then businessFactors ++ ["product development"] else businessFactors in
  let reasoning :=
    if (0 <? length businessFactors)%nat then
      reasoning ++ [("Key business drivers identified: "
        ++ join ", " businessFactors)%string]
    else reasoning in
  let reasoning :=
    if gt (newsRelevance modelFactors) 1.3 then
      reasoning
        ++ ["High news relevance score suggests strong correlation with stock performance"]
    else reasoning in
  Some (slice0 5 reasoning).

Section Engine.

(** The source of the draws: the [n]-th call of [Math.random()]. *)
Variable random : nat -> Q.

Definition Math_random : M Q := fun n => Some (random n, S n).

Definition buildAdvancedPredictionModel (ticker : string) (company : Company)
    (text : string) (sentiment : Sentiment) : PredictionModel :=
  {| calculateImpactScore :=
       let impactScore := score sentiment in
       companyMentions <-? countCompanyMentions text ticker (c_name company) ;;
       let mentionBoost := Math_min 0.3 (num companyMentions * 0.08) in
       let impactScore := Math_min 1 (impactScore + mentionBoost) in
       let sectorRelevance := calculateSectorRelevance text (c_sector company) in
       let sectorWeight := 0.4 in
       let impactScore :=
         (impactScore * (1 - sectorWeight)) + (sectorRelevance * sectorWeight) in
       let volatilityFactor :=
         if (1000000000000 <? marketCap company)%Z then 0.85 else 1.15 in
       let impactScore := 0.5 + ((impactScore - 0.5) * volatilityFactor) in
       newsRelevance <-? calculateNewsRelevance ticker company text ;;
       let impactScore := 0.5 + ((impactScore - 0.5) * newsRelevance) in
       Some (Math_max 0 (Math_min 1 impactScore));

     calculateConfidence :=
       let sentimentStrength := Math_abs (score sentiment - 0.5) * 2 in
       let confidence := 0.5 + (sentimentStrength * 0.3) in
       companyMentions <- lift (countCompanyMentions text ticker (c_name company)) ;;
       let confidence := confidence + Math_min 0.2 (num companyMentions * 0.04) in
       let sectorRelevance := calculateSectorRelevance text (c_sector company) in
       let confidence := confidence + sectorRelevance * 0.15 in
       let stabilityFactor :=
         if (500000000000 <? marketCap company)%Z then 1.1 else 0.95 in
       let confidence := confidence * stabilityFactor in
       r <- Math_random ;;
       let historicalAccuracy := 0.8 + (r * 0.15) in
       let confidence := confidence * historicalAccuracy in
       ret (Math_max 0.3 (Math_min 0.95 confidence));

     getModelFactors :=
       companyMentions <-? countCompanyMentions text ticker (c_name company) ;;
       let sectorRelevance := calculateSectorRelevance text (c_sector company) in
       newsRelevance <-? calculateNewsRelevance ticker company text ;;
       Some {| companyMentions := companyMentions;
               sectorRelevance := sectorRelevance;
               newsRelevance := newsRelevance;
               volatilityFactor :=
                 if (1000000000000 <? marketCap company)%Z then 0.85 else 1.15 |}
  |}.

(** [generateAdvancedPriceTarget].  The call of [calculateConfidence]
    makes a draw of its own.  [current] is the table price as it stands.
    The three other fields are rounded here from the exact values: on
    doubles a product can land on a half that the exact value misses, and
    the code then gives [predicted] or [change] one cent off the value
    below (and so need not return [change] as [predicted] minus
    [current]).  What is proved of these fields is their sign and their
    range, which the rounding of doubles keeps. *)
Definition generateAdvancedPriceTarget (ticker : string) (impactScore : Q)
    (predictionModel : PredictionModel) : M PriceTarget :=
  let basePrice := or_number (assoc ticker basePrices) 100 in
  modelFactors <- lift (getModelFactors predictionModel) ;;
  let changePercent := (impactScore - 0.5) * 25 in
  let company := assoc ticker COMPANY_DATABASE in
  let changePercent :=
    match company with
    | Some company =>
        let volatilityMultiplier :=
          if (1000000000000 <? marketCap company)%Z then 0.7 else 1.3 in
        changePercent * volatilityMultiplier
    | None => changePercent
    end in
  let changePercent := changePercent * newsRelevance modelFactors in
  confidence <- calculateConfidence predictionModel ;;
  let confidenceMultiplier := 0.5 + (confidence * 0.5) in
  let changePercent := changePercent * confidenceMultiplier in
  let sectorVolatility :=
    getSectorVolatility
      match company with
      | Some company =>
          if String.eqb (c_sector company) "" then "Technology" else c_sector company
      | None => "Technology"
      end in
  let changePercent := changePercent * sectorVolatility in
  let predictedPrice := basePrice * (1 + changePercent / 100) in
  ret {| current := basePrice;
         predicted := inject_Z (Math_round (predictedPrice * 100)) / 100;
         change := inject_Z (Math_round ((predictedPrice - basePrice) * 100)) / 100;
         changePercent := inject_Z (Math_round (changePercent * 100)) / 100 |}.

(** The loop of [generateStockImpacts]; [impacts] is the array built so
    far. *)
Fixpoint generateStockImpacts_loop (stocks : list string) (text : string)
    (sentiment : Sentiment) (impacts : list StockImpact) : M (list StockImpact) :=
  match stocks with
  | [] => ret impacts
  | ticker :: stocks' =>
      match assoc ticker COMPANY_DATABASE with
      | None => generateStockImpacts_loop stocks' text sentiment impacts
      | Some company =>
          let predictionModel :=
            buildAdvancedPredictionModel ticker company text sentiment in
          impactScore <- lift (calculateImpactScore predictionModel) ;;
          confidence <- calculateConfidence predictionModel ;;
          let impactLevel := getImpactLevel impactScore in
          reasoning <-
            lift (generateAdvancedStockReasoning ticker company text sentiment
                    predictionModel) ;;
          priceTarget <- generateAdvancedPriceTarget ticker impactScore predictionModel ;;
          let timeframe := determineDynamicTimeframe text impactScore confidence in
          generateStockImpacts_loop stocks' text sentiment
            (impacts ++ [ {| ticker := ticker;
                             companyName := c_name company;
                             impactScore := impactScore;
                             impactLevel := impactLevel;
                             confidence := confidence;
                             timeframe := timeframe;
                             reasoning := reasoning;
                             priceTarget := Some priceTarget |} ])
      end
  end.

Definition generateStockImpacts (stocks : list string) (text : string)
    (sentiment : Sentiment) : M (list StockImpact) :=
  impacts <- generateStockImpacts_loop stocks text sentiment [] ;;
  ret (sort (fun a b => Math_abs (impactScore b - 0.5) - Math_abs (impactScore a - 0.5))
         impacts).

Definition analyzeArticleImpact (headline fullText : string) : M AIAnalysisResult :=
  let combinedText := toLowerCase (headline ++ " " ++ fullText)%string in
  let relevantStocks := identifyConnectedStocks combinedText in
  let affectedSectors := identifyAffectedSectors combinedText in
  let sentimentAnalysis := analyzeSentiment combinedText in
  stockImpacts <- generateStockImpacts relevantStocks combinedText sentimentAnalysis ;;
  let sectorImpacts := generateSectorImpacts affectedSectors combinedText sentimentAnalysis in
  let (insights, sectorImpacts) :=
    generateKeyInsights headline combinedText stockImpacts sectorImpacts in
  let risks := identifyRiskFactors combinedText sentimentAnalysis in
  let opportunities := identifyOpportunities combinedText sentimentAnalysis in
  let timeline := generateTimeline headline combinedText sentimentAnalysis in
  ret {| stockImpacts := stockImpacts;
         sectorImpacts := sectorImpacts;
         overallMarketSentiment :=
           {| score := score sentimentAnalysis;
              label := label sentimentAnalysis;
              s_confidence := s_confidence sentimentAnalysis |};
         keyInsights := insights;
         riskFactors := risks;
         opportunities := opportunities;
         timeline := timeline |}.

(** A call of the entry point: the result, or [None] when it throws. *)
Definition run_analyzeArticleImpact (headline fullText : string)
    : option AIAnalysisResult :=
  option_map fst (analyzeArticleImpact headline fullText O).

End Engine.

(* ================================================================== *)
(** ** Vocabulary of the specification *)


(** [clamp(x, lo, hi)] *)
Definition clamp (x lo hi : Q) : Q := Qmax lo (Qmin hi x).

(** *** What a text says about a company *)

(** Number of keywords of the sector table that occur in the text. *)
Definition sectorMatches (text sector : string) : nat :=
  count_included text (or_empty (assoc sector SECTOR_KEYWORDS)).

(** Number of keywords of the industry table that occur in the text. *)
Definition industryKeywordMatches (text sector : string) : nat :=
  count_included_ci text (getIndustryKeywords sector).

(** Number of competitor names that occur in the text. *)
Definition competitorMatches (text ticker : string) : nat :=
  count_included_ci text (getCompetitors ticker).

(** The ticker occurs in the text as a token of its own: between two
    word boundaries. *)
Definition occurs_as_token (text ticker : string) : bool :=
  match RegExp ("\b" ++ toLowerCase ticker ++ "\b") with
  | Some re => (0 <? match_count re (toLowerCase text))%nat
  | None => false
  end.

(** The ticker is mentioned directly: as a bare token or behind a [$]. *)
Definition mentioned_directly (text ticker : string) : bool :=
  occurs_as_token text ticker || includes text ("$" ++ toLowerCase ticker).

(** *** The impact score as the specification derives it *)

Definition spec_newsRelevance (tickerToken : bool) (industryMatches : nat)
    (competitor : bool) : Q :=
  Qmin 2
    (1 + (if tickerToken then 0.3 else 0)
       + Qmin 0.4 (num industryMatches * 0.08)
       + (if competitor then 0.15 else 0)).

Definition spec_volatilityFactor (marketCapUSD : Z) : Q :=
  if (marketCapUSD >? 1000000000000)%Z then 0.85 else 1.15.

(** The six steps, with no clamping between the first and the last. *)
Definition unclamped_impactScore (sentimentScore : Q) (mentions sectorHits : nat)
    (marketCapUSD : Z) (relevance : Q) : Q :=
  let s := sentimentScore + Qmin 0.3 (num mentions * 0.08) in
  let s := s * 0.6 + Qmin 1 (num sectorHits * 0.2) * 0.4 in
  let s := 0.5 + (s - 0.5) * spec_volatilityFactor marketCapUSD in
  let s := 0.5 + (s - 0.5) * relevance in
  clamp s 0 1.

(** The six steps, the second one capped at 1. *)
Definition capped_impactScore (sentimentScore : Q) (mentions sectorHits : nat)
    (marketCapUSD : Z) (relevance : Q) : Q :=
  let s := Qmin 1 (sentimentScore + Qmin 0.3 (num mentions * 0.08)) in
  let s := s * 0.6 + Qmin 1 (num sectorHits * 0.2) * 0.4 in
  let s := 0.5 + (s - 0.5) * spec_volatilityFactor marketCapUSD in
  let s := 0.5 + (s - 0.5) * relevance in
  clamp s 0 1.

(** *** Sentiment as the specification derives it *)

Definition lexicon_matches (text : string) (tiers : list (string * list string))
    (intensity : string) : Z :=
  Z.of_nat (count_included text (or_empty (assoc intensity tiers))).

Definition weightedSum (text : string) : Z :=
  let pos := lexicon_matches text (positive SENTIMENT_KEYWORDS) in
  let neg := lexicon_matches text (negative SENTIMENT_KEYWORDS) in
  (3 * pos "strong" + 2 * pos "moderate" + 1 * pos "mild"
   - (3 * neg "strong" + 2 * neg "moderate" + 1 * neg "mild"))%Z.

Definition totalMatches (text : string) : Z :=
  let pos := lexicon_matches text (positive SENTIMENT_KEYWORDS) in
  let neg := lexicon_matches text (negative SENTIMENT_KEYWORDS) in
  (pos "strong" + pos "moderate" + pos "mild"
   + (neg "strong" + neg "moderate" + neg "mild"))%Z.

Definition lexicon : list string :=
  concat (map snd (positive SENTIMENT_KEYWORDS ++ negative SENTIMENT_KEYWORDS)).

Definition no_lexicon_keyword (text : string) : bool :=
  forallb (fun keyword => negb (includes text keyword)) lexicon.

(** The signed value before it is rescaled to [[0,1]]. *)
Definition raw_sentiment (text : string) : Q :=
  if no_lexicon_keyword text then 0
  else clamp (inject_Z (weightedSum text) / inject_Z (totalMatches text * 2)) (-1) 1.

Definition label_of_raw (raw : Q) (l : string) : Prop :=
  (0.3 < raw /\ l = "Very Positive")
  \/ (raw <= 0.3 /\ 0.1 < raw /\ l = "Positive")
  \/ (raw <= 0.1 /\ -0.1 < raw /\ l = "Neutral")
  \/ (raw <= -0.1 /\ -0.3 < raw /\ l = "Negative")
  \/ (raw <= -0.3 /\ l = "Very Negative").

(** *** Candidates of the stock identification step *)

Definition scored_companies (text : string) : list (string * Q) :=
  map (fun entry : string * Company =>
         (fst entry, relevanceScore text (fst entry) (snd entry)))
    COMPANY_DATABASE.

(** The companies whose relevance score reaches 2, in registry order. *)
Definition candidates (text : string) : list (string * Q) :=
  filter (fun entry => Qle_bool 2 (snd entry)) (scored_companies text).

Definition by_score_desc (a b : string * Q) : Prop := snd b <= snd a.

Definition has_broad_market_keyword (text : string) : bool :=
  existsb (fun keyword => includes text keyword) broadMarketKeywords.

(** *** Ordering of the stock impacts *)

Definition extremity (s : StockImpact) : Q := Qabs (impactScore s - 0.5).

Definition most_extreme_first (a b : StockImpact) : Prop := extremity b <= extremity a.

(** *** Timeframe rules, in their order of priority *)

Definition mentions_any (text : string) (keywords : list string) : bool :=
  existsb (fun keyword => includes (toLowerCase text) keyword) keywords.

Definition structuralKeywords : list string := ["regulation"; "policy"; "transformation"].

Definition high_impact_and_confidence (impactScore confidence : Q) : Prop :=
  0.25 < Qabs (impactScore - 0.5) /\ 0.8 < confidence.

Inductive timeframe_rule (text : string) (impactScore confidence : Q) : Timeframe -> Prop :=
| rule_immediate :
    mentions_any text immediateKeywords = true ->
    timeframe_rule text impactScore confidence Immediate
| rule_short :
    mentions_any text immediateKeywords = false ->
    mentions_any text shortTermKeywords = true
      \/ high_impact_and_confidence impactScore confidence ->
    timeframe_rule text impactScore confidence ShortTerm
| rule_long :
    mentions_any text immediateKeywords = false ->
    mentions_any text shortTermKeywords = false ->
    ~ high_impact_and_confidence impactScore confidence ->
    mentions_any text longTermKeywords = true
      \/ mentions_any text structuralKeywords = true ->
    timeframe_rule text impactScore confidence LongTerm
| rule_default :
    mentions_any text immediateKeywords = false ->
    mentions_any text shortTermKeywords = false ->
    ~ high_impact_and_confidence impactScore confidence ->
    mentions_any text longTermKeywords = false ->
    mentions_any text structuralKeywords = false ->
    timeframe_rule text impactScore confidence
      (if Qlt_le_dec 0.7 confidence then ShortTerm else MediumTerm).

(** *** Invariants of the result *)

Definition unit_interval (x : Q) : Prop := 0 <= x <= 1.
Definition confidence_range (x : Q) : Prop := 0.3 <= x <= 0.95.

Definition stock_ok (s : StockImpact) : Prop :=
  In (ticker s) (keys COMPANY_DATABASE)
  /\ unit_interval (impactScore s)
  /\ confidence_range (confidence s).

Definition sector_ok (m : MarketSector) : Prop :=
  In (ms_name m) (keys SECTOR_KEYWORDS) /\ unit_interval (ms_impactScore m).

Definition sentiment_ok (s : Sentiment) : Prop :=
  unit_interval (score s) /\ confidence_range (s_confidence s).

(** The base price of the price-target table, 100 for a ticker it lacks. *)
Definition base_price (ticker : string) : Q :=
  match assoc ticker basePrices with
  | Some p => p
  | None => 100
  end.

Definition has_base_price (s : StockImpact) : Prop :=
  exists pt, priceTarget s = Some pt /\ current pt = base_price (ticker s).

(** The patterns the engine compiles for a company are in the fragment
    [RegExp] accepts. *)
Definition is_some {A : Type} (o : option A) : bool :=
  match o with
  | Some _ => true
  | None => false
  end.

Definition patterns_ok (entry : string * Company) : bool :=
  let t := toLowerCase (fst entry) in
  is_some (RegExp t)
  && is_some (RegExp ("\$" ++ t))
  && is_some (RegExp ("\b" ++ t ++ "\b"))
  && forallb (fun word => is_some (RegExp word)) (nameWords (c_name (snd entry))).

(** *** Orders, and parts of the engine that the proofs name *)

(** Largest key first, and the comparator [sort] gets for it. *)
Definition key_desc {A : Type} (key : A -> Q) (a b : A) : Prop := key b <= key a.
Definition cmp_desc {A : Type} (key : A -> Q) (a b : A) : Q := key b - key a.

(** The array [sortedStocks] of [identifyConnectedStocks]. *)
Definition sortedStocks (text : string) : list (string * Q) :=
  filter (fun stock => ge (snd stock) 2)
    (sort (fun a b : string * Q => snd b - snd a) (stockRelevanceScores text)).

(** What [analyzeArticleImpact] returns once the stock impacts are
    known. *)
Definition assemble (headline combinedText : string) (stockImpacts : list StockImpact)
    : AIAnalysisResult :=
  let sentimentAnalysis := analyzeSentiment combinedText in
  let sectorImpacts :=
    generateSectorImpacts (identifyAffectedSectors combinedText) combinedText
      sentimentAnalysis in
  let insights := generateKeyInsights headline combinedText stockImpacts sectorImpacts in
  {| stockImpacts := stockImpacts;
     sectorImpacts := snd insights;
     overallMarketSentiment :=
       {| score := score sentimentAnalysis;
          label := label sentimentAnalysis;
          s_confidence := s_confidence sentimentAnalysis |};
     keyInsights := fst insights;
     riskFactors := identifyRiskFactors combinedText sentimentAnalysis;
     opportunities := identifyOpportunities combinedText sentimentAnalysis;
     timeline := generateTimeline headline combinedText sentimentAnalysis |}.

Definition stock_inv (s : StockImpact) : Prop := stock_ok s /\ has_base_price s.

(** Two entries of the registry. *)
Definition Apple : Company := mkCompany "Apple Inc." "Technology" 3000000000000.
Definition Mastercard : Company :=
  mkCompany "Mastercard Inc." "Financial Services" 380000000000.

(* ================================================================== *)
(** ** [class WebScraper]: the functions that use neither the network nor
       the page parser *)

Module Scraper.

(** [\s], on 8-bit characters: tab, line feed, vertical tab, form feed,
    carriage return and space. *)
Definition is_space (c : ascii) : bool :=
  let n := nat_of_ascii c in (((9 <=? n) && (n <=? 13)) || (n =? 32))%nat.

(** [[a-zA-Z0-9]] *)
Definition is_alnum (c : ascii) : bool :=
  let n := nat_of_ascii c in
  (((48 <=? n) && (n <=? 57)) || ((65 <=? n) && (n <=? 90))
   || ((97 <=? n) && (n <=? 122)))%nat.

(** [s.replace(re, '')] for a global pattern [re] that is one negated
    character class: the characters of the class are kept. *)
Fixpoint keep_chars (keep : ascii -> bool) (s : string) : string :=
  match s with
  | EmptyString => EmptyString
  | String c t => if keep c then String c (keep_chars keep t) else keep_chars keep t
  end.

(** [s.split(re)] for a pattern [re] that is one character class repeated
    ([\s+], [[.!?]+]): the string is cut at every maximal run of
    separators.  [skipping] says that the last character read was one. *)
Fixpoint split_runs_from (sep : ascii -> bool) (skipping : bool) (s : string)
    : list string :=
  match s with
  | EmptyString => [EmptyString]
  | String c t =>
      if sep c then
        if skipping then split_runs_from sep true t
        else EmptyString :: split_runs_from sep true t
      else
        match split_runs_from sep false t with
        | w :: ws => String c w :: ws
        | [] => [String c EmptyString]
        end
  end.

Definition split_runs (sep : ascii -> bool) (s : string) : list string :=
  split_runs_from sep false s.

(** [s.trim()] *)
Fixpoint trimStart (s : string) : string :=
  match s with
  | EmptyString => EmptyString
  | String c t => if is_space c then trimStart t else s
  end.

Fixpoint trimEnd (s : string) : string :=
  match s with
  | EmptyString => EmptyString
  | String c t =>
      match trimEnd t with
      | EmptyString => if is_space c then EmptyString else String c EmptyString
      | t' => String c t'
      end
  end.

Definition trim (s : string) : string := trimEnd (trimStart s).

(** [set.has(x)] and [new Set(xs)]: a set keeps its elements in the order
    of their first insertion. *)
Definition has (set : list string) (x : string) : bool := existsb (String.eqb x) set.

Fixpoint Set_from (seen xs : list string) : list string :=
  match xs with
  | [] => []
  | x :: xs' => if has seen x then Set_from seen xs' else x :: Set_from (x :: seen) xs'
  end.

Definition new_Set (xs : list string) : list string := Set_from [] xs.

(** The set inside [extractKeywords]. *)
Definition stopWords : list string :=
  new_Set
    ["the"; "a"; "an"; "and"; "or"; "but"; "in"; "on"; "at"; "to"; "for"; "of"; "with";
     "by"; "is"; "are"; "was"; "were"; "be"; "been"; "being"; "have"; "has"; "had";
     "do"; "does"; "did"; "will"; "would"; "could"; "should"; "may"; "might"; "must";
     "can"; "this"; "that"; "these"; "those"].

Definition extractKeywords (headline : string) : list string :=
  slice0 10
    (filter (fun word => (2 <? String.length word)%nat && negb (has stopWords word))
       (split_runs is_space
          (keep_chars (fun c => is_alnum c || is_space c) (toLowerCase headline)))).

(** The two nested loops of [calculateRelevance] that count the pairs of
    keywords of which one contains the other. *)
Definition partialMatches (keywords1 keywords2 : list string) : nat :=
  fold_left
    (fun count word1 =>
       fold_left
         (fun count word2 =>
            if includes word1 word2 || includes word2 word1 then S count else count)
         keywords2 count)
    keywords1 O.

Definition stockSymbols : list string :=
  ["AAPL"; "GOOGL"; "MSFT"; "TSLA"; "AMZN"; "META"; "NVDA"; "NFLX"].

Definition financialTerms : list string :=
  ["earnings"; "revenue"; "profit"; "stock"; "market"; "trading"; "investment"].

Definition calculateRelevance (headline1 headline2 : string) : Q :=
  let keywords1 := new_Set (extractKeywords headline1) in
  let keywords2 := new_Set (extractKeywords headline2) in
  let intersection := new_Set (filter (fun x => has keywords2 x) keywords1) in
  let union := new_Set (keywords1 ++ keywords2) in
  let jaccardScore :=
    if (0 <? length union)%nat then num (length intersection) / num (length union)
    else 0 in
  let text1 := toLowerCase headline1 in
  let text2 := toLowerCase headline2 in
  let partialMatches := partialMatches keywords1 keywords2 in
  let partialScore := if (0 <? partialMatches)%nat then 0.2 else 0 in
  let symbolBoost :=
    if existsb (fun symbol => includes text1 (toLowerCase symbol)
                              && includes text2 (toLowerCase symbol)) stockSymbols
    then 0.3 else 0 in
  let financialMatches :=
    length (filter (fun term => includes text1 term && includes text2 term)
              financialTerms) in
  let financialBoost :=
    if (0 <? financialMatches)%nat then num financialMatches * 0.1 else 0 in
  let totalScore := jaccardScore + partialScore + symbolBoost + financialBoost in
  Math_min totalScore 1.0.

(** [generateSummary(fullText, maxSentences)]; the empty string is the
    one falsy text. *)
Definition is_sentence_end (c : ascii) : bool :=
  existsb (Ascii.eqb c) (list_ascii_of_string ".!?").

Definition generateSummary (fullText : string) (maxSentences : nat) : string :=
  if String.eqb fullText "" then ""
  else
    let sentences :=
      filter (fun s => (20 <? String.length (trim s))%nat)
        (split_runs is_sentence_end fullText) in
    (trim (join ". " (slice0 maxSentences sentences))
     ++ (if (maxSentences <? length sentences)%nat then "." else ""))%string.

(** [findRelatedArticles].  The clock and the rendering of a date are
    not part of the program: [Date_now k] is what the [k]-th call of
    [Date.now()] returns and [toISOString] stands for
    [new Date(ms).toISOString()].  [limit] is a count. *)
Record RelatedArticle : Type := {
  ra_headline : string;
  ra_url : string;
  ra_source : string;
  ra_publishedDate : string;
  ra_relevanceScore : Q;
  ra_summary : string
}.

Section Related.
Variable Date_now : nat -> Z.
Variable toISOString : Z -> string.

Definition mockRelatedArticles : list RelatedArticle :=
  [ {| ra_headline := "Tech Stocks Rally as AI Investment Surge Continues";
       ra_url := "https://example.com/tech-rally-ai-investment";
       ra_source := "Reuters";
       ra_publishedDate := toISOString (Date_now 0 - 2 * 60 * 60 * 1000)%Z;
       ra_relevanceScore := 0.85;
       ra_summary := "Major technology companies see significant gains as artificial intelligence investments drive market optimism." |};
    {| ra_headline := "Market Analysis: Sector Rotation Impacts Growth Stocks";
       ra_url := "https://example.com/sector-rotation-analysis";
       ra_source := "Bloomberg";
       ra_publishedDate := toISOString (Date_now 1 - 4 * 60 * 60 * 1000)%Z;
       ra_relevanceScore := 0.72;
       ra_summary := "Investors shift focus from growth to value stocks amid changing economic conditions." |};
    {| ra_headline := "Federal Reserve Policy Impact on Financial Markets";
       ra_url := "https://example.com/fed-policy-markets";
       ra_source := "Wall Street Journal";
       ra_publishedDate := toISOString (Date_now 2 - 6 * 60 * 60 * 1000)%Z;
       ra_relevanceScore := 0.68;
       ra_summary := "Latest Federal Reserve decisions continue to influence trading patterns across major indices." |};
    {| ra_headline := "Earnings Season Preview: Key Companies to Watch";
       ra_url := "https://example.com/earnings-preview";
       ra_source := "CNBC";
       ra_publishedDate := toISOString (Date_now 3 - 8 * 60 * 60 * 1000)%Z;
       ra_relevanceScore := 0.64;
       ra_summary := "Upcoming earnings reports from major corporations expected to drive market volatility." |};
    {| ra_headline := "Global Economic Indicators Signal Market Uncertainty";
       ra_url := "https://example.com/global-economic-indicators";
       ra_source := "Financial Times";
       ra_publishedDate := toISOString (Date_now 4 - 12 * 60 * 60 * 1000)%Z;
       ra_relevanceScore := 0.59;
       ra_summary := "International economic data points to potential challenges for equity markets." |} ].

Definition findRelatedArticles (headline : string) (limit : nat) : list RelatedArticle :=
  slice0 limit
    (sort (fun a b => ra_relevanceScore b - ra_relevanceScore a)
       (filter (fun article => gt (calculateRelevance headline (ra_headline article)) 0.5)
          mockRelatedArticles)).
End Related.

End Scraper.

(* ================================================================== *)
(** ** Further vocabulary *)

(** Keywords of one polarity that occur in a text. *)
Definition polarity_matches (text : string) (tiers : list (string * list string)) : Z :=
  (lexicon_matches text tiers "strong" + lexicon_matches text tiers "moderate"
   + lexicon_matches text tiers "mild")%Z.

(** The label that goes with a sentiment score on the scale [[0,1]]. *)
Definition label_of_score (s : Q) (l : string) : Prop :=
  (0.65 < s /\ l = "Very Positive")
  \/ (s <= 0.65 /\ 0.55 < s /\ l = "Positive")
  \/ (s <= 0.55 /\ 0.45 < s /\ l = "Neutral")
  \/ (s <= 0.45 /\ 0.35 < s /\ l = "Negative")
  \/ (s <= 0.35 /\ l = "Very Negative").

(** The fields of a stock impact agree with one another and with the
    registry. *)
Definition impact_coherent (text : string) (s : StockImpact) : Prop :=
  (exists company,
     assoc (ticker s) COMPANY_DATABASE = Some company
     /\ companyName s = c_name company)
  /\ impactLevel s = getImpactLevel (impactScore s)
  /\ timeframe s = determineDynamicTimeframe text (impactScore s) (confidence s)
  /\ (2 <= length (reasoning s) <= 5)%nat.

(** The sectors of the keyword table of which a keyword occurs in the
    text, in table order. *)
Definition matching_sectors (text : string) : list string :=
  map fst
    (filter (fun entry : string * list string =>
               existsb (fun keyword => includes text keyword) (snd entry))
       SECTOR_KEYWORDS).

Definition sector_extremity (m : MarketSector) : Q := Qabs (ms_impactScore m - 0.5).

(** The stocks listed for a sector are companies of that sector. *)
Definition sector_stocks_ok (m : MarketSector) : Prop :=
  (length (affectedStocks m) <= 4)%nat
  /\ Forall (fun ticker =>
               exists company,
                 assoc ticker COMPANY_DATABASE = Some company
                 /\ c_sector company = ms_name m)
       (affectedStocks m).

(** The last statement that [identifyRiskFactors] and
    [identifyOpportunities] push. *)
Definition generic_risk : string :=
  "Market conditions can change rapidly, affecting prediction accuracy".
Definition generic_opportunity : string :=
  "Market volatility creates potential entry points for long-term investors".

(** The tests before the four specific risk factors and opportunities. *)
Definition risk_tests (text : string) (sentiment : Sentiment) : list bool :=
  [ includes text "regulation" || includes text "policy";
    includes text "inflation" || includes text "interest rate";
    lt (s_confidence sentiment) 0.7;
    includes text "geopolitical" || includes text "trade" ].

Definition opportunity_tests (text : string) (sentiment : Sentiment) : list bool :=
  [ gt (score sentiment) 0.6;
    includes text "innovation" || includes text "technology";
    includes text "earnings" || includes text "revenue";
    includes text "merger" || includes text "acquisition" ].

Definition count_true (tests : list bool) : nat := length (filter (fun b => b) tests).

(** The price target of a stock impact follows its impact score in
    direction, and stays in range. *)
Definition price_target_consistent (s : StockImpact) : Prop :=
  exists pt,
    priceTarget s = Some pt
    /\ (0.5 <= impactScore s ->
        0 <= changePercent pt /\ 0 <= change pt /\ current pt <= predicted pt)
    /\ (impactScore s <= 0.5 ->
        changePercent pt <= 0 /\ change pt <= 0 /\ predicted pt <= current pt)
    /\ Qabs (changePercent pt) <= 44
    /\ 0 < predicted pt.

(** A pattern source without special characters. *)
Definition plain (src : string) : bool :=
  forallb (fun c => negb (is_meta c)) (list_ascii_of_string src).

(** Every character of a string passes a test. *)
Fixpoint all_chars (p : ascii -> bool) (s : string) : bool :=
  match s with
  | EmptyString => true
  | String c t => p c && all_chars p t
  end.

(** [[a-z0-9]] *)
Definition is_lower_alnum (c : ascii) : bool :=
  let n := nat_of_ascii c in
  (((48 <=? n) && (n <=? 57)) || ((97 <=? n) && (n <=? 122)))%nat.

(** What [extractKeywords] lets through: more than two characters, all
    lower-case letters or digits, and no stop word. *)
Definition keyword_like (word : string) : Prop :=
  (2 < String.length word)%nat
  /\ all_chars is_lower_alnum word = true
  /\ Scraper.has Scraper.stopWords word = false.

(** Number of occurrences of a character. *)
Fixpoint count_char (c : ascii) (s : string) : nat :=
  match s with
  | EmptyString => O
  | String d t => if Ascii.eqb c d then S (count_char c t) else count_char c t
  end.

(* ================================================================== *)
(** * Properties *)

(** ** Numbers *)

Lemma Qle_bool_false (a b : Q) : Qle_bool a b = false -> b < a.
Proof.
  intros H. apply Qnot_le_lt. intros Hle.
  apply Qle_bool_iff in Hle. congruence.
Qed.

(** Case analysis on every comparison of the goal. *)
Ltac qcases :=
  repeat match goal with
    | |- context [Qle_bool ?a ?b] =>
        let H := fresh "Hc" in
        destruct (Qle_bool a b) eqn:H;
        [apply Qle_bool_iff in H | apply Qle_bool_false in H]
    end.

Lemma Math_min_Qmin (a b : Q) : Math_min a b == Qmin a b.
Proof.
  unfold Math_min. qcases.
  - now rewrite Q.min_l.
  - rewrite Q.min_r; [reflexivity | lra].
Qed.

Lemma Math_max_Qmax (a b : Q) : Math_max a b == Qmax a b.
Proof.
  unfold Math_max. qcases.
  - now rewrite Q.max_r.
  - rewrite Q.max_l; [reflexivity | lra].
Qed.

#[export] Instance Math_min_compat : Proper (Qeq ==> Qeq ==> Qeq) Math_min.
Proof. intros a a' Ha b b' Hb. rewrite !Math_min_Qmin, Ha, Hb. reflexivity. Qed.

#[export] Instance Math_max_compat : Proper (Qeq ==> Qeq ==> Qeq) Math_max.
Proof. intros a a' Ha b b' Hb. rewrite !Math_max_Qmax, Ha, Hb. reflexivity. Qed.

#[export] Instance clamp_compat : Proper (Qeq ==> Qeq ==> Qeq ==> Qeq) clamp.
Proof. intros x x' Hx lo lo' Hlo hi hi' Hhi. unfold clamp. now rewrite Hx, Hlo, Hhi. Qed.

Lemma Math_clamp (lo hi x : Q) : Math_max lo (Math_min hi x) == clamp x lo hi.
Proof. unfold clamp. now rewrite Math_max_Qmax, Math_min_Qmin. Qed.

(** Case analysis on every [Qmin] and [Qmax] of the goal. *)
Ltac qminmax :=
  repeat match goal with
    | |- context [Qmin ?a ?b] =>
        let H := fresh "Hm" in let E := fresh "Em" in
        destruct (Q.min_spec a b) as [[H E]|[H E]]; rewrite E
    | |- context [Qmax ?a ?b] =>
        let H := fresh "Hm" in let E := fresh "Em" in
        destruct (Q.max_spec a b) as [[H E]|[H E]]; rewrite E
    end.

Lemma Math_clamp' (lo hi x : Q) :
  lo <= hi -> Math_min hi (Math_max lo x) == clamp x lo hi.
Proof.
  intros H. rewrite Math_min_Qmin, Math_max_Qmax. unfold clamp.
  qminmax; lra.
Qed.

Lemma Math_clamp_bounds (lo hi x : Q) :
  lo <= hi -> lo <= Math_max lo (Math_min hi x) <= hi.
Proof. intros H. unfold Math_max, Math_min. qcases; lra. Qed.

Lemma Math_min_bounds (hi x : Q) : 0 <= hi -> 0 <= x -> 0 <= Math_min hi x <= hi.
Proof. intros H1 H2. unfold Math_min. qcases; lra. Qed.

Lemma num_nonneg (n : nat) : 0 <= num n.
Proof.
  unfold num. change 0 with (inject_Z 0). rewrite <- Zle_Qle. lia.
Qed.

Lemma gt_true (a b : Q) : gt a b = true <-> b < a.
Proof.
  unfold gt. split.
  - intros H. apply negb_true_iff in H. now apply Qle_bool_false.
  - intros H. apply negb_true_iff. destruct (Qle_bool a b) eqn:E; [|reflexivity].
    apply Qle_bool_iff in E. lra.
Qed.

Lemma gt_false (a b : Q) : gt a b = false <-> a <= b.
Proof.
  unfold gt. rewrite negb_false_iff. apply Qle_bool_iff.
Qed.

(** ** Sorting by a numeric key, largest first *)

Section SortFacts.
Context {A : Type} (key : A -> Q).

Lemma insert_perm (x : A) (l : list A) : Permutation (x :: l) (insert (cmp_desc key) x l).
Proof.
  induction l as [|y l IH]; simpl; [reflexivity|].
  destruct (Qle_bool (cmp_desc key x y) 0); [reflexivity|].
  rewrite perm_swap. now apply perm_skip.
Qed.

Lemma sort_perm (l : list A) : Permutation l (sort (cmp_desc key) l).
Proof.
  induction l as [|x l IH]; simpl; [reflexivity|].
  rewrite <- insert_perm. now apply perm_skip.
Qed.

Lemma insert_sorted (x : A) (l : list A) :
  StronglySorted (key_desc key) l -> StronglySorted (key_desc key) (insert (cmp_desc key) x l).
Proof.
  induction 1 as [|y l Hs IH Hy]; simpl.
  - repeat constructor.
  - destruct (Qle_bool (cmp_desc key x y) 0) eqn:E.
    + apply Qle_bool_iff in E. unfold cmp_desc in E.
      constructor; [now constructor|].
      constructor; [unfold key_desc; lra|].
      eapply Forall_impl; [|exact Hy]. unfold key_desc. intros z Hz. lra.
    + apply Qle_bool_false in E. unfold cmp_desc in E.
      constructor; [exact IH|].
      eapply Permutation_Forall; [apply insert_perm|].
      constructor; [unfold key_desc; lra | exact Hy].
Qed.

Lemma sort_sorted (l : list A) : StronglySorted (key_desc key) (sort (cmp_desc key) l).
Proof.
  induction l as [|x l IH]; simpl; [constructor | now apply insert_sorted].
Qed.

Lemma sorted_filter (f : A -> bool) (l : list A) :
  StronglySorted (key_desc key) l -> StronglySorted (key_desc key) (filter f l).
Proof.
  induction 1 as [|y l Hs IH Hy]; simpl; [constructor|].
  destruct (f y); [|exact IH].
  constructor; [exact IH|].
  apply Forall_forall. intros z Hz. apply filter_In in Hz.
  rewrite Forall_forall in Hy. now apply Hy.
Qed.

Lemma sorted_nth (l : list A) :
  StronglySorted (key_desc key) l ->
  forall i j a b, (i < j)%nat -> nth_error l i = Some a -> nth_error l j = Some b ->
    key b <= key a.
Proof.
  induction 1 as [|y l Hs IH Hy]; intros i j a b Hij Ha Hb.
  - destruct i; discriminate.
  - destruct j as [|j]; [lia|]. simpl in Hb.
    destruct i as [|i]; simpl in Ha.
    + injection Ha as <-. rewrite Forall_forall in Hy.
      apply Hy. eapply nth_error_In; eassumption.
    + apply (IH i j); [lia | assumption | assumption].
Qed.
End SortFacts.

Lemma perm_filter {A : Type} (f : A -> bool) (l l' : list A) :
  Permutation l l' -> Permutation (filter f l) (filter f l').
Proof.
  induction 1 as [| x l l' _ IH | x y l | l l' l'' _ IH1 _ IH2]; simpl.
  - constructor.
  - destruct (f x); [now constructor | assumption].
  - destruct (f x), (f y); try reflexivity. apply perm_swap.
  - now transitivity (filter f l').
Qed.

(** ** Sentiment *)

Lemma sentiment_step_eq (text : string) (sign s t : Z) (intensity : string)
    (keywords : list string) :
  sentiment_step text sign (s, t) (intensity, keywords) =
  let m := Z.of_nat (count_included text keywords) in
  let w := if String.eqb intensity "strong" then 3%Z
           else if String.eqb intensity "moderate" then 2%Z else 1%Z in
  ((s + sign * (m * w))%Z, (t + m)%Z).
Proof.
  unfold sentiment_step. cbv zeta.
  destruct (Z.ltb_spec 0 (Z.of_nat (count_included text keywords))) as [H|H].
  - reflexivity.
  - assert (E : Z.of_nat (count_included text keywords) = 0%Z) by lia.
    rewrite E. f_equal; lia.
Qed.

Lemma sentiment_loops (text : string) :
  fold_left (sentiment_step text (-1)) (negative SENTIMENT_KEYWORDS)
    (fold_left (sentiment_step text 1) (positive SENTIMENT_KEYWORDS) (0%Z, 0%Z))
  = (weightedSum text, totalMatches text).
Proof.
  unfold SENTIMENT_KEYWORDS, positive, negative, fold_left.
  rewrite !sentiment_step_eq. cbv zeta.
  unfold weightedSum, totalMatches, lexicon_matches, SENTIMENT_KEYWORDS, positive, negative.
  cbn [assoc String.eqb Ascii.eqb Bool.eqb or_empty].
  f_equal; lia.
Qed.

Lemma count_included_zero (text : string) (keywords : list string) :
  count_included text keywords = O <->
  forallb (fun keyword => negb (includes text keyword)) keywords = true.
Proof.
  unfold count_included. induction keywords as [|k ks IH]; simpl.
  - tauto.
  - destruct (includes text k); simpl; [split; discriminate | exact IH].
Qed.

Lemma totalMatches_nonneg (text : string) : (0 <= totalMatches text)%Z.
Proof. unfold totalMatches, lexicon_matches. lia. Qed.

Lemma forallb_concat {A : Type} (f : A -> bool) (ls : list (list A)) :
  forallb f (concat ls) = forallb (forallb f) ls.
Proof.
  induction ls as [|l ls IH]; simpl; [reflexivity|].
  now rewrite forallb_app, IH.
Qed.

Lemma no_lexicon_keyword_total (text : string) :
  no_lexicon_keyword text = true <-> totalMatches text = 0%Z.
Proof.
  unfold no_lexicon_keyword, lexicon. rewrite forallb_concat.
  set (absent := forallb (fun keyword => negb (includes text keyword))).
  unfold totalMatches, lexicon_matches, SENTIMENT_KEYWORDS, positive, negative.
  cbn [assoc String.eqb Ascii.eqb Bool.eqb or_empty map snd app forallb].
  subst absent. rewrite andb_true_r, !andb_true_iff, <- !count_included_zero. lia.
Qed.

Lemma analyzeSentiment_fields (text : string) :
  analyzeSentiment text =
  let n := normalizedScore_of (weightedSum text) (totalMatches text) in
  {| score := (n + 1) / 2;
     label := sentiment_label n;
     s_confidence := Math_min 0.95 (Math_max 0.3 (inject_Z (totalMatches text) * 0.1 + 0.5)) |}.
Proof. unfold analyzeSentiment. rewrite sentiment_loops. reflexivity. Qed.

Lemma normalizedScore_raw (text : string) :
  normalizedScore_of (weightedSum text) (totalMatches text) == raw_sentiment text.
Proof.
  unfold normalizedScore_of, raw_sentiment.
  destruct (no_lexicon_keyword text) eqn:E.
  - apply no_lexicon_keyword_total in E. rewrite E. reflexivity.
  - destruct (Z.ltb_spec 0 (totalMatches text)) as [H|H].
    + apply Math_clamp.
    + exfalso. pose proof (totalMatches_nonneg text).
      assert (E' : totalMatches text = 0%Z) by lia.
      apply no_lexicon_keyword_total in E'. congruence.
Qed.

Lemma sentiment_label_spec (n : Q) : label_of_raw n (sentiment_label n).
Proof.
  unfold label_of_raw, sentiment_label.
  destruct (gt n 0.3) eqn:E1; [apply gt_true in E1; tauto | apply gt_false in E1].
  destruct (gt n 0.1) eqn:E2; [apply gt_true in E2; tauto | apply gt_false in E2].
  destruct (gt n (-0.1)) eqn:E3; [apply gt_true in E3; tauto | apply gt_false in E3].
  destruct (gt n (-0.3)) eqn:E4; [apply gt_true in E4; tauto | apply gt_false in E4].
  tauto.
Qed.

Lemma label_of_raw_compat (a b : Q) (l : string) :
  a == b -> label_of_raw a l -> label_of_raw b l.
Proof. unfold label_of_raw. intros E. rewrite E. tauto. Qed.

(** C2.  For every text, [analyzeSentiment] returns the score 0.5 when no
    keyword of the lexicon occurs in it and otherwise
    [(clamp(weightedSum / (totalMatches * 2), -1, 1) + 1) / 2], where the
    weighted sum counts the strong, moderate and mild positive keywords
    3, 2 and 1 and subtracts the negative ones with the same weights; the
    confidence [clamp(totalMatches * 0.1 + 0.5, 0.3, 0.95)]; and the label
    that the thresholds 0.3, 0.1, -0.1 and -0.3 give on the signed value
    before it is rescaled. *)
Theorem C2_analyzeSentiment (text : string) :
  (if no_lexicon_keyword text
   then score (analyzeSentiment text) == 0.5
   else score (analyzeSentiment text)
        == (clamp (inject_Z (weightedSum text) / inject_Z (totalMatches text * 2)) (-1) 1
            + 1) / 2)
  /\ s_confidence (analyzeSentiment text)
     == clamp (inject_Z (totalMatches text) * 0.1 + 0.5) 0.3 0.95
  /\ label_of_raw (raw_sentiment text) (label (analyzeSentiment text))
  /\ score (analyzeSentiment text) == (raw_sentiment text + 1) / 2.
Proof.
  rewrite analyzeSentiment_fields. cbv zeta. simpl score. simpl label. simpl s_confidence.
  pose proof (normalizedScore_raw text) as Hn.
  assert (Hs : (normalizedScore_of (weightedSum text) (totalMatches text) + 1) / 2
               == (raw_sentiment text + 1) / 2) by now rewrite Hn.
  repeat split.
  - unfold raw_sentiment in Hs. destruct (no_lexicon_keyword text); rewrite Hs; reflexivity.
  - apply Math_clamp'. lra.
  - eapply label_of_raw_compat; [exact Hn | apply sentiment_label_spec].
  - exact Hs.
Qed.

(** ** Timeframe *)

Lemma includes_mentions_any (text keyword : string) (keywords : list string) :
  In keyword keywords -> includes (toLowerCase text) keyword = true ->
  mentions_any text keywords = true.
Proof.
  intros Hin Hinc. unfold mentions_any. apply existsb_exists. now exists keyword.
Qed.

Lemma high_impact_test (impactScore confidence : Q) :
  gt (Math_abs (impactScore - 0.5)) 0.25 && gt confidence 0.8 = true
  <-> high_impact_and_confidence impactScore confidence.
Proof.
  unfold high_impact_and_confidence, Math_abs.
  rewrite andb_true_iff, !gt_true. reflexivity.
Qed.

Lemma timeframe_rule_holds (text : string) (impactScore confidence : Q) :
  timeframe_rule text impactScore confidence
    (determineDynamicTimeframe text impactScore confidence).
Proof.
  unfold determineDynamicTimeframe.
  change (existsb (fun keyword => includes (toLowerCase text) keyword) immediateKeywords)
    with (mentions_any text immediateKeywords).
  change (existsb (fun keyword => includes (toLowerCase text) keyword) shortTermKeywords)
    with (mentions_any text shortTermKeywords).
  change (existsb (fun keyword => includes (toLowerCase text) keyword) longTermKeywords)
    with (mentions_any text longTermKeywords).
  replace (includes (toLowerCase text) "regulation" || includes (toLowerCase text) "policy"
           || includes (toLowerCase text) "transformation")%bool
    with (mentions_any text structuralKeywords)
    by (unfold mentions_any, structuralKeywords; simpl;
        rewrite orb_false_r, orb_assoc; reflexivity).
  cbv zeta.
  destruct (mentions_any text immediateKeywords) eqn:Ei; [now apply rule_immediate|].
  destruct (mentions_any text shortTermKeywords) eqn:Es;
    [apply rule_short; [assumption | now left]|].
  cbn [orb].
  destruct (gt (Math_abs (impactScore - 0.5)) 0.25 && gt confidence 0.8) eqn:Eh.
  - apply high_impact_test in Eh. apply rule_short; [assumption | now right].
  - assert (Hn : ~ high_impact_and_confidence impactScore confidence).
    { intros H. apply high_impact_test in H. congruence. }
    destruct (mentions_any text longTermKeywords) eqn:El;
      [apply rule_long; auto|].
    destruct (mentions_any text structuralKeywords) eqn:Et;
      [apply rule_long; auto|].
    cbn [orb].
    replace (if gt confidence 0.7 then ShortTerm else MediumTerm)
      with (if Qlt_le_dec 0.7 confidence then ShortTerm else MediumTerm).
    + now apply rule_default.
    + destruct (Qlt_le_dec 0.7 confidence) as [H|H].
      * apply gt_true in H. now rewrite H.
      * apply gt_false in H. now rewrite H.
Qed.

Lemma timeframe_rule_functional (text : string) (impactScore confidence : Q)
    (t1 t2 : Timeframe) :
  timeframe_rule text impactScore confidence t1 ->
  timeframe_rule text impactScore confidence t2 -> t1 = t2.
Proof.
  intros H1 H2.
  destruct H1; destruct H2; try reflexivity; try congruence; try tauto;
    repeat match goal with H : _ \/ _ |- _ => destruct H end;
    try congruence; tauto.
Qed.

(** C8.  The timeframe rules apply in priority order and the first that
    matches wins: the classification is the one the ordered rules give,
    no other; a text with an immediate keyword is Immediate whatever else
    it holds, so a text with both "breaking" and "long-term" is. *)
Theorem C8_timeframe_priority (text : string) (impactScore confidence : Q) :
  (forall t, timeframe_rule text impactScore confidence t
             <-> determineDynamicTimeframe text impactScore confidence = t)
  /\ (mentions_any text immediateKeywords = true ->
      determineDynamicTimeframe text impactScore confidence = Immediate)
  /\ (includes (toLowerCase text) "breaking" = true ->
      includes (toLowerCase text) "long-term" = true ->
      determineDynamicTimeframe text impactScore confidence = Immediate).
Proof.
  pose proof (timeframe_rule_holds text impactScore confidence) as Hrule.
  assert (Himm : mentions_any text immediateKeywords = true ->
                 determineDynamicTimeframe text impactScore confidence = Immediate).
  { intros H. eapply timeframe_rule_functional; [exact Hrule | now apply rule_immediate]. }
  split; [|split].
  - intros t. split.
    + intros H. eapply timeframe_rule_functional; eassumption.
    + intros <-. exact Hrule.
  - exact Himm.
  - intros Hb _. apply Himm.
    apply includes_mentions_any with (keyword := "breaking"); [|exact Hb].
    unfold immediateKeywords. simpl. tauto.
Qed.

Lemma C8_timeframe_priority_witness :
  includes (toLowerCase "Breaking: long-term roadmap announced") "breaking" = true
  /\ includes (toLowerCase "Breaking: long-term roadmap announced") "long-term" = true
  /\ determineDynamicTimeframe "Breaking: long-term roadmap announced" 0.5 0.5 = Immediate.
Proof.
  split; [reflexivity|]. split; [reflexivity|].
  apply (C8_timeframe_priority "Breaking: long-term roadmap announced" 0.5 0.5);
    reflexivity.
Defined.

(** ** Stock identification *)

Lemma filter_filter_weaker {A : Type} (f g : A -> bool) (l : list A) :
  (forall x, f x = true -> g x = true) -> filter f (filter g l) = filter f l.
Proof.
  intros H. induction l as [|x l IH]; simpl; [reflexivity|].
  destruct (g x) eqn:Eg; simpl.
  - now rewrite IH.
  - destruct (f x) eqn:Ef; [|exact IH].
    apply H in Ef. congruence.
Qed.

Lemma stockRelevanceScores_filter (text : string) :
  stockRelevanceScores text
  = filter (fun entry => gt (snd entry) 0) (scored_companies text).
Proof.
  unfold stockRelevanceScores, scored_companies.
  induction COMPANY_DATABASE as [|[ticker company] db IH]; simpl; [reflexivity|].
  rewrite IH. now destruct (gt (relevanceScore text ticker company) 0).
Qed.

Lemma sortedStocks_perm (text : string) :
  Permutation (sortedStocks text) (candidates text).
Proof.
  unfold sortedStocks, candidates.
  transitivity (filter (fun stock => ge (snd stock) 2) (stockRelevanceScores text)).
  { apply perm_filter, Permutation_sym.
    apply (sort_perm (A := string * Q) snd). }
  rewrite stockRelevanceScores_filter.
  rewrite filter_filter_weaker; [reflexivity|].
  intros [t s]. unfold ge. simpl. intros H. apply Qle_bool_iff in H.
  apply gt_true. lra.
Qed.

Lemma sortedStocks_sorted (text : string) :
  StronglySorted by_score_desc (sortedStocks text).
Proof.
  unfold sortedStocks.
  apply (sorted_filter (A := string * Q) snd).
  apply (sort_sorted (A := string * Q) snd).
Qed.

Lemma identifyConnectedStocks_cases (text : string) :
  identifyConnectedStocks text =
  match sortedStocks text with
  | _ :: _ => map fst (firstn 6 (sortedStocks text))
  | [] => if has_broad_market_keyword text
          then ["AAPL"; "MSFT"; "GOOGL"; "AMZN"] else []
  end.
Proof.
  unfold identifyConnectedStocks. fold (sortedStocks text). cbv zeta.
  destruct (sortedStocks text); reflexivity.
Qed.

Lemma analyzeArticleImpact_assemble (random : nat -> Q) (headline fullText : string)
    (n : nat) :
  let text := toLowerCase (headline ++ " " ++ fullText) in
  analyzeArticleImpact random headline fullText n =
  match generateStockImpacts random (identifyConnectedStocks text) text
          (analyzeSentiment text) n with
  | Some (impacts, n') => Some (assemble headline text impacts, n')
  | None => None
  end.
Proof.
  intros text. unfold analyzeArticleImpact, bind. fold text.
  destruct (generateStockImpacts _ _ _ _ n) as [[impacts n']|]; [|reflexivity].
  unfold assemble. cbv zeta.
  destruct (generateKeyInsights _ _ _ _); reflexivity.
Qed.

Lemma generateStockImpacts_nil (random : nat -> Q) (text : string) (s : Sentiment)
    (n : nat) :
  generateStockImpacts random [] text s n = Some ([], n).
Proof. reflexivity. Qed.

(** C3.  The stock identification step returns the tickers of the
    companies whose relevance score reaches 2, ranked by descending score
    and cut to the first six; when no company reaches 2, the four tickers
    AAPL, MSFT, GOOGL, AMZN if a broad-market keyword occurs in the text
    and no ticker otherwise, and then the result has no stock impact. *)
Theorem C3_identifyConnectedStocks :
  (forall text : string,
     match candidates text with
     | _ :: _ =>
         exists ranked,
           Permutation ranked (candidates text)
           /\ StronglySorted by_score_desc ranked
           /\ identifyConnectedStocks text = map fst (firstn 6 ranked)
     | [] =>
         if has_broad_market_keyword text
         then identifyConnectedStocks text = ["AAPL"; "MSFT"; "GOOGL"; "AMZN"]
         else identifyConnectedStocks text = []
     end)
  /\ (forall (random : nat -> Q) (headline fullText : string),
        let text := toLowerCase (headline ++ " " ++ fullText) in
        candidates text = [] -> has_broad_market_keyword text = false ->
        exists result,
          run_analyzeArticleImpact random headline fullText = Some result
          /\ stockImpacts result = []).
Proof.
  split.
  - intros text. rewrite identifyConnectedStocks_cases.
    pose proof (sortedStocks_perm text) as Hp.
    pose proof (sortedStocks_sorted text) as Hs.
    destruct (candidates text) as [|c cs] eqn:Ec.
    + apply Permutation_sym, Permutation_nil in Hp. rewrite Hp.
      destruct (has_broad_market_keyword text); reflexivity.
    + destruct (sortedStocks text) as [|s ss] eqn:Es.
      * apply Permutation_nil in Hp. discriminate.
      * exists (s :: ss). auto.
  - intros random headline fullText text Hc Hb.
    unfold run_analyzeArticleImpact. rewrite analyzeArticleImpact_assemble. fold text.
    assert (E : identifyConnectedStocks text = []).
    { rewrite identifyConnectedStocks_cases.
      pose proof (sortedStocks_perm text) as Hp. rewrite Hc in Hp.
      apply Permutation_sym, Permutation_nil in Hp. now rewrite Hp, Hb. }
    rewrite E, generateStockImpacts_nil. simpl.
    eexists. split; reflexivity.
Qed.

Lemma C3_identifyConnectedStocks_witness :
  exists result,
    run_analyzeArticleImpact (fun _ => 1 # 2) "Local bakery wins community award" ""
      = Some result
    /\ stockImpacts result = [].
Proof.
  apply (proj2 C3_identifyConnectedStocks (fun _ => 1 # 2)
           "Local bakery wins community award" ""); reflexivity.
Defined.

(** ** The direct-mention bonus *)

Lemma prefix_includes (s needle : string) : prefix needle s = true -> includes s needle = true.
Proof. intros H. destruct s; simpl in *; rewrite H; reflexivity. Qed.

Lemma includes_tail (s needle : string) (c : ascii) :
  includes s (String c needle) = true -> includes s needle = true.
Proof.
  induction s as [|d s IH]; simpl.
  - discriminate.
  - intros H. apply orb_true_iff in H. apply orb_true_iff. right.
    destruct H as [H|H]; [|now apply IH].
    destruct (ascii_dec c d) as [_|_]; [|discriminate].
    now apply prefix_includes.
Qed.

(** The test of [identifyConnectedStocks] is a substring test. *)
Lemma direct_mention_test (text ticker : string) :
  includes text (toLowerCase ticker) || includes text ("$" ++ toLowerCase ticker)
  = includes text (toLowerCase ticker).
Proof.
  destruct (includes text (toLowerCase ticker)) eqn:E; [reflexivity|].
  destruct (includes text ("$" ++ toLowerCase ticker)) eqn:E'; [|reflexivity].
  apply includes_tail in E'. congruence.
Qed.

Lemma relevanceScore_sum (text ticker : string) (company : Company) :
  relevanceScore text ticker company ==
  (if includes text (toLowerCase ticker) then 10 else 0)
  + num (count_included text (nameWords (c_name company))) * 5
  + num (sectorMatches text (c_sector company)) * 2
  + num (industryKeywordMatches text (c_sector company)) * 1.5
  + num (competitorMatches text ticker) * 1.
Proof.
  unfold relevanceScore. cbv zeta. rewrite direct_mention_test.
  unfold sectorMatches, industryKeywordMatches, competitorMatches.
  destruct (includes text (toLowerCase ticker)); ring.
Qed.

(** C6.  The text "market" holds the ticker MA neither as a token nor
    behind a [$], only inside a word; Mastercard gets the bonus of 10 all
    the same, nothing else adds to its score, and it is the stock the
    identification step returns. *)
Theorem C6_bonus_for_substring :
  In ("MA", Mastercard) COMPANY_DATABASE
  /\ mentioned_directly "market" "MA" = false
  /\ count_included "market" (nameWords (c_name Mastercard)) = O
  /\ sectorMatches "market" (c_sector Mastercard) = O
  /\ industryKeywordMatches "market" (c_sector Mastercard) = O
  /\ competitorMatches "market" "MA" = O
  /\ relevanceScore "market" "MA" Mastercard == 10
  /\ identifyConnectedStocks "market" = ["MA"]
  /\ exists result,
       run_analyzeArticleImpact (fun _ => 1 # 2) "Market" "" = Some result
       /\ map ticker (stockImpacts result) = ["MA"].
Proof.
  repeat split; try reflexivity.
  - unfold COMPANY_DATABASE, Mastercard. simpl. tauto.
  - eexists. split; [vm_compute; reflexivity | reflexivity].
Qed.

(** ** The patterns of the registry compile *)

Lemma registry_patterns_ok : forallb patterns_ok COMPANY_DATABASE = true.
Proof. vm_compute. reflexivity. Qed.

Lemma patterns_ok_In (ticker : string) (company : Company) :
  In (ticker, company) COMPANY_DATABASE -> patterns_ok (ticker, company) = true.
Proof.
  intros H. pose proof registry_patterns_ok as Hok.
  rewrite forallb_forall in Hok. now apply Hok.
Qed.

Lemma is_some_inv {A : Type} (o : option A) : is_some o = true -> exists a, o = Some a.
Proof. destruct o; [eauto | discriminate]. Qed.

Lemma count_words_total (text : string) (words : list string) (count : nat) :
  forallb (fun word => is_some (RegExp word)) words = true ->
  exists m, count_words text words count = Some m.
Proof.
  revert count. induction words as [|w ws IH]; intros count H; simpl in *.
  - eauto.
  - apply andb_true_iff in H as [Hw Hws].
    apply is_some_inv in Hw as [re ->]. simpl. now apply IH.
Qed.

Lemma countCompanyMentions_total (text ticker : string) (company : Company) :
  patterns_ok (ticker, company) = true ->
  exists m, countCompanyMentions text ticker (c_name company) = Some m.
Proof.
  unfold patterns_ok. simpl fst. simpl snd. cbv zeta.
  rewrite !andb_true_iff. intros [[[H1 H2] _] H4].
  unfold countCompanyMentions.
  apply is_some_inv in H1 as [re1 ->]. apply is_some_inv in H2 as [re2 ->].
  simpl. now apply count_words_total.
Qed.

Lemma calculateNewsRelevance_spec (text ticker : string) (company : Company) :
  patterns_ok (ticker, company) = true ->
  exists v,
    calculateNewsRelevance ticker company text = Some v
    /\ v == spec_newsRelevance (occurs_as_token text ticker)
              (industryKeywordMatches text (c_sector company))
              (0 <? competitorMatches text ticker)%nat.
Proof.
  unfold patterns_ok. simpl fst. simpl snd. cbv zeta.
  rewrite !andb_true_iff. intros [[_ H3] _].
  unfold calculateNewsRelevance, occurs_as_token.
  apply is_some_inv in H3 as [re ->]. simpl bindR. cbv zeta.
  eexists. split; [reflexivity|].
  unfold spec_newsRelevance, industryKeywordMatches, competitorMatches.
  rewrite !Math_min_Qmin.
  set (k := Qmin 0.4 (num (count_included_ci text (getIndustryKeywords (c_sector company))) * 0.08)).
  destruct (0 <? match_count re (toLowerCase text))%nat;
    destruct (0 <? count_included_ci text (getCompetitors ticker))%nat;
    rewrite ?Math_min_Qmin; apply Q.min_compat; fold k; lra.
Qed.

(** ** The impact score *)

Lemma volatilityFactor_spec (cap : Z) :
  (if (1000000000000 <? cap)%Z then 0.85 else 1.15) = spec_volatilityFactor cap.
Proof. unfold spec_volatilityFactor. now rewrite Z.gtb_ltb. Qed.

(** C1 (amended).  For every ticker of the registry the impact score is:
    the sentiment score, plus the mention boost [min(0.3, mentions*0.08)],
    the sum capped at 1; blended with the sector relevance
    [min(1, sectorMatches*0.2)] as [score*0.6 + relevance*0.4]; scaled
    around 0.5 by 0.85 above a market cap of $1T and by 1.15 otherwise;
    scaled around 0.5 by the news relevance (1.0, plus 0.3 for the bare
    ticker token, plus [min(0.4, industryMatches*0.08)], plus 0.15 for a
    competitor name, at most 2.0); clamped to [[0,1]]. *)
Theorem C1_impactScore_capped (random : nat -> Q) (text ticker : string)
    (company : Company) (sentiment : Sentiment) :
  In (ticker, company) COMPANY_DATABASE ->
  exists mentions value,
    countCompanyMentions text ticker (c_name company) = Some mentions
    /\ calculateImpactScore
         (buildAdvancedPredictionModel random ticker company text sentiment)
       = Some value
    /\ value ==
       capped_impactScore (score sentiment) mentions
         (sectorMatches text (c_sector company)) (marketCap company)
         (spec_newsRelevance (occurs_as_token text ticker)
            (industryKeywordMatches text (c_sector company))
            (0 <? competitorMatches text ticker)%nat).
Proof.
  intros Hin. pose proof (patterns_ok_In ticker company Hin) as Hok.
  destruct (countCompanyMentions_total text ticker company Hok) as [m Hm].
  destruct (calculateNewsRelevance_spec text ticker company Hok) as [nr [Hnr Enr]].
  exists m. unfold buildAdvancedPredictionModel, calculateImpactScore.
  rewrite Hm, Hnr. simpl bindR. cbv zeta.
  eexists. refine (conj eq_refl (conj eq_refl _)).
  unfold capped_impactScore, calculateSectorRelevance.
  fold (sectorMatches text (c_sector company)).
  rewrite volatilityFactor_spec, Math_clamp, !Math_min_Qmin, Enr.
  apply clamp_compat; reflexivity.
Qed.

Lemma C1_impactScore_capped_witness :
  In ("AAPL", Apple) COMPANY_DATABASE
  /\ exists mentions value,
       countCompanyMentions "apple shares soar on record iphone sales, aapl up"
         "AAPL" (c_name Apple) = Some mentions
       /\ calculateImpactScore
            (buildAdvancedPredictionModel (fun _ => 1 # 2) "AAPL" Apple
               "apple shares soar on record iphone sales, aapl up"
               (analyzeSentiment "apple shares soar on record iphone sales, aapl up"))
          = Some value
       /\ value ==
          capped_impactScore
            (score (analyzeSentiment "apple shares soar on record iphone sales, aapl up"))
            mentions
            (sectorMatches "apple shares soar on record iphone sales, aapl up"
               (c_sector Apple))
            (marketCap Apple)
            (spec_newsRelevance
               (occurs_as_token "apple shares soar on record iphone sales, aapl up" "AAPL")
               (industryKeywordMatches
                  "apple shares soar on record iphone sales, aapl up" (c_sector Apple))
               (0 <? competitorMatches
                       "apple shares soar on record iphone sales, aapl up" "AAPL")%nat).
Proof.
  assert (Hin : In ("AAPL", Apple) COMPANY_DATABASE)
    by (unfold COMPANY_DATABASE, Apple; simpl; tauto).
  split; [exact Hin|].
  exact (C1_impactScore_capped (fun _ => 1 # 2)
           "apple shares soar on record iphone sales, aapl up" "AAPL" Apple
           (analyzeSentiment "apple shares soar on record iphone sales, aapl up") Hin).
Defined.

(** C1 as stated fails.  On the text "apple record" the sentiment score
    is 1 and Apple is mentioned once: the code caps [1 + 0.08] at 1 and
    returns 0.585, the derivation without the cap gives 0.6258.  A run on
    the headline "Apple record" returns that impact score for AAPL. *)
Lemma C1_counterexample :
  In ("AAPL", Apple) COMPANY_DATABASE
  /\ score (analyzeSentiment "apple record") == 1
  /\ countCompanyMentions "apple record" "AAPL" (c_name Apple) = Some 1%nat
  /\ exists value,
       calculateImpactScore
         (buildAdvancedPredictionModel (fun _ => 1 # 2) "AAPL" Apple "apple record"
            (analyzeSentiment "apple record"))
       = Some value
       /\ value == 0.585
       /\ unclamped_impactScore (score (analyzeSentiment "apple record")) 1
            (sectorMatches "apple record" (c_sector Apple)) (marketCap Apple)
            (spec_newsRelevance (occurs_as_token "apple record" "AAPL")
               (industryKeywordMatches "apple record" (c_sector Apple))
               (0 <? competitorMatches "apple record" "AAPL")%nat)
          == 0.6258
       /\ ~ value ==
            unclamped_impactScore (score (analyzeSentiment "apple record")) 1
              (sectorMatches "apple record" (c_sector Apple)) (marketCap Apple)
              (spec_newsRelevance (occurs_as_token "apple record" "AAPL")
                 (industryKeywordMatches "apple record" (c_sector Apple))
                 (0 <? competitorMatches "apple record" "AAPL")%nat)
       /\ exists result,
            run_analyzeArticleImpact (fun _ => 1 # 2) "Apple record" "" = Some result
            /\ map ticker (stockImpacts result) = ["AAPL"]
            /\ Forall (fun s => impactScore s == value) (stockImpacts result).
Proof.
  split; [unfold COMPANY_DATABASE, Apple; simpl; tauto|].
  split; [reflexivity|]. split; [reflexivity|].
  eexists. split; [vm_compute; reflexivity|].
  split; [reflexivity|]. split; [reflexivity|].
  split; [vm_compute; discriminate|].
  eexists. split; [vm_compute; reflexivity|].
  split; [reflexivity|]. repeat constructor.
Qed.

(** ** One stock of [generateStockImpacts] *)

Lemma assoc_In {A : Type} (key : string) (obj : list (string * A)) (v : A) :
  assoc key obj = Some v -> In (key, v) obj.
Proof.
  induction obj as [|[k w] obj IH]; simpl; [discriminate|].
  destruct (String.eqb_spec key k) as [->|_].
  - intros [= ->]. now left.
  - intros H. right. now apply IH.
Qed.

Lemma assoc_keys {A : Type} (key : string) (obj : list (string * A)) (v : A) :
  assoc key obj = Some v -> In key (keys obj).
Proof.
  intros H. apply assoc_In in H. unfold keys.
  change key with (fst (key, v)). now apply in_map.
Qed.

Lemma or_number_base_price (ticker : string) :
  or_number (assoc ticker basePrices) 100 = base_price ticker.
Proof.
  unfold base_price, basePrices. cbn [assoc].
  repeat match goal with
    | |- context [String.eqb ticker ?k] => destruct (String.eqb ticker k)
    end; reflexivity.
Qed.

Section Stock.
Variable random : nat -> Q.
Variables (ticker : string) (company : Company) (text : string) (sentiment : Sentiment).
Hypothesis Hok : patterns_ok (ticker, company) = true.

Let model := buildAdvancedPredictionModel random ticker company text sentiment.

Lemma calculateImpactScore_total :
  exists v, calculateImpactScore model = Some v /\ unit_interval v.
Proof.
  destruct (countCompanyMentions_total text ticker company Hok) as [m Hm].
  destruct (calculateNewsRelevance_spec text ticker company Hok) as [nr [Hnr _]].
  unfold model, buildAdvancedPredictionModel, calculateImpactScore.
  rewrite Hm, Hnr. simpl bindR. cbv zeta.
  eexists. split; [reflexivity|].
  apply Math_clamp_bounds. lra.
Qed.

Lemma calculateConfidence_total (n : nat) :
  exists c, calculateConfidence model n = Some (c, S n) /\ confidence_range c.
Proof.
  destruct (countCompanyMentions_total text ticker company Hok) as [m Hm].
  unfold model, buildAdvancedPredictionModel, calculateConfidence, bind, lift,
    Math_random, ret.
  rewrite Hm. simpl option_map. cbv zeta.
  eexists. split; [reflexivity|].
  apply Math_clamp_bounds. lra.
Qed.

Lemma getModelFactors_total : exists f, getModelFactors model = Some f.
Proof.
  destruct (countCompanyMentions_total text ticker company Hok) as [m Hm].
  destruct (calculateNewsRelevance_spec text ticker company Hok) as [nr [Hnr _]].
  unfold model, buildAdvancedPredictionModel, getModelFactors.
  rewrite Hm, Hnr. simpl. eauto.
Qed.

Lemma generateAdvancedStockReasoning_total :
  exists r, generateAdvancedStockReasoning ticker company text sentiment model = Some r.
Proof.
  destruct getModelFactors_total as [f Hf].
  unfold generateAdvancedStockReasoning. rewrite Hf. simpl bindR. eauto.
Qed.

Lemma generateAdvancedPriceTarget_total (impactScore : Q) (n : nat) :
  exists pt,
    generateAdvancedPriceTarget ticker impactScore model n = Some (pt, S n)
    /\ current pt = base_price ticker.
Proof.
  destruct getModelFactors_total as [f Hf].
  destruct (calculateConfidence_total n) as [c [Hc _]].
  unfold generateAdvancedPriceTarget, bind, lift, ret.
  rewrite Hf. simpl option_map. cbv iota beta zeta. rewrite Hc.
  eexists. split; [reflexivity|]. simpl current. apply or_number_base_price.
Qed.
End Stock.

(** ** The loop of [generateStockImpacts] *)

Lemma generateStockImpacts_loop_total (random : nat -> Q) (text : string)
    (sentiment : Sentiment) (stocks : list string) :
  forall (impacts : list StockImpact) (n : nat),
    Forall stock_inv impacts ->
    exists out n',
      generateStockImpacts_loop random stocks text sentiment impacts n = Some (out, n')
      /\ Forall stock_inv out.
Proof.
  induction stocks as [|tk stocks IH]; intros impacts n Hinv;
    cbn [generateStockImpacts_loop].
  - unfold ret. eauto.
  - destruct (assoc tk COMPANY_DATABASE) as [company|] eqn:Ea; [|now apply IH].
    assert (Hok : patterns_ok (tk, company) = true)
      by (apply patterns_ok_In; now apply assoc_In).
    destruct (calculateImpactScore_total random tk company text sentiment Hok)
      as [v [Hv Hvb]].
    destruct (calculateConfidence_total random tk company text sentiment Hok n)
      as [c [Hc Hcb]].
    destruct (generateAdvancedStockReasoning_total random tk company text sentiment Hok)
      as [r Hr].
    destruct (generateAdvancedPriceTarget_total random tk company text sentiment Hok
                v (S n)) as [pt [Hpt Hcur]].
    unfold bind at 1. unfold lift at 1. rewrite Hv. simpl option_map. cbv iota beta.
    unfold bind at 1. rewrite Hc. cbv iota beta.
    unfold bind at 1. unfold lift at 1. rewrite Hr. simpl option_map. cbv iota beta.
    unfold bind at 1. rewrite Hpt. cbv iota beta.
    apply IH. apply Forall_app. split; [exact Hinv|].
    constructor; [|constructor].
    split.
    + unfold stock_ok. cbn [ticker impactScore confidence].
      split; [eapply assoc_keys; eassumption | split; assumption].
    + exists pt. split; [reflexivity | exact Hcur].
Qed.

Lemma Forall_sort {A : Type} (P : A -> Prop) (key : A -> Q) (l : list A) :
  Forall P l -> Forall P (sort (cmp_desc key) l).
Proof. apply Permutation_Forall, sort_perm. Qed.

Lemma generateStockImpacts_total (random : nat -> Q) (text : string)
    (sentiment : Sentiment) (stocks : list string) (n : nat) :
  exists out n',
    generateStockImpacts random stocks text sentiment n = Some (out, n')
    /\ Forall stock_inv out
    /\ StronglySorted most_extreme_first out.
Proof.
  destruct (generateStockImpacts_loop_total random text sentiment stocks [] n)
    as [out [n' [Hrun Hinv]]]; [constructor|].
  unfold generateStockImpacts, bind, ret. rewrite Hrun.
  eexists. eexists. split; [reflexivity|]. split.
  - now apply (Forall_sort stock_inv extremity).
  - apply (sort_sorted extremity).
Qed.

(** The entry point returns for every input. *)
Lemma run_analyzeArticleImpact_total (random : nat -> Q) (headline fullText : string) :
  let text := toLowerCase (headline ++ " " ++ fullText) in
  exists impacts,
    run_analyzeArticleImpact random headline fullText
      = Some (assemble headline text impacts)
    /\ Forall stock_inv impacts
    /\ StronglySorted most_extreme_first impacts.
Proof.
  intros text. unfold run_analyzeArticleImpact.
  rewrite analyzeArticleImpact_assemble. fold text.
  destruct (generateStockImpacts_total random text (analyzeSentiment text)
              (identifyConnectedStocks text) O) as [out [n' [Hrun [Hinv Hs]]]].
  rewrite Hrun. simpl. eauto.
Qed.

(** ** Sentiment and sectors of the result *)

Lemma normalizedScore_of_bounds (s t : Z) : -1 <= normalizedScore_of s t <= 1.
Proof.
  unfold normalizedScore_of. destruct (0 <? t)%Z.
  - apply Math_clamp_bounds. lra.
  - lra.
Qed.

Lemma analyzeSentiment_ok (text : string) : sentiment_ok (analyzeSentiment text).
Proof.
  rewrite analyzeSentiment_fields. cbv zeta. unfold sentiment_ok.
  cbn [score s_confidence].
  pose proof (normalizedScore_of_bounds (weightedSum text) (totalMatches text)) as H.
  split.
  - unfold unit_interval.
    set (x := normalizedScore_of (weightedSum text) (totalMatches text)) in *.
    split.
    + apply Qle_shift_div_l; lra.
    + apply Qle_shift_div_r; lra.
  - unfold confidence_range, Math_min, Math_max. qcases; lra.
Qed.

Lemma calculateSectorRelevance_bounds (text sector : string) :
  unit_interval (calculateSectorRelevance text sector).
Proof.
  unfold calculateSectorRelevance. cbv zeta. apply Math_min_bounds; [lra|].
  pose proof (num_nonneg (count_included text (or_empty (assoc sector SECTOR_KEYWORDS)))).
  nra.
Qed.

Lemma firstn_In {A : Type} (n : nat) (l : list A) (x : A) :
  In x (firstn n l) -> In x l.
Proof.
  revert l. induction n as [|n IH]; intros [|y l]; simpl; try tauto.
  intros [H|H]; [now left | right; now apply IH].
Qed.

Lemma identifyAffectedSectors_keys (text : string) :
  Forall (fun sector => In sector (keys SECTOR_KEYWORDS)) (identifyAffectedSectors text).
Proof.
  unfold identifyAffectedSectors. cbv zeta. unfold slice0.
  apply Forall_forall. intros sector Hin. apply firstn_In in Hin.
  assert (Hflat : forall s,
            In s (flat_map
                    (fun entry : string * list string =>
                       let (sector, keywords) := entry in
                       if existsb (fun keyword => includes text keyword) keywords
                       then [sector] else [])
                    SECTOR_KEYWORDS) ->
            In s (keys SECTOR_KEYWORDS)).
  { intros s Hs. apply in_flat_map in Hs as [[k kws] [Hentry Hs]].
    destruct (existsb _ kws); [|contradiction].
    destruct Hs as [<-|[]]. unfold keys.
    change k with (fst (k, kws)). now apply in_map. }
  destruct (length _ =? 0)%nat.
  - apply in_app_or in Hin as [Hin|Hin]; [now apply Hflat|].
    simpl in Hin. unfold keys, SECTOR_KEYWORDS. simpl. tauto.
  - now apply Hflat.
Qed.

Lemma generateSectorImpacts_ok (sectors : list string) (text : string) :
  Forall (fun sector => In sector (keys SECTOR_KEYWORDS)) sectors ->
  Forall sector_ok (generateSectorImpacts sectors text (analyzeSentiment text)).
Proof.
  intros H. unfold generateSectorImpacts. apply Forall_map.
  eapply Forall_impl; [|exact H].
  intros sector Hin. unfold sector_ok. cbn [ms_name ms_impactScore].
  split; [exact Hin|].
  destruct (analyzeSentiment_ok text) as [[Hs0 Hs1] _].
  destruct (calculateSectorRelevance_bounds text sector) as [Hr0 Hr1].
  unfold unit_interval. split.
  - apply Qle_shift_div_l; lra.
  - apply Qle_shift_div_r; lra.
Qed.

Lemma generateKeyInsights_sectors (headline text : string)
    (impacts : list StockImpact) (sectors : list MarketSector) :
  snd (generateKeyInsights headline text impacts sectors)
  = sort (cmp_desc (fun m => Qabs (ms_impactScore m - 0.5))) sectors.
Proof. reflexivity. Qed.

Lemma generateKeyInsights_nonempty (headline text : string)
    (impacts : list StockImpact) (sectors : list MarketSector) :
  fst (generateKeyInsights headline text impacts sectors) <> [].
Proof.
  unfold generateKeyInsights. cbv zeta. cbn [fst]. unfold slice0.
  set (last := ("Market sentiment analysis suggests " ++ _)%string).
  match goal with |- firstn 5 (?l ++ [last]) <> [] => destruct l as [|x l'] end.
  - discriminate.
  - discriminate.
Qed.

Lemma assemble_sectors_ok (headline text : string) (impacts : list StockImpact) :
  Forall sector_ok (sectorImpacts (assemble headline text impacts)).
Proof.
  unfold assemble. cbv zeta. cbn [sectorImpacts].
  rewrite generateKeyInsights_sectors. apply Forall_sort.
  apply generateSectorImpacts_ok, identifyAffectedSectors_keys.
Qed.

Lemma Forall_stock_ok (impacts : list StockImpact) :
  Forall stock_inv impacts -> Forall stock_ok impacts.
Proof. apply Forall_impl. now intros s [H _]. Qed.

(** C4.  For every headline and text and whatever the jitter draws are,
    every stock impact has a ticker of the company registry, an impact
    score in [[0,1]] and a confidence in [[0.3, 0.95]]; every sector
    impact has a name of the sector keyword table and an impact score in
    [[0,1]]; the overall sentiment has a score in [[0,1]] and a confidence
    in [[0.3, 0.95]]. *)
Theorem C4_result_invariants (random : nat -> Q) (headline fullText : string) :
  exists result,
    run_analyzeArticleImpact random headline fullText = Some result
    /\ Forall stock_ok (stockImpacts result)
    /\ Forall sector_ok (sectorImpacts result)
    /\ sentiment_ok (overallMarketSentiment result).
Proof.
  destruct (run_analyzeArticleImpact_total random headline fullText)
    as [impacts [Hrun [Hinv _]]].
  eexists. split; [exact Hrun|]. split; [|split].
  - now apply Forall_stock_ok.
  - apply assemble_sectors_ok.
  - apply analyzeSentiment_ok.
Qed.

(** C5.  On the empty headline and the empty text the engine returns: no
    stock impact, the sectors Technology, Financial Services, Healthcare
    in this order, the sentiment score 0.5 with the label Neutral, and
    insights, risk factors and opportunities that are not empty.  On
    every pair of strings it returns a result: it never throws. *)
Theorem C5_empty_input_and_totality (random : nat -> Q) :
  (exists result,
     run_analyzeArticleImpact random "" "" = Some result
     /\ stockImpacts result = []
     /\ map ms_name (sectorImpacts result)
        = ["Technology"; "Financial Services"; "Healthcare"]
     /\ score (overallMarketSentiment result) == 0.5
     /\ label (overallMarketSentiment result) = "Neutral"
     /\ keyInsights result <> []
     /\ riskFactors result <> []
     /\ opportunities result <> [])
  /\ (forall headline fullText : string,
        exists result, run_analyzeArticleImpact random headline fullText = Some result).
Proof.
  split.
  - eexists. split; [vm_compute; reflexivity|].
    cbn [stockImpacts sectorImpacts overallMarketSentiment score label keyInsights
         riskFactors opportunities map ms_name].
    repeat split; try reflexivity; discriminate.
  - intros headline fullText.
    destruct (run_analyzeArticleImpact_total random headline fullText) as [impacts [H _]].
    eauto.
Qed.

(** C7.  The stock impacts come most extreme first: of two entries the
    earlier one is at least as far from 0.5 as the later one. *)
Theorem C7_stockImpacts_sorted (random : nat -> Q) (headline fullText : string) :
  exists result,
    run_analyzeArticleImpact random headline fullText = Some result
    /\ StronglySorted most_extreme_first (stockImpacts result)
    /\ forall (i j : nat) (a b : StockImpact),
         (i < j)%nat ->
         nth_error (stockImpacts result) i = Some a ->
         nth_error (stockImpacts result) j = Some b ->
         Qabs (impactScore b - 0.5) <= Qabs (impactScore a - 0.5).
Proof.
  destruct (run_analyzeArticleImpact_total random headline fullText)
    as [impacts [Hrun [_ Hs]]].
  eexists. split; [exact Hrun|]. cbn [stockImpacts assemble]. split; [exact Hs|].
  intros i j a b Hij Ha Hb.
  exact (sorted_nth extremity impacts Hs i j a b Hij Ha Hb).
Qed.

Lemma C7_stockImpacts_sorted_witness :
  exists result a b,
    run_analyzeArticleImpact (fun _ => 1 # 2)
      "Apple Reports Record Q4 Earnings, iPhone Sales Surge"
      "Apple beats Microsoft and Amazon as iPhone demand grows" = Some result
    /\ nth_error (stockImpacts result) 0 = Some a
    /\ nth_error (stockImpacts result) 1 = Some b
    /\ Qabs (impactScore b - 0.5) <= Qabs (impactScore a - 0.5).
Proof.
  destruct (C7_stockImpacts_sorted (fun _ => 1 # 2)
              "Apple Reports Record Q4 Earnings, iPhone Sales Surge"
              "Apple beats Microsoft and Amazon as iPhone demand grows")
    as [result [Hrun [_ Hsorted]]].
  exists result.
  assert (Hlen : exists a b, nth_error (stockImpacts result) 0 = Some a
                             /\ nth_error (stockImpacts result) 1 = Some b).
  { vm_compute in Hrun. injection Hrun as <-. cbn. eauto. }
  destruct Hlen as [a [b [Ha Hb]]].
  exists a, b. split; [exact Hrun|]. split; [exact Ha|]. split; [exact Hb|].
  apply (Hsorted 0%nat 1%nat a b); [lia | exact Ha | exact Hb].
Defined.

Lemma generateAdvancedPriceTarget_current (ticker : string) (impactScore : Q)
    (model : PredictionModel) (n : nat) :
  match generateAdvancedPriceTarget ticker impactScore model n with
  | Some (pt, _) => current pt = base_price ticker
  | None => True
  end.
Proof.
  unfold generateAdvancedPriceTarget, bind, lift, ret.
  destruct (getModelFactors model); simpl option_map; [|exact I].
  cbv iota beta zeta.
  destruct (calculateConfidence model n) as [[c n']|]; [|exact I].
  simpl current. apply or_number_base_price.
Qed.

(** C10.  Every stock impact carries a price target, and its [current]
    value is the entry of the ticker in the base-price table, 100 for a
    ticker the table lacks. *)
Theorem C10_priceTarget_present (random : nat -> Q) (headline fullText : string) :
  (exists result,
     run_analyzeArticleImpact random headline fullText = Some result
     /\ Forall has_base_price (stockImpacts result))
  /\ (forall (ticker : string) (impactScore : Q) (model : PredictionModel) (n : nat),
        match generateAdvancedPriceTarget ticker impactScore model n with
        | Some (pt, _) => current pt = base_price ticker
        | None => True
        end)
  /\ base_price "AAPL" = 175
  /\ base_price "XYZ" = 100.
Proof.
  split; [|split; [exact generateAdvancedPriceTarget_current | split; reflexivity]].
  destruct (run_analyzeArticleImpact_total random headline fullText)
    as [impacts [Hrun [Hinv _]]].
  eexists. split; [exact Hrun|]. cbn [stockImpacts assemble].
  eapply Forall_impl; [|exact Hinv]. now intros s [_ H].
Qed.

(* ================================================================== *)
(** * Further properties of the engine and of the scraper's helpers *)

(* ================================================================== *)
(** * Further properties of the engine *)

(** ** Sentiment: what the score, the label and the confidence can be *)

Lemma inject_Z_nonneg (z : Z) : (0 <= z)%Z -> 0 <= inject_Z z.
Proof. intros H. change 0 with (inject_Z 0). now rewrite <- Zle_Qle. Qed.

Lemma inject_Z_pos (z : Z) : (0 < z)%Z -> 0 < inject_Z z.
Proof. intros H. change 0 with (inject_Z 0). now rewrite <- Zlt_Qlt. Qed.

(** X1.  The confidence of [analyzeSentiment] is
    [min(0.95, 0.5 + 0.1 * totalMatches)]: it never goes below 0.5, so the
    floor of 0.3 in the code is never the result; it is 0.5 exactly when
    no keyword of the lexicon occurs and 0.95 from five keywords on. *)
Theorem X1_sentiment_confidence_range (text : string) :
  0.5 <= s_confidence (analyzeSentiment text) <= 0.95
  /\ s_confidence (analyzeSentiment text)
     == Qmin 0.95 (0.5 + 0.1 * inject_Z (totalMatches text))
  /\ (s_confidence (analyzeSentiment text) == 0.5 <-> no_lexicon_keyword text = true)
  /\ ((5 <= totalMatches text)%Z <-> s_confidence (analyzeSentiment text) == 0.95).
Proof.
  rewrite analyzeSentiment_fields. cbv zeta. cbn [s_confidence].
  rewrite no_lexicon_keyword_total.
  pose proof (totalMatches_nonneg text) as Hn.
  set (t := totalMatches text) in *.
  assert (Ht : 0 <= inject_Z t) by now apply inject_Z_nonneg.
  assert (E : Math_min 0.95 (Math_max 0.3 (inject_Z t * 0.1 + 0.5))
              == Qmin 0.95 (0.5 + 0.1 * inject_Z t)).
  { rewrite Math_min_Qmin, Math_max_Qmax. rewrite Q.max_r by lra.
    apply Q.min_compat; [reflexivity | ring]. }
  rewrite E. clear E.
  split; [|split; [reflexivity|split]].
  - destruct (Q.min_spec 0.95 (0.5 + 0.1 * inject_Z t)) as [[H ->]|[H ->]]; lra.
  - split.
    + intros H. destruct (Q.min_spec 0.95 (0.5 + 0.1 * inject_Z t)) as [[H1 E]|[H1 E]];
        rewrite E in H; [lra|].
      assert (H0 : inject_Z t == 0) by lra.
      unfold Qeq in H0. simpl in H0. lia.
    + intros ->. reflexivity.
  - split.
    + intros H. apply Q.min_l.
      assert (inject_Z 5 <= inject_Z t) by now rewrite <- Zle_Qle.
      change (inject_Z 5) with 5 in *. lra.
    + intros H. destruct (Q.min_spec 0.95 (0.5 + 0.1 * inject_Z t)) as [[H1 E]|[H1 E]].
      * destruct (Z_lt_le_dec t 5) as [Hlt|Hge]; [|exact Hge].
        exfalso. assert (Hq : inject_Z t <= inject_Z 4) by (rewrite <- Zle_Qle; lia).
        change (inject_Z 4) with 4 in Hq. lra.
      * rewrite E in H. exfalso.
        assert (Hq : inject_Z t == 4.5) by lra.
        unfold Qeq in Hq. simpl in Hq. lia.
Qed.

Lemma label_of_score_raw (n : Q) (l : string) :
  label_of_raw n l -> label_of_score ((n + 1) / 2) l.
Proof.
  unfold label_of_raw, label_of_score.
  assert (E : (n + 1) / 2 == n * 0.5 + 0.5) by (field).
  rewrite E. intros H.
  repeat match type of H with _ \/ _ => destruct H as [H|H] end;
    [ left | right; left | right; right; left | right; right; right; left
    | right; right; right; right ];
    repeat split; try tauto; try lra.
Qed.

(** X2.  The label of [analyzeSentiment] is read off the score it
    returns: Very Positive above 0.65, Positive above 0.55, Neutral above
    0.45, Negative above 0.35, Very Negative from 0.35 down. *)
Theorem X2_sentiment_label_of_score (text : string) :
  label_of_score (score (analyzeSentiment text)) (label (analyzeSentiment text)).
Proof.
  rewrite analyzeSentiment_fields. cbv zeta. cbn [score label].
  apply label_of_score_raw, sentiment_label_spec.
Qed.

Lemma lexicon_matches_nonneg (text : string) (tiers : list (string * list string))
    (intensity : string) : (0 <= lexicon_matches text tiers intensity)%Z.
Proof. unfold lexicon_matches. lia. Qed.

Lemma weightedSum_polarity (text : string) :
  let p := polarity_matches text (positive SENTIMENT_KEYWORDS) in
  let n := polarity_matches text (negative SENTIMENT_KEYWORDS) in
  (totalMatches text = p + n
   /\ p - 3 * n <= weightedSum text <= 3 * p - n
   /\ 0 <= p /\ 0 <= n)%Z.
Proof.
  cbv zeta. unfold totalMatches, weightedSum, polarity_matches.
  pose proof (lexicon_matches_nonneg text (positive SENTIMENT_KEYWORDS) "strong").
  pose proof (lexicon_matches_nonneg text (positive SENTIMENT_KEYWORDS) "moderate").
  pose proof (lexicon_matches_nonneg text (positive SENTIMENT_KEYWORDS) "mild").
  pose proof (lexicon_matches_nonneg text (negative SENTIMENT_KEYWORDS) "strong").
  pose proof (lexicon_matches_nonneg text (negative SENTIMENT_KEYWORDS) "moderate").
  pose proof (lexicon_matches_nonneg text (negative SENTIMENT_KEYWORDS) "mild").
  cbv zeta. lia.
Qed.

Lemma normalizedScore_of_high (s t : Z) :
  (0 < t)%Z -> (t <= s)%Z -> 0.5 <= normalizedScore_of s t.
Proof.
  intros Ht Hs. unfold normalizedScore_of.
  destruct (Z.ltb_spec 0 t) as [_|H]; [|lia].
  assert (Hq : 0.5 <= inject_Z s / inject_Z (t * 2)).
  { apply Qle_shift_div_l; [apply inject_Z_pos; lia|].
    rewrite inject_Z_mult. change (inject_Z 2) with 2.
    assert (inject_Z t <= inject_Z s) by now rewrite <- Zle_Qle. lra. }
  rewrite Math_max_Qmax, Math_min_Qmin.
  destruct (Q.min_spec 1 (inject_Z s / inject_Z (t * 2))) as [[? E1]|[? E1]];
    rewrite E1; qminmax; lra.
Qed.

Lemma normalizedScore_of_low (s t : Z) :
  (0 < t)%Z -> (s <= - t)%Z -> normalizedScore_of s t <= -0.5.
Proof.
  intros Ht Hs. unfold normalizedScore_of.
  destruct (Z.ltb_spec 0 t) as [_|H]; [|lia].
  assert (Hq : inject_Z s / inject_Z (t * 2) <= -0.5).
  { apply Qle_shift_div_r; [apply inject_Z_pos; lia|].
    rewrite inject_Z_mult. change (inject_Z 2) with 2.
    assert (inject_Z s <= inject_Z (- t)) by now rewrite <- Zle_Qle.
    rewrite inject_Z_opp in *. lra. }
  rewrite Math_max_Qmax, Math_min_Qmin.
  destruct (Q.min_spec 1 (inject_Z s / inject_Z (t * 2))) as [[? E1]|[? E1]];
    rewrite E1; qminmax; lra.
Qed.

(** X3.  A text in which keywords of one polarity only occur gets the
    extreme label: with positive keywords and no negative one the score is
    at least 0.75 and the label Very Positive, with negative keywords and
    no positive one the score is at most 0.25 and the label Very
    Negative.  The labels Positive and Negative need keywords of both
    polarities. *)
Theorem X3_one_sided_sentiment_is_extreme (text : string) :
  (polarity_matches text (negative SENTIMENT_KEYWORDS) = 0%Z ->
   (0 < polarity_matches text (positive SENTIMENT_KEYWORDS))%Z ->
   0.75 <= score (analyzeSentiment text)
   /\ label (analyzeSentiment text) = "Very Positive")
  /\ (polarity_matches text (positive SENTIMENT_KEYWORDS) = 0%Z ->
      (0 < polarity_matches text (negative SENTIMENT_KEYWORDS))%Z ->
      score (analyzeSentiment text) <= 0.25
      /\ label (analyzeSentiment text) = "Very Negative").
Proof.
  rewrite analyzeSentiment_fields. cbv zeta. cbn [score label].
  destruct (weightedSum_polarity text) as [Ht [Hw [Hp Hn]]].
  set (n := normalizedScore_of (weightedSum text) (totalMatches text)).
  assert (E : (n + 1) / 2 == n * 0.5 + 0.5) by field.
  split; intros H0 Hpos.
  - assert (Hn' : 0.5 <= n) by (apply normalizedScore_of_high; lia).
    split; [rewrite E; lra|].
    unfold sentiment_label.
    assert (G : gt n 0.3 = true) by (apply gt_true; lra). now rewrite G.
  - assert (Hn' : n <= -0.5) by (apply normalizedScore_of_low; lia).
    split; [rewrite E; lra|].
    unfold sentiment_label.
    assert (G1 : gt n 0.3 = false) by (apply gt_false; lra).
    assert (G2 : gt n 0.1 = false) by (apply gt_false; lra).
    assert (G3 : gt n (-0.1) = false) by (apply gt_false; lra).
    assert (G4 : gt n (-0.3) = false) by (apply gt_false; lra).
    now rewrite G1, G2, G3, G4.
Qed.

Lemma X3_one_sided_sentiment_is_extreme_witness :
  (0.75 <= score (analyzeSentiment "steady growth continues")
   /\ label (analyzeSentiment "steady growth continues") = "Very Positive")
  /\ (score (analyzeSentiment "some caution about a slow quarter") <= 0.25
      /\ label (analyzeSentiment "some caution about a slow quarter") = "Very Negative").
Proof.
  split.
  - apply (proj1 (X3_one_sided_sentiment_is_extreme "steady growth continues"));
      [reflexivity | reflexivity].
  - apply (proj2 (X3_one_sided_sentiment_is_extreme "some caution about a slow quarter"));
      [reflexivity | reflexivity].
Defined.

(** ** The prediction model: ranges and monotonicity *)

Lemma Math_min_mono (a x y : Q) : x <= y -> Math_min a x <= Math_min a y.
Proof. intros H. unfold Math_min. qcases; lra. Qed.

Lemma Math_max_mono (a x y : Q) : x <= y -> Math_max a x <= Math_max a y.
Proof. intros H. unfold Math_max. qcases; lra. Qed.

Lemma Math_min_mono_l (a x y : Q) : x <= y -> Math_min x a <= Math_min y a.
Proof. intros H. unfold Math_min. qcases; lra. Qed.

Lemma spec_newsRelevance_range (token : bool) (matches : nat) (competitor : bool) :
  1 <= spec_newsRelevance token matches competitor <= 1.85.
Proof.
  unfold spec_newsRelevance. pose proof (num_nonneg matches) as Hm.
  assert (Hk : 0 <= Qmin 0.4 (num matches * 0.08) <= 0.4).
  { split; [apply Q.min_glb; lra | apply Q.le_min_l]. }
  set (k := Qmin 0.4 (num matches * 0.08)) in *.
  destruct token, competitor; qminmax; lra.
Qed.

(** X4.  For a company of the registry [calculateNewsRelevance] returns a
    multiplier between 1 and 1.85: the cap of 2.0 in the code is never
    the result, and the multiplier never shrinks a deviation from 0.5. *)
Theorem X4_newsRelevance_range (ticker : string) (company : Company) (text : string) :
  In (ticker, company) COMPANY_DATABASE ->
  exists v, calculateNewsRelevance ticker company text = Some v /\ 1 <= v <= 1.85.
Proof.
  intros Hin. pose proof (patterns_ok_In ticker company Hin) as Hok.
  destruct (calculateNewsRelevance_spec text ticker company Hok) as [v [Hv Ev]].
  exists v. split; [exact Hv|]. rewrite Ev. apply spec_newsRelevance_range.
Qed.

Lemma X4_newsRelevance_range_witness :
  exists v,
    calculateNewsRelevance "NVDA" (mkCompany "NVIDIA Corporation" "Technology" 1800000000000)
      "nvda and amd race on ai software, cloud data platform and algorithm hardware"
    = Some v
    /\ 1 <= v <= 1.85.
Proof.
  apply X4_newsRelevance_range. unfold COMPANY_DATABASE. simpl. tauto.
Defined.

(** X5.  When the draw lies in [[0,1]], as a draw of [Math.random()]
    does, the confidence of a stock is at least 0.38: the floor of 0.3 in
    the code is never the result.  The cap of 0.95 can be. *)
Theorem X5_stock_confidence_floor (random : nat -> Q) (ticker : string)
    (company : Company) (text : string) (sentiment : Sentiment) (n : nat) :
  In (ticker, company) COMPANY_DATABASE ->
  0 <= random n <= 1 ->
  exists c,
    calculateConfidence
      (buildAdvancedPredictionModel random ticker company text sentiment) n
    = Some (c, S n)
    /\ 0.38 <= c <= 0.95.
Proof.
  intros Hin Hr. pose proof (patterns_ok_In ticker company Hin) as Hok.
  destruct (countCompanyMentions_total text ticker company Hok) as [m Hm].
  unfold buildAdvancedPredictionModel, calculateConfidence, bind, lift, Math_random, ret.
  rewrite Hm. simpl option_map. cbv zeta.
  eexists. split; [reflexivity|].
  pose proof (calculateSectorRelevance_bounds text (c_sector company)) as [Hs0 Hs1].
  pose proof (Math_min_bounds 0.2 (num m * 0.04)) as Hb.
  assert (Hb' : 0 <= Math_min 0.2 (num m * 0.04) <= 0.2).
  { apply Hb; [lra|]. pose proof (num_nonneg m). lra. }
  clear Hb.
  assert (Ha : 0 <= Math_abs (score sentiment - 0.5)) by apply Qabs_nonneg.
  set (a := Math_abs (score sentiment - 0.5)) in *.
  set (b := Math_min 0.2 (num m * 0.04)) in *.
  set (s := calculateSectorRelevance text (c_sector company)) in *.
  set (r := random n) in *.
  set (f := if (500000000000 <? marketCap company)%Z then 1.1 else 0.95).
  assert (Hf : 0.95 <= f) by (unfold f; destruct (_ <? _)%Z; lra).
  assert (Hx : 0.5 <= 0.5 + a * 2 * 0.3 + b + s * 0.15) by lra.
  set (x := 0.5 + a * 2 * 0.3 + b + s * 0.15) in *.
  assert (Hxf : 0.475 <= x * f) by nra.
  assert (Hz : 0.8 <= 0.8 + r * 0.15) by lra.
  assert (Hp : 0.38 <= x * f * (0.8 + r * 0.15)) by nra.
  unfold Math_max, Math_min. 
  destruct (Qle_bool 0.95 (x * f * (0.8 + r * 0.15))) eqn:E1;
    [apply Qle_bool_iff in E1 | apply Qle_bool_false in E1];
    qcases; lra.
Qed.

Lemma X5_stock_confidence_floor_witness :
  exists c,
    calculateConfidence
      (buildAdvancedPredictionModel (fun _ => 0) "BAC"
         (mkCompany "Bank of America Corp." "Financial Services" 280000000000)
         "nothing of note" (analyzeSentiment "nothing of note")) 0%nat
    = Some (c, 1%nat)
    /\ 0.38 <= c <= 0.95.
Proof.
  apply X5_stock_confidence_floor.
  - unfold COMPANY_DATABASE. simpl. tauto.
  - split; discriminate.
Defined.

(** X6.  The impact score of a company does not fall when the sentiment
    score rises: for the same text and company, a larger sentiment score
    gives an impact score at least as large. *)
Theorem X6_impactScore_monotone (random : nat -> Q) (ticker : string)
    (company : Company) (text : string) (s1 s2 : Sentiment) :
  In (ticker, company) COMPANY_DATABASE ->
  score s1 <= score s2 ->
  exists v1 v2,
    calculateImpactScore (buildAdvancedPredictionModel random ticker company text s1)
      = Some v1
    /\ calculateImpactScore (buildAdvancedPredictionModel random ticker company text s2)
       = Some v2
    /\ v1 <= v2.
Proof.
  intros Hin Hs. pose proof (patterns_ok_In ticker company Hin) as Hok.
  destruct (countCompanyMentions_total text ticker company Hok) as [m Hm].
  destruct (calculateNewsRelevance_spec text ticker company Hok) as [nr [Hnr Enr]].
  pose proof (spec_newsRelevance_range (occurs_as_token text ticker)
                (industryKeywordMatches text (c_sector company))
                (0 <? competitorMatches text ticker)%nat) as Hrange.
  rewrite <- Enr in Hrange.
  unfold buildAdvancedPredictionModel, calculateImpactScore.
  rewrite Hm, Hnr. simpl bindR. cbv zeta.
  eexists. eexists. refine (conj eq_refl (conj eq_refl _)).
  apply Math_max_mono, Math_min_mono.
  set (b := Math_min 0.3 (num m * 0.08)).
  assert (H1 : Math_min 1 (score s1 + b) <= Math_min 1 (score s2 + b))
    by (apply Math_min_mono; lra).
  set (x1 := Math_min 1 (score s1 + b)) in *.
  set (x2 := Math_min 1 (score s2 + b)) in *.
  set (k := calculateSectorRelevance text (c_sector company) * 0.4).
  set (f := if (1000000000000 <? marketCap company)%Z then 0.85 else 1.15).
  assert (Hf : 0 <= f) by (unfold f; destruct (_ <? _)%Z; lra).
  assert (H2 : (x1 * (1 - 0.4) + k - 0.5) * f <= (x2 * (1 - 0.4) + k - 0.5) * f).
  { apply Qmult_le_compat_r; [lra | exact Hf]. }
  assert (H3 : (0.5 + (x1 * (1 - 0.4) + k - 0.5) * f - 0.5) * nr
               <= (0.5 + (x2 * (1 - 0.4) + k - 0.5) * f - 0.5) * nr).
  { apply Qmult_le_compat_r; lra. }
  lra.
Qed.

Lemma X6_impactScore_monotone_witness :
  exists v1 v2,
    calculateImpactScore
      (buildAdvancedPredictionModel (fun _ => 0) "TSLA"
         (mkCompany "Tesla Inc." "Consumer Discretionary" 800000000000)
         "tesla" (analyzeSentiment "tesla sales drop")) = Some v1
    /\ calculateImpactScore
         (buildAdvancedPredictionModel (fun _ => 0) "TSLA"
            (mkCompany "Tesla Inc." "Consumer Discretionary" 800000000000)
            "tesla" (analyzeSentiment "tesla sales surge")) = Some v2
    /\ v1 <= v2.
Proof.
  apply X6_impactScore_monotone.
  - unfold COMPANY_DATABASE. simpl. tauto.
  - discriminate.
Defined.

(** ** Substrings *)

Lemma prefix_spec (p s : string) : prefix p s = true <-> exists q, s = (p ++ q)%string.
Proof.
  revert s. induction p as [|c p IH]; intros s.
  - split; [intros _; now exists s | intros _; now destruct s].
  - destruct s as [|d s]; simpl.
    + split; [discriminate | intros [q Hq]; discriminate].
    + destruct (ascii_dec c d) as [<-|Hne].
      * rewrite IH. split; intros [q Hq]; exists q; [now rewrite Hq | now injection Hq].
      * split; [discriminate | intros [q Hq]; injection Hq; congruence].
Qed.

Lemma includes_spec (s needle : string) :
  includes s needle = true <-> exists p q, s = (p ++ needle ++ q)%string.
Proof.
  induction s as [|c s IH]; cbn [includes].
  - rewrite orb_false_r, prefix_spec. split.
    + intros [q Hq]. now exists "", q.
    + intros [p [q H]]. destruct p; [now exists q | discriminate].
  - rewrite orb_true_iff, prefix_spec, IH. split.
    + intros [[q Hq]|[p [q H]]]; [now exists "", q | exists (String c p), q; now rewrite H].
    + intros [[|d p] [q H]]; [left; now exists q|].
      right. exists p, q. simpl in H. now injection H.
Qed.

Lemma append_assoc (a b c : string) : ((a ++ b) ++ c = a ++ (b ++ c))%string.
Proof. induction a as [|x a IH]; simpl; [reflexivity | now rewrite IH]. Qed.

Lemma includes_trans (s a b : string) :
  includes s a = true -> includes a b = true -> includes s b = true.
Proof.
  rewrite !includes_spec. intros [p [q ->]] [p' [q' ->]].
  exists (p ++ p')%string, (q' ++ q)%string.
  now rewrite !append_assoc.
Qed.

Lemma includes_refl (s : string) : includes s s = true.
Proof. apply includes_spec. exists "", "". simpl. induction s; simpl; congruence. Qed.

(** ** Relevance scores *)

Lemma count_included_pos (text keyword : string) (keywords : list string) :
  In keyword keywords -> includes text keyword = true ->
  (1 <= count_included text keywords)%nat.
Proof.
  intros Hin Hinc. unfold count_included.
  assert (H : In keyword (filter (fun k => includes text k) keywords))
    by (apply filter_In; auto).
  destruct (filter _ keywords); [contradiction | simpl; lia].
Qed.

Lemma num_le (n m : nat) : (n <= m)%nat -> num n <= num m.
Proof. intros H. unfold num. rewrite <- Zle_Qle. lia. Qed.

Lemma relevanceScore_lower (text ticker : string) (company : Company) :
  (if includes text (toLowerCase ticker) then 10 else 0)
  + num (sectorMatches text (c_sector company)) * 2
  <= relevanceScore text ticker company.
Proof.
  rewrite relevanceScore_sum.
  pose proof (num_nonneg (count_included text (nameWords (c_name company)))).
  pose proof (num_nonneg (industryKeywordMatches text (c_sector company))).
  pose proof (num_nonneg (competitorMatches text ticker)).
  destruct (includes text (toLowerCase ticker)); lra.
Qed.

Lemma candidates_In (text ticker : string) (company : Company) :
  In (ticker, company) COMPANY_DATABASE ->
  2 <= relevanceScore text ticker company ->
  In ticker (map fst (candidates text)).
Proof.
  intros Hin Hs. unfold candidates, scored_companies.
  change ticker with (fst (ticker, relevanceScore text ticker company)) at 1.
  apply in_map, filter_In. split.
  - change (ticker, relevanceScore text ticker company)
      with ((fun entry : string * Company =>
               (fst entry, relevanceScore text (fst entry) (snd entry)))
              (ticker, company)).
    now apply in_map.
  - now apply Qle_bool_iff.
Qed.

(** X7.  The test for a direct ticker mention is a substring test, so
    short tickers are found inside ordinary words: every text with the
    letter "v" makes Visa a candidate, every text with "market" makes
    Mastercard one (its ticker is MA), and every text with "fed" makes
    JPMorgan one (through the sector keyword).  The broad-market keywords
    "market" and "fed" therefore never lead to the four default
    tickers. *)
Theorem X7_short_tickers_match_inside_words (text : string) :
  (includes text "v" = true -> In "V" (map fst (candidates text)))
  /\ (includes text "market" = true -> In "MA" (map fst (candidates text)))
  /\ (includes text "fed" = true -> In "JPM" (map fst (candidates text)))
  /\ (includes text "market" = true \/ includes text "fed" = true ->
      candidates text <> []
      /\ exists ranked,
           Permutation ranked (candidates text)
           /\ identifyConnectedStocks text = map fst (firstn 6 ranked)).
Proof.
  assert (HV : includes text "v" = true -> In "V" (map fst (candidates text))).
  { intros H.
    apply (candidates_In text "V" (mkCompany "Visa Inc." "Financial Services" 500000000000));
      [unfold COMPANY_DATABASE; simpl; tauto|].
    eapply Qle_trans; [|apply relevanceScore_lower].
    change (toLowerCase "V") with "v". rewrite H.
    pose proof (num_nonneg (sectorMatches text "Financial Services")). simpl c_sector. lra. }
  assert (HM : includes text "market" = true -> In "MA" (map fst (candidates text))).
  { intros H.
    apply (candidates_In text "MA" Mastercard);
      [unfold COMPANY_DATABASE, Mastercard; simpl; tauto|].
    eapply Qle_trans; [|apply relevanceScore_lower].
    change (toLowerCase "MA") with "ma".
    rewrite (includes_trans text "market" "ma" H eq_refl).
    pose proof (num_nonneg (sectorMatches text (c_sector Mastercard))). lra. }
  assert (HF : includes text "fed" = true -> In "JPM" (map fst (candidates text))).
  { intros H.
    apply (candidates_In text "JPM"
             (mkCompany "JPMorgan Chase & Co." "Financial Services" 450000000000));
      [unfold COMPANY_DATABASE; simpl; tauto|].
    eapply Qle_trans; [|apply relevanceScore_lower].
    assert (Hc : (1 <= sectorMatches text "Financial Services")%nat).
    { unfold sectorMatches. apply count_included_pos with (keyword := "fed"); [|exact H].
      unfold SECTOR_KEYWORDS. simpl. tauto. }
    apply num_le in Hc. change (num 1) with 1 in Hc. simpl c_sector.
    destruct (includes text (toLowerCase "JPM")); lra. }
  split; [exact HV|]. split; [exact HM|]. split; [exact HF|].
  intros H.
  assert (Hne : candidates text <> []).
  { destruct H as [H|H]; [apply HM in H | apply HF in H];
      intros E; rewrite E in H; contradiction. }
  split; [exact Hne|].
  exists (sortedStocks text). split; [apply sortedStocks_perm|].
  rewrite identifyConnectedStocks_cases.
  destruct (sortedStocks text) eqn:Es; [|reflexivity].
  exfalso. apply Hne. pose proof (sortedStocks_perm text) as Hp. rewrite Es in Hp.
  now apply Permutation_nil in Hp.
Qed.

Lemma X7_short_tickers_match_inside_words_witness :
  In "V" (map fst (candidates "investors love it"))
  /\ In "MA" (map fst (candidates "the market is calm"))
  /\ In "JPM" (map fst (candidates "he fed the cat")).
Proof.
  split; [|split].
  - apply (proj1 (X7_short_tickers_match_inside_words "investors love it")). reflexivity.
  - apply (proj1 (proj2 (X7_short_tickers_match_inside_words "the market is calm"))).
    reflexivity.
  - apply (proj1 (proj2 (proj2 (X7_short_tickers_match_inside_words "he fed the cat")))).
    reflexivity.
Defined.

(** ** The identified stocks and their impacts *)

(** Dropping entries of a table keeps its keys distinct. *)
Lemma keys_filter_NoDup {V : Type} (keep : string * V -> bool)
    (table : list (string * V)) :
  NoDup (keys table) -> NoDup (keys (filter keep table)).
Proof.
  unfold keys. induction table as [|entry table IH]; cbn [filter map]; [auto|].
  intros Hnd. apply NoDup_cons_iff in Hnd as [Hfresh Hnd].
  destruct (keep entry); cbn [map]; [|auto].
  apply NoDup_cons; [|auto].
  intros Hin. apply Hfresh. apply in_map_iff in Hin as [other [Hkey Hin]].
  apply filter_In in Hin as [Hin _]. rewrite <- Hkey. now apply in_map.
Qed.

Lemma NoDup_firstn {A : Type} (n : nat) (l : list A) : NoDup l -> NoDup (firstn n l).
Proof.
  revert l. induction n as [|n IH]; intros [|x l] H; simpl; try constructor.
  - inversion H; subst. intros Hin. now apply firstn_In in Hin.
  - inversion H; subst. now apply IH.
Qed.

Lemma keys_COMPANY_DATABASE_NoDup : NoDup (keys COMPANY_DATABASE).
Proof.
  unfold keys, COMPANY_DATABASE. cbn [map fst].
  repeat (constructor; [cbn [In]; intuition discriminate|]). constructor.
Qed.

Lemma scored_companies_keys (text : string) :
  map fst (scored_companies text) = keys COMPANY_DATABASE.
Proof.
  unfold scored_companies, keys. rewrite map_map. reflexivity.
Qed.

Lemma length_firstn_le {A : Type} (n : nat) (l : list A) : (length (firstn n l) <= n)%nat.
Proof. rewrite length_firstn. lia. Qed.

Lemma sortedStocks_NoDup (text : string) : NoDup (map fst (sortedStocks text)).
Proof.
  eapply Permutation_NoDup;
    [apply Permutation_map, Permutation_sym, sortedStocks_perm|].
  unfold candidates. apply (keys_filter_NoDup (V := Q)). unfold keys at 1.
  rewrite scored_companies_keys. apply keys_COMPANY_DATABASE_NoDup.
Qed.

Lemma sortedStocks_keys (text ticker : string) :
  In ticker (map fst (sortedStocks text)) -> In ticker (keys COMPANY_DATABASE).
Proof.
  intros Ht. eapply Permutation_in in Ht; [|apply Permutation_map, sortedStocks_perm].
  unfold candidates in Ht. apply in_map_iff in Ht as [e [<- He]].
  apply filter_In in He as [He _]. rewrite <- (scored_companies_keys text).
  now apply in_map.
Qed.

Lemma default_tickers_keys :
  Forall (fun ticker => In ticker (keys COMPANY_DATABASE)) ["AAPL"; "MSFT"; "GOOGL"; "AMZN"].
Proof.
  unfold keys, COMPANY_DATABASE. cbn [map fst].
  repeat (constructor; [cbn [In]; tauto|]). constructor.
Qed.

Lemma identifyConnectedStocks_keys (text : string) :
  Forall (fun ticker => In ticker (keys COMPANY_DATABASE)) (identifyConnectedStocks text).
Proof.
  rewrite identifyConnectedStocks_cases.
  destruct (sortedStocks text) as [|s ss] eqn:Es.
  - destruct (has_broad_market_keyword text); [apply default_tickers_keys | constructor].
  - apply Forall_forall. intros t Ht. apply (sortedStocks_keys text). rewrite Es.
    rewrite <- firstn_map in Ht. now apply firstn_In in Ht.
Qed.

(** X8.  [identifyConnectedStocks] returns at most six tickers, all of
    them keys of the company registry, and no ticker twice. *)
Theorem X8_identified_stocks_shape (text : string) :
  (length (identifyConnectedStocks text) <= 6)%nat
  /\ NoDup (identifyConnectedStocks text)
  /\ Forall (fun ticker => In ticker (keys COMPANY_DATABASE))
       (identifyConnectedStocks text).
Proof.
  split; [|split; [|apply identifyConnectedStocks_keys]];
    rewrite identifyConnectedStocks_cases;
    pose proof (sortedStocks_NoDup text) as Hnd;
    destruct (sortedStocks text) as [|s ss] eqn:Es.
  - destruct (has_broad_market_keyword text); simpl; lia.
  - rewrite length_map. apply length_firstn_le.
  - destruct (has_broad_market_keyword text); [|constructor].
    repeat (constructor; [cbn [In]; intuition discriminate|]). constructor.
  - rewrite <- firstn_map. now apply NoDup_firstn.
Qed.

Lemma length_if_ge {A : Type} (c : bool) (a b : list A) (k : nat) :
  (k <= length a)%nat -> (k <= length b)%nat -> (k <= length (if c then a else b))%nat.
Proof. now destruct c. Qed.

Lemma length_snoc_ge {A : Type} (l : list A) (x : A) (k : nat) :
  (k <= length l)%nat -> (S k <= length (l ++ [x]))%nat.
Proof. rewrite length_app. simpl. lia. Qed.

Lemma Some_inj {A : Type} (a b : A) : Some a = Some b -> a = b.
Proof. congruence. Qed.

(** A lower bound on the length of a list built by conditional pushes. *)
Ltac pushes :=
  repeat first
    [ apply Nat.le_0_l
    | apply length_if_ge
    | apply length_snoc_ge ].

Lemma generateAdvancedStockReasoning_length (ticker : string) (company : Company)
    (text : string) (sentiment : Sentiment) (model : PredictionModel)
    (r : list string) :
  generateAdvancedStockReasoning ticker company text sentiment model = Some r ->
  (2 <= length r <= 5)%nat.
Proof.
  unfold generateAdvancedStockReasoning.
  destruct (getModelFactors model) as [f|]; [|discriminate].
  unfold bindR. cbv beta iota zeta. intros H.
  apply Some_inj in H. rewrite <- H. clear H. unfold slice0. rewrite length_firstn.
  split; [|lia].
  apply Nat.min_glb; [lia|]. pushes.
Qed.

(** ** Price targets *)

Lemma Qfloor_add_Z (x : Q) (z : Z) : Qfloor (x + inject_Z z) = (Qfloor x + z)%Z.
Proof.
  pose proof (Qfloor_le x) as Hlo. pose proof (Qlt_floor x) as Hhi.
  pose proof (Qfloor_le (x + inject_Z z)) as Hlo'.
  pose proof (Qlt_floor (x + inject_Z z)) as Hhi'.
  rewrite inject_Z_plus in Hhi, Hhi'. change (inject_Z 1) with 1 in *.
  assert (H1 : inject_Z (Qfloor x + z) < inject_Z (Qfloor (x + inject_Z z) + 1)).
  { rewrite !inject_Z_plus. change (inject_Z 1) with 1. lra. }
  assert (H2 : inject_Z (Qfloor (x + inject_Z z)) < inject_Z (Qfloor x + z + 1)).
  { rewrite !inject_Z_plus. change (inject_Z 1) with 1. lra. }
  rewrite <- Zlt_Qlt in H1, H2. lia.
Qed.

Lemma Math_round_add_Z (x : Q) (z : Z) : Math_round (x + inject_Z z) = (Math_round x + z)%Z.
Proof.
  unfold Math_round. rewrite <- Qfloor_add_Z. apply Qfloor_comp. ring.
Qed.

Lemma Math_round_mono (x y : Q) : x <= y -> (Math_round x <= Math_round y)%Z.
Proof. intros H. unfold Math_round. apply Qfloor_resp_le. lra. Qed.

Lemma Math_round_Z (z : Z) : Math_round (inject_Z z) = z.
Proof.
  unfold Math_round. rewrite Qplus_comm, Qfloor_add_Z. reflexivity.
Qed.

Lemma Math_round_compat (x y : Q) : x == y -> Math_round x = Math_round y.
Proof. intros H. unfold Math_round. apply Qfloor_comp. now rewrite H. Qed.

Lemma base_price_integer (ticker : string) :
  exists z : Z, base_price ticker = inject_Z z /\ (1 <= z)%Z.
Proof.
  unfold base_price, basePrices. cbn [assoc].
  repeat match goal with
    | |- context [String.eqb ticker ?k] => destruct (String.eqb ticker k)
    end;
    (eexists; split; [reflexivity | lia]).
Qed.

Lemma getSectorVolatility_range (sector : string) :
  0.6 <= getSectorVolatility sector <= 1.5.
Proof.
  unfold getSectorVolatility, volatilityMap. cbn [assoc].
  repeat match goal with
    | |- context [String.eqb sector ?k] => destruct (String.eqb sector k)
    end; cbn [or_number]; split; discriminate.
Qed.

(** The monetary fields for a percentage [p] in [[-44, 44]] on an integer
    base price, in exact arithmetic. *)
Lemma price_fields (b : Z) (p : Q) :
  (1 <= b)%Z -> -44 <= p <= 44 ->
  let base := inject_Z b in
  let predictedPrice := base * (1 + p / 100) in
  let predicted := inject_Z (Math_round (predictedPrice * 100)) / 100 in
  let change := inject_Z (Math_round ((predictedPrice - base) * 100)) / 100 in
  let percent := inject_Z (Math_round (p * 100)) / 100 in
  change == predicted - base
  /\ (0 <= p -> 0 <= percent /\ base <= predicted)
  /\ (p <= 0 -> percent <= 0 /\ predicted <= base)
  /\ Qabs percent <= 44
  /\ 0 < predicted.
Proof.
  intros Hb Hp. cbv zeta.
  assert (Hbq : 1 <= inject_Z b) by (change 1 with (inject_Z 1); now rewrite <- Zle_Qle).
  set (base := inject_Z b) in *.
  set (P := base * (1 + p / 100)).
  set (bp := base * p).
  assert (EP : P == base + bp * (1 # 100)) by (unfold P, bp; field).
  assert (Hbp0 : 0 <= p -> 0 <= bp) by (intros; unfold bp; apply Qmult_le_0_compat; lra).
  assert (Hbp0' : p <= 0 -> bp <= 0).
  { intros H. unfold bp. assert (0 <= base * - p) by (apply Qmult_le_0_compat; lra). lra. }
  assert (Hbp44 : -44 * base <= bp).
  { unfold bp. assert (0 <= base * (p + 44)) by (apply Qmult_le_0_compat; lra). lra. }
  assert (Ediff : Math_round ((P - base) * 100)
                  = (Math_round (P * 100) + - (b * 100))%Z).
  { rewrite <- Math_round_add_Z. apply Math_round_compat.
    rewrite inject_Z_opp, inject_Z_mult. fold base. change (inject_Z 100) with 100. ring. }
  assert (Hdiv : forall z : Z, inject_Z z / 100 == inject_Z z * (1 # 100))
    by (intros z; field).
  assert (Hround0 : forall y, 0 <= y -> (0 <= Math_round y)%Z).
  { intros y Hy. rewrite <- (Math_round_Z 0). now apply Math_round_mono. }
  assert (Hround0' : forall y, y <= 0 -> (Math_round y <= 0)%Z).
  { intros y Hy. rewrite <- (Math_round_Z 0). now apply Math_round_mono. }
  assert (Hbase100 : Math_round (base * 100) = (b * 100)%Z).
  { rewrite <- (Math_round_Z (b * 100)). apply Math_round_compat.
    rewrite inject_Z_mult. reflexivity. }
  split; [|split; [|split; [|split]]].
  - rewrite Ediff, inject_Z_plus, inject_Z_opp, inject_Z_mult. fold base.
    change (inject_Z 100) with 100. field.
  - intros H0. split.
    + rewrite Hdiv. assert (H : (0 <= Math_round (p * 100))%Z) by (apply Hround0; lra).
      apply inject_Z_nonneg in H. lra.
    + assert (H : (b * 100 <= Math_round (P * 100))%Z).
      { rewrite <- Hbase100. apply Math_round_mono. rewrite EP.
        specialize (Hbp0 H0). lra. }
      rewrite Zle_Qle, inject_Z_mult in H. fold base in H.
      change (inject_Z 100) with 100 in H. rewrite Hdiv. lra.
  - intros H0. split.
    + rewrite Hdiv. assert (H : (Math_round (p * 100) <= 0)%Z) by (apply Hround0'; lra).
      rewrite Zle_Qle in H. change (inject_Z 0) with 0 in H. lra.
    + assert (H : (Math_round (P * 100) <= b * 100)%Z).
      { rewrite <- Hbase100. apply Math_round_mono. rewrite EP.
        specialize (Hbp0' H0). lra. }
      rewrite Zle_Qle, inject_Z_mult in H. fold base in H.
      change (inject_Z 100) with 100 in H. rewrite Hdiv. lra.
  - apply Qabs_Qle_condition. rewrite Hdiv.
    assert (H1 : (Math_round (p * 100) <= 4400)%Z).
    { rewrite <- (Math_round_Z 4400). apply Math_round_mono.
      change (inject_Z 4400) with 4400. lra. }
    assert (H2 : (-4400 <= Math_round (p * 100))%Z).
    { rewrite <- (Math_round_Z (-4400)). apply Math_round_mono.
      change (inject_Z (-4400)) with (-4400). lra. }
    rewrite Zle_Qle in H1, H2.
    change (inject_Z 4400) with 4400 in H1. change (inject_Z (-4400)) with (-4400) in H2.
    lra.
  - rewrite Hdiv.
    assert (H : (56 <= Math_round (P * 100))%Z).
    { rewrite <- (Math_round_Z 56). apply Math_round_mono.
      change (inject_Z 56) with 56. rewrite EP. lra. }
    rewrite Zle_Qle in H. change (inject_Z 56) with 56 in H. lra.
Qed.

Lemma getModelFactors_range (random : nat -> Q) (ticker : string) (company : Company)
    (text : string) (sentiment : Sentiment) :
  patterns_ok (ticker, company) = true ->
  exists f,
    getModelFactors (buildAdvancedPredictionModel random ticker company text sentiment)
      = Some f
    /\ 1 <= newsRelevance f <= 1.85.
Proof.
  intros Hok.
  destruct (countCompanyMentions_total text ticker company Hok) as [m Hm].
  destruct (calculateNewsRelevance_spec text ticker company Hok) as [nr [Hnr Enr]].
  unfold buildAdvancedPredictionModel, getModelFactors.
  rewrite Hm, Hnr. unfold bindR. eexists. split; [reflexivity|].
  cbn [newsRelevance]. rewrite Enr. apply spec_newsRelevance_range.
Qed.

(** The percentage before rounding: the deviation of the impact score
    from 0.5 times a factor between 0 and 88. *)
Lemma changePercent_factor (v vol nr c sv : Q) :
  0 <= v <= 1 -> 0.7 <= vol <= 1.3 -> 1 <= nr <= 1.85 -> 0.3 <= c <= 0.95 ->
  0.6 <= sv <= 1.5 ->
  let p := (v - 0.5) * 25 * vol * nr * (0.5 + c * 0.5) * sv in
  -44 <= p <= 44 /\ (0.5 <= v -> 0 <= p) /\ (v <= 0.5 -> p <= 0).
Proof.
  intros Hv Hvol Hnr Hc Hsv. cbv zeta.
  set (cm := 0.5 + c * 0.5). assert (Hcm : 0.65 <= cm <= 0.975) by (unfold cm; lra).
  assert (H1 : 0 <= nr * cm <= 1.85 * 0.975).
  { split; [apply Qmult_le_0_compat; lra | apply Qmult_le_compat_nonneg; lra]. }
  set (a1 := nr * cm) in *.
  assert (H2 : 0 <= a1 * sv <= 1.85 * 0.975 * 1.5).
  { split; [apply Qmult_le_0_compat; lra | apply Qmult_le_compat_nonneg; lra]. }
  set (a2 := a1 * sv) in *.
  assert (H3 : 0 <= vol * a2 <= 1.3 * (1.85 * 0.975 * 1.5)).
  { split; [apply Qmult_le_0_compat; lra | apply Qmult_le_compat_nonneg; lra]. }
  set (K := vol * a2) in *.
  assert (E : (v - 0.5) * 25 * vol * nr * cm * sv == (v - 0.5) * (25 * K))
    by (unfold K, a2, a1; ring).
  rewrite E. set (t := v - 0.5). assert (Ht : -0.5 <= t <= 0.5) by (unfold t; lra).
  assert (HK : 0 <= 25 * K <= 88) by lra.
  set (K' := 25 * K) in *.
  assert (Hlo : 0 <= (t + 0.5) * K') by (apply Qmult_le_0_compat; lra).
  assert (Hhi : 0 <= (0.5 - t) * K') by (apply Qmult_le_0_compat; lra).
  split; [|split].
  - lra.
  - intros H. apply Qmult_le_0_compat; unfold t; lra.
  - intros H. assert (0 <= (- t) * K') by (apply Qmult_le_0_compat; unfold t; lra). lra.
Qed.

Lemma generateAdvancedPriceTarget_consistent (random : nat -> Q) (ticker : string)
    (company : Company) (text : string) (sentiment : Sentiment) (v : Q) (n : nat) :
  assoc ticker COMPANY_DATABASE = Some company ->
  0 <= v <= 1 ->
  exists pt,
    generateAdvancedPriceTarget ticker v
      (buildAdvancedPredictionModel random ticker company text sentiment) n
    = Some (pt, S n)
    /\ (0.5 <= v -> 0 <= changePercent pt /\ 0 <= change pt /\ current pt <= predicted pt)
    /\ (v <= 0.5 -> changePercent pt <= 0 /\ change pt <= 0 /\ predicted pt <= current pt)
    /\ Qabs (changePercent pt) <= 44
    /\ 0 < predicted pt.
Proof.
  intros Ea Hv.
  assert (Hok : patterns_ok (ticker, company) = true)
    by (apply patterns_ok_In; now apply assoc_In).
  destruct (getModelFactors_range random ticker company text sentiment Hok)
    as [f [Hf Hnr]].
  destruct (calculateConfidence_total random ticker company text sentiment Hok n)
    as [c [Hc Hcr]].
  destruct (base_price_integer ticker) as [b [Eb Hb]].
  unfold generateAdvancedPriceTarget, bind, lift, ret.
  rewrite Hf. cbn [option_map]. cbv beta iota zeta. rewrite Hc.
  rewrite Ea, or_number_base_price, Eb.
  eexists. split; [reflexivity|]. cbn [current predicted change changePercent].
  set (vol := if (1000000000000 <? marketCap company)%Z then 0.7 else 1.3).
  assert (Hvol : 0.7 <= vol <= 1.3) by (unfold vol; destruct (_ <? _)%Z; lra).
  set (sv := getSectorVolatility _).
  assert (Hsv : 0.6 <= sv <= 1.5) by apply getSectorVolatility_range.
  destruct (changePercent_factor v vol (newsRelevance f) c sv Hv Hvol Hnr Hcr Hsv)
    as [Hp [Hpos Hneg]].
  set (p := (v - 0.5) * 25 * vol * newsRelevance f * (0.5 + c * 0.5) * sv) in *.
  destruct (price_fields b p Hb Hp) as [E1 [E2 [E3 [E4 E5]]]].
  split; [|split; [|split; assumption]].
  - intros H. destruct (E2 (Hpos H)) as [H1 H2]. repeat split; [exact H1| |exact H2].
    rewrite E1. lra.
  - intros H. destruct (E3 (Hneg H)) as [H1 H2]. repeat split; [exact H1| |exact H2].
    rewrite E1. lra.
Qed.

Lemma keys_assoc {A : Type} (key : string) (obj : list (string * A)) :
  In key (keys obj) -> exists v, assoc key obj = Some v.
Proof.
  induction obj as [|[k v] obj IH]; simpl; [contradiction|].
  intros [<-|H].
  - rewrite String.eqb_refl. eauto.
  - destruct (String.eqb key k); [eauto | now apply IH].
Qed.

Lemma generateStockImpacts_loop_exact (random : nat -> Q) (text : string)
    (sentiment : Sentiment) (stocks : list string) :
  Forall (fun ticker => In ticker (keys COMPANY_DATABASE)) stocks ->
  forall (impacts : list StockImpact) (n : nat),
  exists added,
    generateStockImpacts_loop random stocks text sentiment impacts n
      = Some (impacts ++ added, (n + 2 * length added)%nat)
    /\ map ticker added = stocks
    /\ Forall (impact_coherent text) added
    /\ Forall price_target_consistent added.
Proof.
  induction 1 as [|tk stocks Hk _ IH]; intros impacts n;
    cbn [generateStockImpacts_loop].
  - exists []. rewrite app_nil_r, Nat.add_0_r. unfold ret. auto 6.
  - destruct (keys_assoc tk COMPANY_DATABASE Hk) as [company Ea]. rewrite Ea.
    assert (Hok : patterns_ok (tk, company) = true)
      by (apply patterns_ok_In; now apply assoc_In).
    destruct (calculateImpactScore_total random tk company text sentiment Hok)
      as [v [Hv Hvb]].
    destruct (calculateConfidence_total random tk company text sentiment Hok n)
      as [c [Hc _]].
    destruct (generateAdvancedStockReasoning_total random tk company text sentiment Hok)
      as [r Hr].
    destruct (generateAdvancedPriceTarget_consistent random tk company text sentiment
                v (S n) Ea Hvb) as [pt [Hpt Hprice]].
    unfold bind at 1. unfold lift at 1. rewrite Hv. simpl option_map. cbv iota beta.
    unfold bind at 1. rewrite Hc. cbv iota beta.
    unfold bind at 1. unfold lift at 1. rewrite Hr. simpl option_map. cbv iota beta.
    unfold bind at 1. rewrite Hpt. cbv iota beta.
    match goal with
    | |- context [generateStockImpacts_loop _ _ _ _ (impacts ++ [?s]) _] =>
        destruct (IH (impacts ++ [s]) (S (S n))) as [added [Hrun [Hmap [Hco Hpr]]]];
        exists (s :: added)
    end.
    rewrite Hrun, <- app_assoc. cbn [app length map ticker].
    split; [f_equal; f_equal; lia|]. split; [now rewrite Hmap|]. split.
    + constructor; [|exact Hco].
      unfold impact_coherent.
      cbn [ticker companyName impactLevel impactScore timeframe confidence reasoning].
      split; [now exists company|]. split; [reflexivity|]. split; [reflexivity|].
      eapply generateAdvancedStockReasoning_length; eassumption.
    + constructor; [|exact Hpr].
      unfold price_target_consistent. cbn [priceTarget impactScore].
      exists pt. split; [reflexivity | exact Hprice].
Qed.

(** X9.  A run gives one stock impact for each ticker that
    [identifyConnectedStocks] returns, no more and no other; and it calls
    [Math.random()] twice for each of them, once for the confidence of
    the stock and once again inside its price target. *)
Theorem X9_one_impact_per_identified_stock (random : nat -> Q)
    (headline fullText : string) (n : nat) :
  exists result,
    analyzeArticleImpact random headline fullText n
      = Some (result, (n + 2 * length (stockImpacts result))%nat)
    /\ Permutation (map ticker (stockImpacts result))
         (identifyConnectedStocks (toLowerCase (headline ++ " " ++ fullText))).
Proof.
  rewrite analyzeArticleImpact_assemble. cbv zeta.
  set (text := toLowerCase (headline ++ " " ++ fullText)).
  pose proof (identifyConnectedStocks_keys text) as Hkeys.
  destruct (generateStockImpacts_loop_exact random text (analyzeSentiment text)
              (identifyConnectedStocks text) Hkeys [] n) as [added [Hrun [Hmap _]]].
  unfold generateStockImpacts, bind, ret. rewrite Hrun. cbn [app].
  set (sorted := sort _ added).
  assert (Hp : Permutation sorted added)
    by (apply Permutation_sym, (sort_perm extremity)).
  exists (assemble headline text sorted). cbn [stockImpacts assemble].
  assert (Hpm : Permutation (map ticker sorted) (identifyConnectedStocks text))
    by (rewrite <- Hmap; now apply Permutation_map).
  split; [|exact Hpm].
  now rewrite (Permutation_length Hp).
Qed.

(** X10.  In every stock impact of a result the fields agree: the
    company name is the one the registry holds for the ticker, the impact
    level is the one [getImpactLevel] gives for the impact score, the
    timeframe the one [determineDynamicTimeframe] gives for the text, the
    impact score and the confidence, and there are between two and five
    reasoning sentences. *)
Theorem X10_stock_impact_fields_agree (random : nat -> Q) (headline fullText : string) :
  exists result,
    run_analyzeArticleImpact random headline fullText = Some result
    /\ Forall (impact_coherent (toLowerCase (headline ++ " " ++ fullText)))
         (stockImpacts result).
Proof.
  unfold run_analyzeArticleImpact. rewrite analyzeArticleImpact_assemble. cbv zeta.
  set (text := toLowerCase (headline ++ " " ++ fullText)).
  pose proof (identifyConnectedStocks_keys text) as Hkeys.
  destruct (generateStockImpacts_loop_exact random text (analyzeSentiment text)
              (identifyConnectedStocks text) Hkeys [] O) as [added [Hrun [_ [Hco _]]]].
  unfold generateStockImpacts, bind, ret. rewrite Hrun. cbn [app option_map fst].
  eexists. split; [reflexivity|]. cbn [stockImpacts assemble].
  now apply (Forall_sort (impact_coherent text) extremity).
Qed.

(** X15.  In every stock impact the price target follows the impact
    score in direction: an impact score of 0.5 or more gives a percentage
    and a change that are not negative and a predicted price not below
    the current one, an impact score of 0.5 or less gives a percentage
    and a change that are not positive and a predicted price not above
    the current one (so 0.5 moves nothing).  The percentage stays within
    44 either way and the predicted price is positive. *)
Theorem X15_price_target_follows_impact (random : nat -> Q) (headline fullText : string) :
  exists result,
    run_analyzeArticleImpact random headline fullText = Some result
    /\ Forall price_target_consistent (stockImpacts result).
Proof.
  unfold run_analyzeArticleImpact. rewrite analyzeArticleImpact_assemble. cbv zeta.
  set (text := toLowerCase (headline ++ " " ++ fullText)).
  pose proof (identifyConnectedStocks_keys text) as Hkeys.
  destruct (generateStockImpacts_loop_exact random text (analyzeSentiment text)
              (identifyConnectedStocks text) Hkeys [] O) as [added [Hrun [_ [_ Hpr]]]].
  unfold generateStockImpacts, bind, ret. rewrite Hrun. cbn [app option_map fst].
  eexists. split; [reflexivity|]. cbn [stockImpacts assemble].
  now apply (Forall_sort price_target_consistent extremity).
Qed.

(** ** Sectors *)

Lemma affected_sectors_matching (text : string) :
  identifyAffectedSectors text =
  match matching_sectors text with
  | [] => ["Technology"; "Financial Services"; "Healthcare"]
  | _ :: _ => firstn 5 (matching_sectors text)
  end.
Proof.
  unfold identifyAffectedSectors, matching_sectors, slice0. cbv zeta.
  assert (E : forall table : list (string * list string),
            flat_map
              (fun entry : string * list string =>
                 let (sector, keywords) := entry in
                 if existsb (fun keyword => includes text keyword) keywords
                 then [sector] else [])
              table
            = map fst
                (filter (fun entry : string * list string =>
                           existsb (fun keyword => includes text keyword) (snd entry))
                   table)).
  { induction table as [|[sector keywords] table IH]; simpl; [reflexivity|].
    rewrite IH. now destruct (existsb _ keywords). }
  rewrite E. destruct (map fst _) as [|s ss]; reflexivity.
Qed.

Lemma keys_SECTOR_KEYWORDS_NoDup : NoDup (keys SECTOR_KEYWORDS).
Proof.
  unfold keys, SECTOR_KEYWORDS. cbn [map fst].
  repeat (constructor; [cbn [In]; intuition discriminate|]). constructor.
Qed.

(** X11.  [identifyAffectedSectors] returns between one and five sectors,
    none twice: the first five sectors of the keyword table of which a
    keyword occurs in the text, and Technology, Financial Services,
    Healthcare when there is none.  A sector after the fifth match is
    dropped. *)
Theorem X11_affected_sectors_shape (text : string) :
  (1 <= length (identifyAffectedSectors text) <= 5)%nat
  /\ NoDup (identifyAffectedSectors text)
  /\ (matching_sectors text = [] ->
      identifyAffectedSectors text = ["Technology"; "Financial Services"; "Healthcare"])
  /\ (matching_sectors text <> [] ->
      identifyAffectedSectors text = firstn 5 (matching_sectors text)).
Proof.
  rewrite affected_sectors_matching.
  assert (Hnd : NoDup (matching_sectors text))
    by (apply (keys_filter_NoDup (V := list string)), keys_SECTOR_KEYWORDS_NoDup).
  destruct (matching_sectors text) as [|s ss] eqn:E.
  - split; [simpl; lia|]. split; [|split; [reflexivity | congruence]].
    repeat (constructor; [cbn [In]; intuition discriminate|]). constructor.
  - split; [|split; [now apply NoDup_firstn | split; [discriminate | reflexivity]]].
    rewrite length_firstn. cbn [length]. lia.
Qed.

Lemma X11_affected_sectors_shape_witness :
  identifyAffectedSectors "a quiet day"
    = ["Technology"; "Financial Services"; "Healthcare"]
  /\ identifyAffectedSectors
       "chip drug bank retail food oil mining housing water"
     = firstn 5 (matching_sectors "chip drug bank retail food oil mining housing water").
Proof.
  split.
  - apply (X11_affected_sectors_shape "a quiet day"). reflexivity.
  - apply (X11_affected_sectors_shape
             "chip drug bank retail food oil mining housing water"). discriminate.
Defined.

Lemma generateSectorImpacts_names (sectors : list string) (text : string)
    (sentiment : Sentiment) :
  map ms_name (generateSectorImpacts sectors text sentiment) = sectors.
Proof.
  unfold generateSectorImpacts. rewrite map_map. cbn [ms_name]. apply map_id.
Qed.

Lemma generateSectorImpacts_stocks (sectors : list string) (text : string)
    (sentiment : Sentiment) :
  Forall sector_stocks_ok (generateSectorImpacts sectors text sentiment).
Proof.
  unfold generateSectorImpacts. apply Forall_map, Forall_forall. intros sector _.
  unfold sector_stocks_ok, slice0. cbn [affectedStocks ms_name]. split.
  - apply length_firstn_le.
  - apply Forall_forall. intros t Ht. apply firstn_In in Ht.
    apply in_map_iff in Ht as [[t' company] [<- He]]. apply filter_In in He as [Hin He].
    cbn [fst snd] in *. apply String.eqb_eq in He.
    destruct (keys_assoc t' COMPANY_DATABASE) as [c Hc].
    { unfold keys. change t' with (fst (t', company)). now apply in_map. }
    exists c. split; [exact Hc|].
    apply assoc_In in Hc.
    assert (c = company); [|now subst].
    pose proof keys_COMPANY_DATABASE_NoDup as Hnd. unfold keys in Hnd.
    clear - Hin Hc Hnd. induction COMPANY_DATABASE as [|[k v] db IH]; [contradiction|].
    simpl in Hnd. inversion Hnd as [|? ? Hnin Hnd']; subst.
    destruct Hin as [Hin|Hin], Hc as [Hc|Hc].
    + congruence.
    + injection Hin as -> ->. exfalso. apply Hnin.
      change t' with (fst (t', c)). now apply in_map.
    + injection Hc as -> ->. exfalso. apply Hnin.
      change t' with (fst (t', company)). now apply in_map.
    + now apply IH.
Qed.

(** X12.  The sector impacts of a result are one for each sector that
    [identifyAffectedSectors] returns; they come most extreme first (the
    sort inside [generateKeyInsights] reorders the array that the result
    holds); and each lists at most four stocks, all of them companies of
    that sector in the registry. *)
Theorem X12_sector_impacts_shape (random : nat -> Q) (headline fullText : string) :
  exists result,
    run_analyzeArticleImpact random headline fullText = Some result
    /\ Permutation (map ms_name (sectorImpacts result))
         (identifyAffectedSectors (toLowerCase (headline ++ " " ++ fullText)))
    /\ StronglySorted (key_desc sector_extremity) (sectorImpacts result)
    /\ Forall sector_stocks_ok (sectorImpacts result).
Proof.
  destruct (run_analyzeArticleImpact_total random headline fullText)
    as [impacts [Hrun _]].
  eexists. split; [exact Hrun|].
  set (text := toLowerCase (headline ++ " " ++ fullText)).
  unfold assemble. cbv zeta. cbn [sectorImpacts].
  rewrite generateKeyInsights_sectors.
  set (sectors := generateSectorImpacts _ _ _).
  split; [|split].
  - rewrite <- (generateSectorImpacts_names (identifyAffectedSectors text) text
                  (analyzeSentiment text)).
    apply Permutation_map, Permutation_sym, (sort_perm sector_extremity).
  - apply (sort_sorted sector_extremity).
  - apply (Forall_sort sector_stocks_ok sector_extremity).
    apply generateSectorImpacts_stocks.
Qed.

(** ** Insights, risk factors and opportunities *)

(** X13.  When no stock is identified, the share of stocks that may
    benefit is 0 divided by 0: the key insights are then two sentences,
    the one on the most exposed sector and the one on market breadth, and
    the latter reads "NaN%". *)
Theorem X13_no_stock_gives_NaN_insight (random : nat -> Q) (headline fullText : string) :
  identifyConnectedStocks (toLowerCase (headline ++ " " ++ fullText)) = [] ->
  exists result top others,
    run_analyzeArticleImpact random headline fullText = Some result
    /\ stockImpacts result = []
    /\ sectorImpacts result = top :: others
    /\ keyInsights result =
       [ (ms_name top
          ++ " sector shows the most significant exposure to these developments.")%string;
         "Market sentiment analysis suggests NaN% of analyzed stocks may benefit from these developments." ].
Proof.
  intros Hnone. unfold run_analyzeArticleImpact. rewrite analyzeArticleImpact_assemble.
  cbv zeta. set (text := toLowerCase (headline ++ " " ++ fullText)) in *.
  rewrite Hnone, generateStockImpacts_nil. cbn [option_map fst].
  set (sectors := generateSectorImpacts (identifyAffectedSectors text) text
                    (analyzeSentiment text)).
  assert (Hlen : (1 <= length (sort (cmp_desc sector_extremity) sectors))%nat).
  { rewrite <- (Permutation_length (sort_perm sector_extremity sectors)).
    unfold sectors, generateSectorImpacts. rewrite length_map.
    rewrite affected_sectors_matching.
    destruct (matching_sectors text) eqn:E; [simpl; lia|].
    rewrite length_firstn. cbn [length]. lia. }
  destruct (sort (cmp_desc sector_extremity) sectors) as [|top others] eqn:Es;
    [simpl in Hlen; lia|].
  exists (assemble headline text []), top, others.
  split; [reflexivity|]. split; [reflexivity|].
  unfold assemble. cbv zeta. cbn [sectorImpacts keyInsights]. fold sectors.
  rewrite generateKeyInsights_sectors. fold sector_extremity. rewrite Es.
  split; [reflexivity|].
  unfold generateKeyInsights. cbv zeta. cbn [fst].
  change (sort _ sectors) with (sort (cmp_desc sector_extremity) sectors).
  rewrite Es. reflexivity.
Qed.

Lemma X13_no_stock_gives_NaN_insight_witness :
  exists result top others,
    run_analyzeArticleImpact (fun _ => 1 # 2) "Local bakery wins community award" ""
      = Some result
    /\ stockImpacts result = []
    /\ sectorImpacts result = top :: others
    /\ keyInsights result =
       [ (ms_name top
          ++ " sector shows the most significant exposure to these developments.")%string;
         "Market sentiment analysis suggests NaN% of analyzed stocks may benefit from these developments." ].
Proof.
  apply X13_no_stock_gives_NaN_insight. reflexivity.
Defined.

(** X14.  [identifyRiskFactors] and [identifyOpportunities] return
    between one and four statements: one for each of their four tests that
    holds, then the generic statement, cut after the fourth.  The generic
    statement is therefore present exactly when fewer than four tests
    hold; when all four hold it is cut off. *)
Theorem X14_generic_statement_can_be_cut (text : string) (sentiment : Sentiment) :
  (length (identifyRiskFactors text sentiment)
   = Nat.min 4 (S (count_true (risk_tests text sentiment)))
   /\ (In generic_risk (identifyRiskFactors text sentiment)
       <-> (count_true (risk_tests text sentiment) < 4)%nat))
  /\ (length (identifyOpportunities text sentiment)
      = Nat.min 4 (S (count_true (opportunity_tests text sentiment)))
      /\ (In generic_opportunity (identifyOpportunities text sentiment)
          <-> (count_true (opportunity_tests text sentiment) < 4)%nat)).
Proof.
  unfold identifyRiskFactors, identifyOpportunities, risk_tests, opportunity_tests,
    count_true, generic_risk, generic_opportunity, slice0.
  cbv zeta. split.
  - destruct (includes text "regulation" || includes text "policy");
      destruct (includes text "inflation" || includes text "interest rate");
      destruct (lt (s_confidence sentiment) 0.7);
      destruct (includes text "geopolitical" || includes text "trade");
      cbn [app firstn filter length In Nat.min];
      (split; [reflexivity|]); split; intros H; try lia; try tauto;
      repeat match goal with H : _ \/ _ |- _ => destruct H as [H|H] end;
      try discriminate; try contradiction; tauto.
  - destruct (gt (score sentiment) 0.6);
      destruct (includes text "innovation" || includes text "technology");
      destruct (includes text "earnings" || includes text "revenue");
      destruct (includes text "merger" || includes text "acquisition");
      cbn [app firstn filter length In Nat.min];
      (split; [reflexivity|]); split; intros H; try lia; try tauto;
      repeat match goal with H : _ \/ _ |- _ => destruct H as [H|H] end;
      try discriminate; try contradiction; tauto.
Qed.
Lemma X14_generic_statement_can_be_cut_witness :
  ~ In generic_risk
      (identifyRiskFactors "new regulation, inflation and trade"
         (analyzeSentiment "new regulation, inflation and trade")).
Proof.
  intros H.
  apply (proj2 (proj1 (X14_generic_statement_can_be_cut
                         "new regulation, inflation and trade"
                         (analyzeSentiment "new regulation, inflation and trade")))) in H.
  vm_compute in H. lia.
Defined.

(** ** The three tests for a ticker in a text *)

Lemma RegExp_plain (src rest : string) :
  plain src = true ->
  RegExp (src ++ rest)
  = option_map (app (map Lit (list_ascii_of_string src))) (RegExp rest).
Proof.
  unfold plain. induction src as [|c src IH]; intros H.
  - simpl. now destruct (RegExp rest).
  - cbn [list_ascii_of_string forallb] in H. apply andb_true_iff in H as [Hc Hs].
    apply negb_true_iff in Hc. cbn [append RegExp list_ascii_of_string map].
    assert (E1 : Ascii.eqb c "\" = false).
    { destruct (Ascii.eqb_spec c "\") as [->|]; [discriminate Hc | reflexivity]. }
    assert (E2 : Ascii.eqb c "." = false).
    { destruct (Ascii.eqb_spec c ".") as [->|]; [discriminate Hc | reflexivity]. }
    rewrite E1, E2, Hc, (IH Hs). now destruct (RegExp rest).
Qed.

Lemma match_here_lits_prefix (cs : list ascii) (tail : list atom) (prev : option ascii)
    (s : string) (len : nat) :
  match_here (map Lit cs ++ tail) prev s = Some len ->
  prefix (string_of_list_ascii cs) s = true.
Proof.
  revert prev s len. induction cs as [|c cs IH]; intros prev s len H.
  - now destruct s.
  - cbn [map app match_here] in H. destruct s as [|d s]; [discriminate|].
    destruct (Ascii.eqb_spec c d) as [<-|]; [|discriminate].
    destruct (match_here (map Lit cs ++ tail) (Some c) s) as [k|] eqn:E; [|discriminate].
    cbn [string_of_list_ascii prefix].
    destruct (ascii_dec c c) as [_|Hn]; [|congruence]. eapply IH; eassumption.
Qed.

Lemma match_count_from_includes (p : list atom) (needle : string) :
  (forall prev s len, match_here p prev s = Some len -> prefix needle s = true) ->
  forall s prev skip, (0 < match_count_from p prev s skip)%nat -> includes s needle = true.
Proof.
  intros Hp. induction s as [|c s IH]; intros prev skip H.
  - cbn [match_count_from] in H. destruct skip; [|lia].
    destruct (match_here p prev "") eqn:E; [|lia].
    apply Hp in E. cbn [includes]. now rewrite E.
  - cbn [match_count_from] in H. cbn [includes]. apply orb_true_iff.
    destruct skip as [|k].
    + destruct (match_here p prev (String c s)) eqn:E.
      * left. eapply Hp; eassumption.
      * right. eapply IH; eassumption.
    + right. eapply IH; eassumption.
Qed.

Lemma includes_match_count_from (cs : list ascii) (s : string) :
  cs <> [] ->
  includes s (string_of_list_ascii cs) = true ->
  forall prev, (0 < match_count_from (map Lit cs) prev s 0)%nat.
Proof.
  intros Hne. 
  assert (Hm : forall s prev, prefix (string_of_list_ascii cs) s = true ->
                 exists len, match_here (map Lit cs) prev s = Some len).
  { clear. induction cs as [|c cs IH]; intros s prev H; [now exists O|].
    cbn [string_of_list_ascii] in H. destruct s as [|d s]; [discriminate|].
    cbn [prefix] in H. destruct (ascii_dec c d) as [<-|]; [|discriminate].
    destruct (IH s (Some c) H) as [k Hk].
    exists (S k). cbn [map match_here]. now rewrite Ascii.eqb_refl, Hk. }
  induction s as [|c s IH]; intros Hinc prev.
  - cbn [includes] in Hinc. rewrite orb_false_r in Hinc.
    destruct cs; [congruence | discriminate].
  - cbn [includes] in Hinc. cbn [match_count_from].
    destruct (match_here (map Lit cs) prev (String c s)) eqn:E; [lia|].
    apply orb_true_iff in Hinc as [Hpre|Hinc]; [|now apply IH].
    destruct (Hm _ prev Hpre) as [len Hlen]. congruence.
Qed.

Lemma append_nil_r (s : string) : (s ++ "")%string = s.
Proof. induction s as [|c s IH]; simpl; [reflexivity | now rewrite IH]. Qed.

Lemma count_words_ge (text : string) (words : list string) (count m : nat) :
  count_words text words count = Some m -> (count <= m)%nat.
Proof.
  revert count. induction words as [|w ws IH]; intros count H; cbn [count_words] in H.
  - injection H as <-. lia.
  - destruct (RegExp w) as [re|]; [|discriminate]. cbn [bindR] in H.
    apply IH in H. lia.
Qed.

Lemma string_of_list_ascii_inv (s : string) :
  string_of_list_ascii (list_ascii_of_string s) = s.
Proof. apply string_of_list_ascii_of_string. Qed.

Lemma ticker_tests_ordered (text ticker companyName : string) :
  plain (toLowerCase ticker) = true ->
  ticker <> "" ->
  (occurs_as_token text ticker = true ->
   includes (toLowerCase text) (toLowerCase ticker) = true)
  /\ (includes text (toLowerCase ticker) = true ->
      forall mentions,
        countCompanyMentions text ticker companyName = Some mentions ->
        (1 <= mentions)%nat).
Proof.
  intros Hplain Hne.
  set (t := toLowerCase ticker) in *.
  set (cs := list_ascii_of_string t).
  assert (Et : string_of_list_ascii cs = t) by apply string_of_list_ascii_inv.
  assert (Hcs : cs <> []).
  { unfold cs, t. destruct ticker; [congruence | discriminate]. }
  split.
  - unfold occurs_as_token. fold t.
    change ("\b" ++ t ++ "\b")%string with (String "\" (String "b" (t ++ "\b")%string)).
    cbn [RegExp Ascii.eqb Bool.eqb]. rewrite (RegExp_plain t "\b" Hplain).
    cbn [RegExp Ascii.eqb Bool.eqb option_map]. fold cs.
    intros H. apply Nat.ltb_lt in H. unfold match_count in H.
    apply (match_count_from_includes (WordB :: map Lit cs ++ [WordB]) t) in H;
      [exact H|].
    intros prev s len Hm. cbn [match_here] in Hm.
    destruct (xorb _ _); [|discriminate].
    rewrite <- Et. eapply match_here_lits_prefix; eassumption.
  - intros Hinc mentions. unfold countCompanyMentions. fold t.
    pose proof (RegExp_plain t "" Hplain) as Er.
    rewrite append_nil_r in Er. cbn [RegExp option_map] in Er. fold cs in Er.
    rewrite app_nil_r in Er. rewrite Er. cbn [bindR].
    destruct (RegExp ("\$" ++ t)) as [re2|]; cbn [bindR]; [|discriminate].
    intros Em. apply count_words_ge in Em.
    rewrite <- Et in Hinc.
    pose proof (includes_match_count_from cs text Hcs Hinc None) as Hpos.
    unfold match_count in Em. lia.
Qed.

Lemma registry_tickers_plain :
  forallb (fun entry : string * Company =>
             plain (toLowerCase (fst entry)) && negb (String.eqb (fst entry) ""))
    COMPANY_DATABASE = true.
Proof. vm_compute. reflexivity. Qed.

Lemma lower_char_idem (c : ascii) : lower_char (lower_char c) = lower_char c.
Proof. destruct c as [[] [] [] [] [] [] [] []]; reflexivity. Qed.

Lemma toLowerCase_idem (s : string) : toLowerCase (toLowerCase s) = toLowerCase s.
Proof.
  induction s as [|c s IH]; cbn [toLowerCase]; [reflexivity|].
  now rewrite lower_char_idem, IH.
Qed.

(** X16.  [analyzeArticleImpact] lower-cases the text before anything
    else reads it.  On a lower-cased text the three tests for the ticker
    of a registry company are each weaker than the one before: if the
    ticker occurs as a token (the test of [calculateNewsRelevance]) then
    it occurs as a substring (the test behind the bonus of 10 in
    [identifyConnectedStocks]), and if it occurs as a substring then
    [countCompanyMentions] counts at least one mention. *)
Theorem X16_ticker_tests_ordered (raw ticker : string) (company : Company) :
  In (ticker, company) COMPANY_DATABASE ->
  let text := toLowerCase raw in
  (occurs_as_token text ticker = true -> includes text (toLowerCase ticker) = true)
  /\ (includes text (toLowerCase ticker) = true ->
      exists mentions,
        countCompanyMentions text ticker (c_name company) = Some mentions
        /\ (1 <= mentions)%nat)
  /\ (occurs_as_token text ticker = true ->
      exists mentions,
        countCompanyMentions text ticker (c_name company) = Some mentions
        /\ (1 <= mentions)%nat).
Proof.
  intros Hin text.
  pose proof registry_tickers_plain as Hp. rewrite forallb_forall in Hp.
  specialize (Hp _ Hin). cbn [fst] in Hp. apply andb_true_iff in Hp as [Hplain Hne].
  apply negb_true_iff, String.eqb_neq in Hne.
  destruct (ticker_tests_ordered text ticker (c_name company) Hplain Hne) as [H1 H2].
  assert (Htoken : occurs_as_token text ticker = true ->
                   includes text (toLowerCase ticker) = true).
  { intros H. apply H1 in H. unfold text in H. rewrite toLowerCase_idem in H. exact H. }
  assert (Hcount : includes text (toLowerCase ticker) = true ->
                   exists mentions,
                     countCompanyMentions text ticker (c_name company) = Some mentions
                     /\ (1 <= mentions)%nat).
  { intros Hinc.
    destruct (countCompanyMentions_total text ticker company (patterns_ok_In _ _ Hin))
      as [m Hm].
    exists m. split; [exact Hm | now apply (H2 Hinc)]. }
  split; [exact Htoken|]. split; [exact Hcount|]. intros H. auto.
Qed.

Lemma X16_ticker_tests_ordered_witness :
  includes (toLowerCase "Buy AAPL now") (toLowerCase "AAPL") = true
  /\ exists mentions,
       countCompanyMentions (toLowerCase "Buy AAPL now") "AAPL" (c_name Apple)
         = Some mentions
       /\ (1 <= mentions)%nat.
Proof.
  assert (Hin : In ("AAPL", Apple) COMPANY_DATABASE)
    by (unfold COMPANY_DATABASE, Apple; simpl; tauto).
  destruct (X16_ticker_tests_ordered "Buy AAPL now" "AAPL" Apple Hin) as [H1 [_ H3]].
  split; [apply H1; reflexivity | apply H3; reflexivity].
Defined.

(* ================================================================== *)
(** * Properties of the scraper's text functions *)

(** ** Characters *)

Lemma lower_char_kept (c : ascii) :
  Scraper.is_alnum (lower_char c) || Scraper.is_space (lower_char c) = true ->
  Scraper.is_space (lower_char c) = false ->
  is_lower_alnum (lower_char c) = true.
Proof.
  destruct c as [[] [] [] [] [] [] [] []]; vm_compute; intros; congruence.
Qed.

Lemma lower_char_fixed (c : ascii) :
  is_lower_alnum c || Scraper.is_space c = true -> lower_char c = c.
Proof.
  destruct c as [[] [] [] [] [] [] [] []]; vm_compute; intros; congruence.
Qed.

Lemma lower_alnum_kept (c : ascii) :
  is_lower_alnum c = true ->
  Scraper.is_alnum c = true /\ Scraper.is_space c = false.
Proof.
  destruct c as [[] [] [] [] [] [] [] []]; vm_compute; intros; split; congruence.
Qed.

Lemma all_chars_impl (p q : ascii -> bool) (s : string) :
  (forall c, p c = true -> q c = true) -> all_chars p s = true -> all_chars q s = true.
Proof.
  intros H. induction s as [|c s IH]; simpl; [auto|].
  rewrite !andb_true_iff. intros [Hc Hs]. auto.
Qed.

Lemma all_chars_append (p : ascii -> bool) (a b : string) :
  all_chars p (a ++ b) = all_chars p a && all_chars p b.
Proof.
  induction a as [|c a IH]; simpl; [reflexivity|]. now rewrite IH, andb_assoc.
Qed.

(** ** Cutting a string at runs of separators *)

Lemma split_runs_from_nonempty (sep : ascii -> bool) (b : bool) (s : string) :
  Scraper.split_runs_from sep b s <> [].
Proof.
  revert b. induction s as [|c s IH]; intros b; cbn [Scraper.split_runs_from].
  - discriminate.
  - destruct (sep c).
    + destruct b; [apply IH | discriminate].
    + destruct (Scraper.split_runs_from sep false s); discriminate.
Qed.

(** The pieces hold the characters of the string that are no
    separators. *)
Lemma split_runs_from_chars (sep p : ascii -> bool) (s : string) :
  all_chars (fun c => sep c || p c) s = true ->
  forall b, Forall (fun w => all_chars p w = true) (Scraper.split_runs_from sep b s).
Proof.
  induction s as [|c s IH]; intros H b; cbn [Scraper.split_runs_from].
  - repeat constructor.
  - cbn [all_chars] in H. apply andb_true_iff in H as [Hc Hs].
    destruct (sep c) eqn:Ec.
    + destruct b; [now apply IH|]. constructor; [reflexivity | now apply IH].
    + specialize (IH Hs false).
      destruct (Scraper.split_runs_from sep false s) as [|w ws].
      * repeat constructor. cbn [all_chars]. now rewrite andb_true_r.
      * inversion IH; subst. constructor; [|assumption].
        cbn [all_chars]. apply andb_true_iff. auto.
Qed.

Lemma split_runs_from_word (sep : ascii -> bool) (w rest : string) (b : bool) :
  all_chars (fun c => negb (sep c)) w = true ->
  w <> "" ->
  Scraper.split_runs_from sep b (w ++ rest)
  = match Scraper.split_runs_from sep false rest with
    | r :: rs => (w ++ r)%string :: rs
    | [] => [w]
    end.
Proof.
  revert b. induction w as [|c w IH]; intros b Hw Hne; [congruence|].
  cbn [all_chars] in Hw. apply andb_true_iff in Hw as [Hc Hw].
  apply negb_true_iff in Hc.
  cbn [append Scraper.split_runs_from]. rewrite Hc.
  destruct w as [|d w].
  - cbn [append]. destruct (Scraper.split_runs_from sep false rest); reflexivity.
  - rewrite (IH false Hw) by discriminate.
    destruct (Scraper.split_runs_from sep false rest); reflexivity.
Qed.

Lemma keep_chars_id (keep : ascii -> bool) (s : string) :
  all_chars keep s = true -> Scraper.keep_chars keep s = s.
Proof.
  induction s as [|c s IH]; simpl; [reflexivity|].
  intros H. apply andb_true_iff in H as [Hc Hs]. now rewrite Hc, IH.
Qed.

Lemma keep_chars_kept (keep : ascii -> bool) (s : string) :
  all_chars keep (Scraper.keep_chars keep s) = true.
Proof.
  induction s as [|c s IH]; simpl; [reflexivity|].
  destruct (keep c) eqn:E; [|exact IH]. simpl. now rewrite E, IH.
Qed.

Lemma toLowerCase_fixed (s : string) :
  all_chars (fun c => is_lower_alnum c || Scraper.is_space c) s = true ->
  toLowerCase s = s.
Proof.
  induction s as [|c s IH]; simpl; [reflexivity|].
  intros H. apply andb_true_iff in H as [Hc Hs].
  now rewrite (lower_char_fixed c Hc), IH.
Qed.

(** After lower-casing and stripping, a character is a lower-case letter,
    a digit or a space. *)
Lemma stripped_chars (headline : string) :
  all_chars (fun c => Scraper.is_space c || is_lower_alnum c)
    (Scraper.keep_chars (fun c => Scraper.is_alnum c || Scraper.is_space c)
       (toLowerCase headline)) = true.
Proof.
  induction headline as [|c s IH]; cbn [toLowerCase Scraper.keep_chars]; [reflexivity|].
  destruct (Scraper.is_alnum (lower_char c) || Scraper.is_space (lower_char c)) eqn:E;
    [|exact IH].
  cbn [all_chars]. rewrite IH, andb_true_r.
  destruct (Scraper.is_space (lower_char c)) eqn:Es; [reflexivity|].
  cbn [orb]. apply lower_char_kept; [now rewrite Es | exact Es].
Qed.

(** ** [extractKeywords] *)

Lemma split_runs_join (sep : ascii -> bool) (c : ascii) (words : list string) :
  sep c = true ->
  Forall (fun w => all_chars (fun d => negb (sep d)) w = true /\ w <> "") words ->
  words <> [] ->
  forall b, Scraper.split_runs_from sep b (join (String c "") words) = words.
Proof.
  intros Hc. induction 1 as [|w ws [Hw Hne] Hws IH]; intros Hnil b; [congruence|].
  unfold join in *. destruct ws as [|w' ws].
  - cbn [String.concat]. rewrite <- (append_nil_r w) at 1.
    rewrite (split_runs_from_word sep w "" b Hw Hne). cbn [Scraper.split_runs_from].
    now rewrite append_nil_r.
  - change (String.concat (String c "") (w :: w' :: ws))
      with (w ++ String c (String.concat (String c "") (w' :: ws)))%string.
    rewrite (split_runs_from_word sep w _ b Hw Hne).
    cbn [Scraper.split_runs_from]. rewrite Hc.
    rewrite (IH ltac:(discriminate) true). now rewrite append_nil_r.
Qed.

Lemma keyword_like_word (w : string) :
  keyword_like w ->
  all_chars (fun d => negb (Scraper.is_space d)) w = true /\ w <> "".
Proof.
  intros [Hlen [Hch _]]. split.
  - eapply all_chars_impl; [|exact Hch]. intros c Hc.
    apply lower_alnum_kept in Hc as [_ ->]. reflexivity.
  - intros ->. simpl in Hlen. lia.
Qed.

Lemma all_chars_join_words (words : list string) :
  Forall keyword_like words ->
  all_chars (fun c => is_lower_alnum c || Scraper.is_space c) (join " " words) = true.
Proof.
  unfold join. induction 1 as [|w ws [_ [Hw _]] Hws IH]; [reflexivity|].
  assert (Hw' : all_chars (fun c => is_lower_alnum c || Scraper.is_space c) w = true).
  { eapply all_chars_impl; [|exact Hw]. intros c ->. reflexivity. }
  destruct ws as [|w' ws]; [exact Hw'|].
  change (String.concat " " (w :: w' :: ws))
    with (w ++ String " " (String.concat " " (w' :: ws)))%string.
  rewrite all_chars_append, Hw'. cbn [all_chars andb]. exact IH.
Qed.

Lemma filter_all {A : Type} (f : A -> bool) (l : list A) :
  Forall (fun x => f x = true) l -> filter f l = l.
Proof. induction 1 as [|x l Hx _ IH]; simpl; [reflexivity | now rewrite Hx, IH]. Qed.

Lemma extractKeywords_words (headline : string) :
  Forall keyword_like (Scraper.extractKeywords headline).
Proof.
  unfold Scraper.extractKeywords, slice0, Scraper.split_runs.
  apply Forall_forall. intros w Hw. apply firstn_In in Hw.
  apply filter_In in Hw as [Hin Hf]. apply andb_true_iff in Hf as [Hlen Hstop].
  apply Nat.ltb_lt in Hlen. apply negb_true_iff in Hstop.
  split; [exact Hlen|]. split; [|exact Hstop].
  pose proof (split_runs_from_chars Scraper.is_space is_lower_alnum _
                (stripped_chars headline) false) as Hall.
  rewrite Forall_forall in Hall. now apply Hall.
Qed.

(** X17.  [extractKeywords] returns at most ten words, each of more than
    two characters, all lower-case letters or digits, and none a stop
    word. *)
Theorem X17_extractKeywords_shape (headline : string) :
  (length (Scraper.extractKeywords headline) <= 10)%nat
  /\ Forall keyword_like (Scraper.extractKeywords headline).
Proof.
  split; [|apply extractKeywords_words].
  unfold Scraper.extractKeywords, slice0. apply length_firstn_le.
Qed.

Lemma extractKeywords_join (words : list string) :
  Forall keyword_like words -> (length words <= 10)%nat ->
  Scraper.extractKeywords (join " " words) = words.
Proof.
  intros Hk Hlen. unfold Scraper.extractKeywords, slice0, Scraper.split_runs.
  rewrite (toLowerCase_fixed _ (all_chars_join_words words Hk)).
  rewrite keep_chars_id.
  2:{ eapply all_chars_impl; [|exact (all_chars_join_words words Hk)].
      intros c H. apply orb_true_iff in H as [H|H]; [|now rewrite H, orb_true_r].
      apply lower_alnum_kept in H as [-> _]. reflexivity. }
  destruct words as [|w ws]; [reflexivity|].
  rewrite (split_runs_join Scraper.is_space " " (w :: ws) eq_refl).
  - rewrite filter_all.
    + apply firstn_all2. exact Hlen.
    + eapply Forall_impl; [|exact Hk]. intros x [H1 [_ H3]].
      apply andb_true_iff. split; [now apply Nat.ltb_lt | now rewrite H3].
  - eapply Forall_impl; [|exact Hk]. intros x Hx. now apply keyword_like_word.
  - discriminate.
Qed.

(** X18.  Keywords survive a round trip: at most ten words that
    [extractKeywords] would let through, joined by single spaces, are
    extracted again unchanged and in order.  In particular the keywords
    of a headline, joined by spaces, have themselves as keywords. *)
Theorem X18_extractKeywords_round_trip (words : list string) (headline : string) :
  (Forall keyword_like words -> (length words <= 10)%nat ->
   Scraper.extractKeywords (join " " words) = words)
  /\ Scraper.extractKeywords (join " " (Scraper.extractKeywords headline))
     = Scraper.extractKeywords headline.
Proof.
  split; [apply extractKeywords_join|].
  apply extractKeywords_join; [apply extractKeywords_words|].
  unfold Scraper.extractKeywords, slice0. apply length_firstn_le.
Qed.

Lemma X18_extractKeywords_round_trip_witness :
  Scraper.extractKeywords (join " " ["tesla"; "2024"; "deliveries"; "beat"])
  = ["tesla"; "2024"; "deliveries"; "beat"].
Proof.
  apply (proj1 (X18_extractKeywords_round_trip ["tesla"; "2024"; "deliveries"; "beat"] "")).
  - repeat constructor.
  - simpl. lia.
Defined.

(** ** Sets of keywords *)

Lemma has_In (set : list string) (x : string) : Scraper.has set x = true <-> In x set.
Proof.
  unfold Scraper.has. rewrite existsb_exists. split.
  - intros [y [Hy E]]. apply String.eqb_eq in E. now subst.
  - intros H. exists x. split; [exact H | apply String.eqb_refl].
Qed.

Lemma has_false (set : list string) (x : string) :
  Scraper.has set x = false <-> ~ In x set.
Proof. rewrite <- has_In. now destruct (Scraper.has set x). Qed.

Lemma Set_from_In (xs seen : list string) (x : string) :
  In x (Scraper.Set_from seen xs) <-> In x xs /\ ~ In x seen.
Proof.
  revert seen. induction xs as [|y xs IH]; intros seen; cbn [Scraper.Set_from].
  - simpl. tauto.
  - destruct (Scraper.has seen y) eqn:E.
    + apply has_In in E. rewrite IH. simpl. intuition (subst; contradiction).
    + apply has_false in E. simpl. rewrite IH. simpl.
      destruct (string_dec y x) as [->|Hne]; intuition congruence.
Qed.

Lemma Set_from_NoDup (xs seen : list string) : NoDup (Scraper.Set_from seen xs).
Proof.
  revert seen. induction xs as [|y xs IH]; intros seen; cbn [Scraper.Set_from].
  - constructor.
  - destruct (Scraper.has seen y); [apply IH|].
    constructor; [|apply IH]. rewrite Set_from_In. simpl. tauto.
Qed.

Lemma new_Set_In (xs : list string) (x : string) : In x (Scraper.new_Set xs) <-> In x xs.
Proof. unfold Scraper.new_Set. rewrite Set_from_In. simpl. tauto. Qed.

Lemma new_Set_NoDup (xs : list string) : NoDup (Scraper.new_Set xs).
Proof. apply Set_from_NoDup. Qed.

Lemma Set_from_seen (xs seen : list string) :
  (forall x, In x xs -> In x seen) -> Scraper.Set_from seen xs = [].
Proof.
  induction xs as [|y xs IH]; intros H; cbn [Scraper.Set_from]; [reflexivity|].
  assert (E : Scraper.has seen y = true) by (apply has_In, H; now left).
  rewrite E. apply IH. intros x Hx. apply H. now right.
Qed.

Lemma Set_from_NoDup_id (xs seen : list string) :
  NoDup xs -> (forall x, In x xs -> ~ In x seen) -> Scraper.Set_from seen xs = xs.
Proof.
  revert seen. induction xs as [|y xs IH]; intros seen Hnd H;
    cbn [Scraper.Set_from]; [reflexivity|].
  inversion Hnd as [|? ? Hnin Hnd']; subst.
  assert (E : Scraper.has seen y = false) by (apply has_false, H; now left).
  rewrite E. f_equal. apply IH; [exact Hnd'|].
  intros x Hx [<-|Hs]; [contradiction|]. apply (H x); [now right | exact Hs].
Qed.

Lemma new_Set_NoDup_id (xs : list string) : NoDup xs -> Scraper.new_Set xs = xs.
Proof. intros H. apply Set_from_NoDup_id; [exact H | auto]. Qed.

Lemma Set_from_app (xs ys seen : list string) :
  Scraper.Set_from seen (xs ++ ys)
  = Scraper.Set_from seen xs ++ Scraper.Set_from (rev (Scraper.Set_from seen xs) ++ seen) ys.
Proof.
  revert seen. induction xs as [|x xs IH]; intros seen; cbn [app Scraper.Set_from];
    [reflexivity|].
  destruct (Scraper.has seen x); [apply IH|].
  cbn [app rev]. rewrite IH, <- app_assoc. reflexivity.
Qed.

Lemma NoDup_same_length {A : Type} (l l' : list A) :
  NoDup l -> NoDup l' -> (forall x, In x l <-> In x l') -> length l = length l'.
Proof.
  intros H1 H2 H. apply Permutation_length. now apply NoDup_Permutation.
Qed.

Lemma NoDup_filter' {A : Type} (f : A -> bool) (l : list A) : NoDup l -> NoDup (filter f l).
Proof.
  induction 1 as [|x l Hnin _ IH]; simpl; [constructor|].
  destruct (f x); [|exact IH]. constructor; [|exact IH].
  intros Hin. apply filter_In in Hin. tauto.
Qed.

(** The intersection and the union that [calculateRelevance] builds do
    not depend on the order of the two sets. *)
Lemma intersection_size_sym (k1 k2 : list string) :
  NoDup k1 -> NoDup k2 ->
  length (Scraper.new_Set (filter (fun x => Scraper.has k2 x) k1))
  = length (Scraper.new_Set (filter (fun x => Scraper.has k1 x) k2)).
Proof.
  intros H1 H2. apply NoDup_same_length; try apply new_Set_NoDup.
  intros x. rewrite !new_Set_In, !filter_In, !has_In. tauto.
Qed.

Lemma union_size_sym (k1 k2 : list string) :
  length (Scraper.new_Set (k1 ++ k2)) = length (Scraper.new_Set (k2 ++ k1)).
Proof.
  apply NoDup_same_length; try apply new_Set_NoDup.
  intros x. rewrite !new_Set_In, !in_app_iff. tauto.
Qed.

Lemma partialMatches_inner (word1 : string) (k2 : list string) (count : nat) :
  fold_left
    (fun count word2 =>
       if includes word1 word2 || includes word2 word1 then S count else count)
    k2 count
  = (count + length (filter (fun word2 => includes word1 word2 || includes word2 word1) k2))%nat.
Proof.
  revert count. induction k2 as [|w k2 IH]; intros count; simpl; [lia|].
  rewrite IH. destruct (includes word1 w || includes w word1); simpl; lia.
Qed.

Lemma partialMatches_pos (k1 k2 : list string) :
  (0 < Scraper.partialMatches k1 k2)%nat <->
  exists w1 w2, In w1 k1 /\ In w2 k2 /\ includes w1 w2 || includes w2 w1 = true.
Proof.
  unfold Scraper.partialMatches.
  assert (G : forall count,
            (0 < fold_left
                   (fun count word1 =>
                      fold_left
                        (fun count word2 =>
                           if includes word1 word2 || includes word2 word1
                           then S count else count) k2 count) k1 count)%nat
            <-> (0 < count)%nat
                \/ exists w1 w2, In w1 k1 /\ In w2 k2
                                 /\ includes w1 w2 || includes w2 w1 = true).
  { induction k1 as [|w k1 IH]; intros count; cbn [fold_left].
    - split; [auto | intros [H|[w1 [w2 [[] _]]]]; exact H].
    - rewrite IH, partialMatches_inner. split.
      + intros [H|[w1 [w2 [H1 H2]]]].
        * destruct (filter _ k2) as [|w2 l] eqn:E.
          -- left. simpl in H. lia.
          -- right. exists w, w2.
             assert (Hin : In w2 (filter (fun word2 => includes w word2 || includes word2 w) k2))
               by (rewrite E; now left).
             apply filter_In in Hin. simpl. tauto.
        * right. exists w1, w2. simpl. tauto.
      + intros [H|[w1 [w2 [[<-|H1] [H2 H3]]]]].
        * left. lia.
        * left.
          assert (Hin : In w2 (filter (fun word2 => includes w word2 || includes word2 w) k2))
            by (apply filter_In; auto).
          destruct (filter _ k2); [contradiction | simpl; lia].
        * right. exists w1, w2. auto. }
  rewrite G. split; [intros [H|H]; [lia | exact H] | auto].
Qed.

Lemma partialMatches_sym (k1 k2 : list string) :
  (0 <? Scraper.partialMatches k1 k2)%nat = (0 <? Scraper.partialMatches k2 k1)%nat.
Proof.
  apply eq_true_iff_eq. rewrite !Nat.ltb_lt, !partialMatches_pos.
  split; intros [w1 [w2 [H1 [H2 H3]]]]; exists w2, w1; rewrite orb_comm; auto.
Qed.

Lemma existsb_ext' {A : Type} (f g : A -> bool) (l : list A) :
  (forall x, f x = g x) -> existsb f l = existsb g l.
Proof. intros H. induction l as [|x l IH]; simpl; [reflexivity | now rewrite H, IH]. Qed.

Lemma filter_ext' {A : Type} (f g : A -> bool) (l : list A) :
  (forall x, f x = g x) -> filter f l = filter g l.
Proof. intros H. induction l as [|x l IH]; simpl; [reflexivity | now rewrite H, IH]. Qed.

(** X19.  [calculateRelevance] is symmetric: the two headlines can be
    exchanged. *)
Theorem X19_calculateRelevance_symmetric (headline1 headline2 : string) :
  Scraper.calculateRelevance headline1 headline2
  = Scraper.calculateRelevance headline2 headline1.
Proof.
  unfold Scraper.calculateRelevance. cbv zeta.
  set (k1 := Scraper.new_Set (Scraper.extractKeywords headline1)).
  set (k2 := Scraper.new_Set (Scraper.extractKeywords headline2)).
  rewrite (intersection_size_sym k1 k2) by apply new_Set_NoDup.
  rewrite (union_size_sym k1 k2), (partialMatches_sym k1 k2).
  rewrite (existsb_ext'
             (fun symbol => includes (toLowerCase headline1) (toLowerCase symbol)
                            && includes (toLowerCase headline2) (toLowerCase symbol))
             (fun symbol => includes (toLowerCase headline2) (toLowerCase symbol)
                            && includes (toLowerCase headline1) (toLowerCase symbol)))
    by (intros; apply andb_comm).
  rewrite (filter_ext'
             (fun term => includes (toLowerCase headline1) term
                          && includes (toLowerCase headline2) term)
             (fun term => includes (toLowerCase headline2) term
                          && includes (toLowerCase headline1) term))
    by (intros; apply andb_comm).
  reflexivity.
Qed.

Lemma num_pos (n : nat) : (0 < n)%nat -> 0 < num n.
Proof. intros H. unfold num. apply inject_Z_pos. lia. Qed.

Lemma if_nonneg (b : bool) (x y : Q) : 0 <= x -> 0 <= y -> 0 <= (if b then x else y).
Proof. now destruct b. Qed.

Lemma jaccard_nonneg (i u : nat) :
  0 <= (if (0 <? u)%nat then num i / num u else 0).
Proof.
  destruct (Nat.ltb_spec 0 u) as [H|H]; [|lra].
  apply Qle_shift_div_l; [now apply num_pos|]. pose proof (num_nonneg i). lra.
Qed.

Lemma new_Set_self_union (k : list string) :
  NoDup k -> Scraper.new_Set (k ++ k) = k.
Proof.
  intros H. unfold Scraper.new_Set. rewrite Set_from_app.
  rewrite (Set_from_NoDup_id k [] H) by auto.
  rewrite Set_from_seen; [apply app_nil_r|].
  intros x Hx. apply in_or_app. left. now apply in_rev in Hx.
Qed.

Lemma new_Set_self_intersection (k : list string) :
  NoDup k -> Scraper.new_Set (filter (fun x => Scraper.has k x) k) = k.
Proof.
  intros H. rewrite filter_all; [now apply new_Set_NoDup_id|].
  apply Forall_forall. intros x Hx. now apply has_In.
Qed.

(** X20.  [calculateRelevance] returns a number between 0 and 1, and it
    returns 1 for a headline compared with itself as soon as the headline
    has a keyword. *)
Theorem X20_calculateRelevance_range (headline1 headline2 : string) :
  0 <= Scraper.calculateRelevance headline1 headline2 <= 1
  /\ (Scraper.extractKeywords headline1 <> [] ->
      Scraper.calculateRelevance headline1 headline1 == 1).
Proof.
  split.
  - unfold Scraper.calculateRelevance. cbv zeta.
    set (k1 := Scraper.new_Set (Scraper.extractKeywords headline1)).
    set (k2 := Scraper.new_Set (Scraper.extractKeywords headline2)).
    pose proof (jaccard_nonneg
                  (length (Scraper.new_Set (filter (fun x => Scraper.has k2 x) k1)))
                  (length (Scraper.new_Set (k1 ++ k2)))) as Hj.
    set (j := if (0 <? length (Scraper.new_Set (k1 ++ k2)))%nat then _ else _) in *.
    set (p := if (0 <? Scraper.partialMatches k1 k2)%nat then 0.2 else 0).
    assert (Hp : 0 <= p) by (unfold p; apply if_nonneg; lra).
    set (s := if existsb _ Scraper.stockSymbols then 0.3 else 0).
    assert (Hs : 0 <= s) by (unfold s; apply if_nonneg; lra).
    set (fm := length (filter _ Scraper.financialTerms)).
    set (f := if (0 <? fm)%nat then num fm * 0.1 else 0).
    assert (Hf : 0 <= f).
    { unfold f. pose proof (num_nonneg fm). apply if_nonneg; lra. }
    unfold Math_min. qcases; lra.
  - intros Hne. unfold Scraper.calculateRelevance. cbv zeta.
    set (k := Scraper.new_Set (Scraper.extractKeywords headline1)).
    assert (Hnd : NoDup k) by apply new_Set_NoDup.
    assert (Hk : (0 < length k)%nat).
    { destruct (Scraper.extractKeywords headline1) as [|w ws] eqn:E; [congruence|].
      assert (Hin : In w k) by (apply new_Set_In; now left).
      destruct k; [contradiction | simpl; lia]. }
    rewrite (new_Set_self_intersection k Hnd), (new_Set_self_union k Hnd).
    apply Nat.ltb_lt in Hk as Hk'. rewrite Hk'.
    assert (Hj : num (length k) / num (length k) == 1).
    { pose proof (num_pos _ Hk). field. lra. }
    set (p := if (0 <? Scraper.partialMatches k k)%nat then 0.2 else 0).
    assert (Hp : 0 <= p) by (unfold p; apply if_nonneg; lra).
    set (s := if existsb _ Scraper.stockSymbols then 0.3 else 0).
    assert (Hs : 0 <= s) by (unfold s; apply if_nonneg; lra).
    set (fm := length (filter _ Scraper.financialTerms)).
    set (f := if (0 <? fm)%nat then num fm * 0.1 else 0).
    assert (Hf : 0 <= f).
    { unfold f. pose proof (num_nonneg fm). apply if_nonneg; lra. }
    rewrite Hj. unfold Math_min. qcases; lra.
Qed.

Lemma X20_calculateRelevance_range_witness :
  Scraper.calculateRelevance "Fed holds rates" "Fed holds rates" == 1.
Proof.
  apply (proj2 (X20_calculateRelevance_range "Fed holds rates" "")). discriminate.
Defined.

(** ** [findRelatedArticles] *)

Lemma sort_sorted_id {A : Type} (key : A -> Q) (l : list A) :
  StronglySorted (key_desc key) l -> sort (cmp_desc key) l = l.
Proof.
  induction 1 as [|x l Hs IH Hx]; cbn [sort fold_right]; [reflexivity|].
  fold (sort (cmp_desc key) l). rewrite IH.
  destruct l as [|y l]; [reflexivity|]. cbn [insert].
  inversion Hx as [|? ? Hxy _]; subst. unfold key_desc in Hxy.
  assert (E : Qle_bool (cmp_desc key x y) 0 = true)
    by (apply Qle_bool_iff; unfold cmp_desc; lra).
  now rewrite E.
Qed.

Lemma mockRelatedArticles_sorted (Date_now : nat -> Z) (toISOString : Z -> string) :
  StronglySorted (key_desc Scraper.ra_relevanceScore)
    (Scraper.mockRelatedArticles Date_now toISOString).
Proof.
  unfold Scraper.mockRelatedArticles, key_desc.
  repeat (constructor; [|repeat (constructor; [cbn; discriminate|]); constructor]).
  constructor.
Qed.

(** X21.  [findRelatedArticles] returns the mock articles whose headline
    has a relevance above 0.5 to the given headline, in the order of the
    mock list, which is the order of decreasing relevance score (the sort
    moves nothing), and never more than [limit] of them. *)
Theorem X21_findRelatedArticles_result (Date_now : nat -> Z) (toISOString : Z -> string)
    (headline : string) (limit : nat) :
  let result := Scraper.findRelatedArticles Date_now toISOString headline limit in
  result
  = firstn limit
      (filter (fun article =>
                 gt (Scraper.calculateRelevance headline (Scraper.ra_headline article)) 0.5)
         (Scraper.mockRelatedArticles Date_now toISOString))
  /\ (length result <= Nat.min limit 5)%nat
  /\ Forall (fun article =>
               0.5 < Scraper.calculateRelevance headline (Scraper.ra_headline article))
       result
  /\ StronglySorted (key_desc Scraper.ra_relevanceScore) result.
Proof.
  cbv zeta. unfold Scraper.findRelatedArticles, slice0.
  set (mock := Scraper.mockRelatedArticles Date_now toISOString).
  set (f := fun article => gt (Scraper.calculateRelevance headline (Scraper.ra_headline article)) 0.5).
  assert (Hs : StronglySorted (key_desc Scraper.ra_relevanceScore) (filter f mock))
    by (apply sorted_filter, mockRelatedArticles_sorted).
  change (sort _ (filter f mock))
    with (sort (cmp_desc Scraper.ra_relevanceScore) (filter f mock)).
  rewrite (sort_sorted_id Scraper.ra_relevanceScore _ Hs).
  split; [reflexivity|]. split; [|split].
  - rewrite length_firstn. 
    assert (H5 : (length (filter f mock) <= 5)%nat).
    { pose proof (filter_length_le f mock) as H. exact H. }
    lia.
  - apply Forall_forall. intros a Ha. apply firstn_In in Ha.
    apply filter_In in Ha as [_ Ha]. unfold f in Ha. now apply gt_true in Ha.
  - clear - Hs. revert limit. induction Hs as [|x l Hs IH Hx]; intros [|n]; simpl;
      try constructor.
    + apply IH.
    + apply Forall_forall. intros y Hy. apply firstn_In in Hy.
      rewrite Forall_forall in Hx. now apply Hx.
Qed.

(** ** [generateSummary] *)

Lemma all_chars_total (p : ascii -> bool) (s : string) :
  (forall c, p c = true) -> all_chars p s = true.
Proof.
  intros H. induction s as [|c s IH]; cbn [all_chars]; [reflexivity|].
  now rewrite H, IH.
Qed.

Lemma sentences_chars (fullText : string) (b : bool) :
  Forall (fun s => all_chars (fun c => negb (Scraper.is_sentence_end c)) s = true)
    (Scraper.split_runs_from Scraper.is_sentence_end b fullText).
Proof.
  apply split_runs_from_chars, all_chars_total.
  intros c. now destruct (Scraper.is_sentence_end c).
Qed.

Lemma all_chars_count (p : ascii -> bool) (c : ascii) (s : string) :
  p c = false -> all_chars p s = true -> count_char c s = O.
Proof.
  intros Hc. induction s as [|d s IH]; cbn [all_chars count_char]; [reflexivity|].
  intros H. apply andb_true_iff in H as [Hd Hs].
  destruct (Ascii.eqb_spec c d) as [->|_]; [congruence | auto].
Qed.

Lemma count_char_append (c : ascii) (a b : string) :
  count_char c (a ++ b) = (count_char c a + count_char c b)%nat.
Proof.
  induction a as [|d a IH]; cbn [append count_char]; [reflexivity|].
  rewrite IH. now destruct (Ascii.eqb c d).
Qed.

Lemma all_chars_trimStart (p : ascii -> bool) (s : string) :
  all_chars p s = true -> all_chars p (Scraper.trimStart s) = true.
Proof.
  induction s as [|c s IH]; cbn [Scraper.trimStart]; [auto|].
  destruct (Scraper.is_space c); [|auto].
  cbn [all_chars]. intros H. apply andb_true_iff in H as [_ H]. auto.
Qed.

Lemma all_chars_trimEnd (p : ascii -> bool) (s : string) :
  all_chars p s = true -> all_chars p (Scraper.trimEnd s) = true.
Proof.
  induction s as [|c s IH]; cbn [Scraper.trimEnd]; [auto|].
  cbn [all_chars]. intros H. apply andb_true_iff in H as [Hc Hs].
  specialize (IH Hs). destruct (Scraper.trimEnd s) as [|d t].
  - destruct (Scraper.is_space c); cbn [all_chars]; [reflexivity|].
    now rewrite Hc.
  - change (all_chars p (String c (String d t))) with (p c && all_chars p (String d t)).
    now rewrite Hc, IH.
Qed.

Lemma count_char_trimStart (c : ascii) (s : string) :
  Scraper.is_space c = false -> count_char c (Scraper.trimStart s) = count_char c s.
Proof.
  intros Hc. induction s as [|d s IH]; cbn [Scraper.trimStart]; [reflexivity|].
  destruct (Scraper.is_space d) eqn:Ed; [|reflexivity].
  cbn [count_char]. destruct (Ascii.eqb_spec c d) as [->|_]; [congruence | exact IH].
Qed.

Lemma count_char_trimEnd (c : ascii) (s : string) :
  Scraper.is_space c = false -> count_char c (Scraper.trimEnd s) = count_char c s.
Proof.
  intros Hc. induction s as [|d s IH]; cbn [Scraper.trimEnd]; [reflexivity|].
  cbn [count_char]. rewrite <- IH.
  destruct (Scraper.trimEnd s) as [|e t].
  - destruct (Scraper.is_space d) eqn:Ed; cbn [count_char]; [|reflexivity].
    destruct (Ascii.eqb_spec c d) as [->|_]; [congruence | reflexivity].
  - reflexivity.
Qed.

Lemma join_chars (p : ascii -> bool) (sep : string) (l : list string) :
  all_chars p sep = true ->
  Forall (fun s => all_chars p s = true) l ->
  all_chars p (join sep l) = true.
Proof.
  intros Hsep. unfold join. induction 1 as [|s l Hs Hl IH]; [reflexivity|].
  destruct l as [|s' l]; [exact Hs|].
  change (String.concat sep (s :: s' :: l))
    with (s ++ sep ++ String.concat sep (s' :: l))%string.
  rewrite !all_chars_append, Hs, Hsep, IH. reflexivity.
Qed.

Lemma join_count (c : ascii) (sep : string) (l : list string) :
  Forall (fun s => count_char c s = O) l ->
  count_char c (join sep l) = (count_char c sep * (length l - 1))%nat.
Proof.
  unfold join. induction 1 as [|s l Hs Hl IH]; [cbn; lia|].
  destruct l as [|s' l]; [cbn [String.concat length]; rewrite Hs; lia|].
  change (String.concat sep (s :: s' :: l))
    with (s ++ sep ++ String.concat sep (s' :: l))%string.
  rewrite !count_char_append, Hs, IH. cbn [length]. lia.
Qed.

(** X22.  A summary holds no exclamation or question mark, and as many
    full stops as it joins sentences, plus one when sentences were left
    out: at most [maxSentences] of them, or one when [maxSentences] is
    zero, where the summary of a text with a sentence of more than twenty
    characters is the full stop alone. *)
Theorem X22_generateSummary_punctuation (fullText : string) (maxSentences : nat) :
  let summary := Scraper.generateSummary fullText maxSentences in
  let sentences :=
    filter (fun s => (20 <? String.length (Scraper.trim s))%nat)
      (Scraper.split_runs Scraper.is_sentence_end fullText) in
  all_chars (fun c => negb (Ascii.eqb c "!" || Ascii.eqb c "?")) summary = true
  /\ count_char "." summary
     = ((Nat.min maxSentences (length sentences) - 1)
        + (if (maxSentences <? length sentences)%nat then 1 else 0))%nat
  /\ (count_char "." summary <= Nat.max maxSentences 1)%nat
  /\ (maxSentences = O -> sentences <> [] -> summary = ".").
Proof.
  cbv zeta. unfold Scraper.generateSummary.
  set (sentences := filter _ (Scraper.split_runs Scraper.is_sentence_end fullText)).
  assert (Hs : Forall (fun s => all_chars (fun c => negb (Scraper.is_sentence_end c)) s = true)
                 (slice0 maxSentences sentences)).
  { apply Forall_forall. intros s Hs. unfold slice0 in Hs. apply firstn_In in Hs.
    apply filter_In in Hs as [Hs _]. revert s Hs. apply Forall_forall, sentences_chars. }
  assert (Hcount : count_char "."
            (Scraper.trim (join ". " (slice0 maxSentences sentences))
             ++ (if (maxSentences <? length sentences)%nat then "." else ""))
          = ((Nat.min maxSentences (length sentences) - 1)
             + (if (maxSentences <? length sentences)%nat then 1 else 0))%nat).
  { rewrite count_char_append. unfold Scraper.trim.
    rewrite count_char_trimEnd, count_char_trimStart by reflexivity.
    rewrite join_count.
    - unfold slice0. rewrite length_firstn. change (count_char "." ". ") with 1%nat.
      destruct (maxSentences <? length sentences)%nat; cbn [count_char]; cbn; lia.
    - revert Hs. apply Forall_impl. intros s.
      apply all_chars_count. reflexivity. }
  destruct (String.eqb_spec fullText "") as [->|Hne].
  - change sentences with (@nil string). cbn. repeat split; try lia. congruence.
  - split; [|split; [exact Hcount|split]].
    + rewrite all_chars_append. apply andb_true_iff. split.
      * unfold Scraper.trim. apply all_chars_trimEnd, all_chars_trimStart.
        apply join_chars; [reflexivity|].
        revert Hs. apply Forall_impl. intros s. apply all_chars_impl.
        intros c. destruct c as [[] [] [] [] [] [] [] []]; vm_compute; congruence.
      * now destruct (maxSentences <? length sentences)%nat.
    + rewrite Hcount. destruct (Nat.ltb_spec maxSentences (length sentences)); lia.
    + intros -> Hl. destruct sentences; [congruence | reflexivity].
Qed.
Lemma X22_generateSummary_punctuation_witness :
  Scraper.generateSummary "The quarterly report came out today. Shares rose!" 0 = ".".
Proof.
  apply (X22_generateSummary_punctuation
           "The quarterly report came out today. Shares rose!" 0);
    [reflexivity | discriminate].
Defined.

(** ** The stocks that the key insights name *)

Lemma lt_true (a b : Q) : lt a b = true <-> a < b.
Proof. unfold lt. exact (gt_true b a). Qed.

Lemma extreme_filter_sorted (f : StockImpact -> bool) (R : StockImpact -> StockImpact -> Prop)
    (impacts : list StockImpact) :
  (forall a b, f a = true -> f b = true -> most_extreme_first a b -> R a b) ->
  StronglySorted most_extreme_first impacts ->
  StronglySorted R (filter f impacts).
Proof.
  intros HR. induction 1 as [|x l Hs IH Hx]; cbn [filter]; [constructor|].
  destruct (f x) eqn:Ex; [|exact IH].
  constructor; [exact IH|].
  apply Forall_forall. intros y Hy. apply filter_In in Hy as [Hy Ey].
  rewrite Forall_forall in Hx. auto.
Qed.

Lemma positive_stocks_sorted (impacts : list StockImpact) :
  StronglySorted most_extreme_first impacts ->
  StronglySorted (key_desc impactScore) (filter (fun s => gt (impactScore s) 0.6) impacts).
Proof.
  apply extreme_filter_sorted. intros a b Ha Hb.
  apply gt_true in Ha, Hb. unfold most_extreme_first, extremity, key_desc.
  rewrite !Qabs_pos by lra. lra.
Qed.

Lemma negative_stocks_sorted (impacts : list StockImpact) :
  StronglySorted most_extreme_first impacts ->
  StronglySorted (fun a b => impactScore a <= impactScore b)
    (filter (fun s => lt (impactScore s) 0.4) impacts).
Proof.
  apply extreme_filter_sorted. intros a b Ha Hb.
  apply lt_true in Ha, Hb. unfold most_extreme_first, extremity.
  rewrite !Qabs_neg by lra. lra.
Qed.

Lemma generateKeyInsights_kept (headline text : string)
    (impacts : list StockImpact) (sectors : list MarketSector) :
  let above := filter (fun s => gt (impactScore s) 0.6) impacts in
  let below := filter (fun s => lt (impactScore s) 0.4) impacts in
  let insights := fst (generateKeyInsights headline text impacts sectors) in
  length insights
  = (1 + count_true
           [ negb (Nat.eqb (length above) 0); negb (Nat.eqb (length below) 0);
             negb (Nat.eqb (length sectors) 0);
             existsb (fun s => match timeframe s with Immediate => true | _ => false end)
               impacts ])%nat
  /\ match above with
     | [] => True
     | _ :: _ =>
         hd_error insights
         = Some (join " and " (map ticker (firstn 2 above))
                 ++ " show strongest positive impact potential with high confidence levels.")%string
     end.
Proof.
  cbv zeta. unfold generateKeyInsights. cbv zeta. cbn [fst]. unfold slice0.
  set (last := ("Market sentiment analysis suggests " ++ _)%string).
  set (cmp := fun a b : MarketSector => _).
  assert (Hsec : length (sort cmp sectors) = length sectors).
  { symmetry. apply Permutation_length.
    exact (sort_perm (fun m => Qabs (ms_impactScore m - 0.5)) sectors). }
  set (pos := filter (fun s => gt (impactScore s) 0.6) impacts).
  set (neg := filter (fun s => lt (impactScore s) 0.4) impacts).
  set (imm := filter _ impacts).
  assert (Himm : existsb (fun s => match timeframe s with Immediate => true | _ => false end)
                   impacts = negb (Nat.eqb (length imm) 0)).
  { unfold imm. clear. induction impacts as [|s l IH]; [reflexivity|].
    cbn [existsb filter]. destruct (timeframe s); cbn [orb length Nat.eqb negb]; auto. }
  rewrite Himm. unfold count_true.
  destruct pos as [|p1 [|p2 pos]]; destruct neg as [|n1 [|n2 neg]];
    destruct (sort cmp sectors) as [|top others]; destruct sectors as [|sec sectors];
    try discriminate Hsec; destruct imm as [|i1 imm];
    cbn [firstn length Nat.ltb Nat.leb Nat.eqb negb app filter hd_error];
    split; reflexivity || exact I.
Qed.

(** X23.  The key insights of a result are between two and five
    sentences and the cut after the fifth never removes one: the sentence
    on the most exposed sector and the one on market breadth are always
    there, the three others when stocks above 0.6, stocks below 0.4 and
    stocks with an immediate timeframe exist.  The stocks above 0.6 come
    by falling impact score and those below 0.4 by rising impact score, so
    the two stocks that a sentence names are the two of the highest, or
    of the lowest, impact score. *)
Theorem X23_key_insights_name_the_extremes (random : nat -> Q) (headline fullText : string) :
  exists result,
    run_analyzeArticleImpact random headline fullText = Some result
    /\ let above := filter (fun s => gt (impactScore s) 0.6) (stockImpacts result) in
       let below := filter (fun s => lt (impactScore s) 0.4) (stockImpacts result) in
       (2 <= length (keyInsights result) <= 5)%nat
       /\ length (keyInsights result)
          = (2 + count_true
                   [ negb (Nat.eqb (length above) 0); negb (Nat.eqb (length below) 0);
                     existsb (fun s => match timeframe s with
                                       | Immediate => true | _ => false end)
                       (stockImpacts result) ])%nat
       /\ StronglySorted (key_desc impactScore) above
       /\ StronglySorted (fun a b => impactScore a <= impactScore b) below
       /\ match above with
          | [] => True
          | _ :: _ =>
              hd_error (keyInsights result)
              = Some (join " and " (map ticker (firstn 2 above))
                      ++ " show strongest positive impact potential with high confidence levels.")%string
          end.
Proof.
  destruct (run_analyzeArticleImpact_total random headline fullText)
    as [impacts [Hrun [_ Hs]]].
  set (text := toLowerCase (headline ++ " " ++ fullText)) in *.
  exists (assemble headline text impacts). split; [exact Hrun|].
  cbv zeta. unfold assemble. cbv zeta. cbn [stockImpacts keyInsights].
  set (sectors := generateSectorImpacts (identifyAffectedSectors text) text
                    (analyzeSentiment text)).
  assert (Hsec : (1 <= length sectors)%nat).
  { unfold sectors, generateSectorImpacts. rewrite length_map.
    rewrite affected_sectors_matching.
    destruct (matching_sectors text) eqn:E; [simpl; lia|].
    rewrite length_firstn. cbn [length]. lia. }
  destruct (generateKeyInsights_kept headline text impacts sectors) as [Hlen Hhd].
  assert (Hlen' : length (fst (generateKeyInsights headline text impacts sectors))
     = (2 + count_true
          [ negb (Nat.eqb (length (filter (fun s => gt (impactScore s) 0.6) impacts)) 0);
            negb (Nat.eqb (length (filter (fun s => lt (impactScore s) 0.4) impacts)) 0);
            existsb (fun s => match timeframe s with Immediate => true | _ => false end)
              impacts ])%nat).
  { rewrite Hlen. unfold count_true.
    destruct (negb _), (negb _), (existsb _ impacts);
      destruct sectors; cbn [length] in Hsec; try lia; reflexivity. }
  split; [|split; [exact Hlen'|split; [|split]]].
  - rewrite Hlen'. unfold count_true.
    destruct (negb _), (negb _), (existsb _ impacts); cbn; lia.
  - now apply positive_stocks_sorted.
  - now apply negative_stocks_sorted.
  - exact Hhd.
Qed.
